(** * BSG_KSJSONCodec: the streaming JSON encoder of bugsnag-cocoa

    A shallow embedding of
    [ios/vendor/bugsnag-cocoa/Bugsnag/KSCrash/Source/KSCrash/Recording/Tools/BSG_KSJSONCodec.c]
    and the properties of its number formatters, its string escaper and its
    encoder state machine.

    Conventions.
    - A [char] is a [byte]; a run of bytes is a [list byte].
    - A [const char *] argument is a [ptr]: [None] is [NULL], [Some l] points
      at the readable bytes [l].  Reading outside [l], or through [NULL], is
      undefined in C and has no result ([None]) here.
    - [uint64_t], [int64_t] and [int] values are integers in [Z]; every
      conversion and every wrap-around is written out.  Signed arithmetic
      is computed as a two's complement machine does.
    - A [double] is a [spec_float] with 53 bits of precision. *)

From Stdlib Require Import ZArith List Lia Bool.
From Stdlib Require Import Strings.Byte Strings.String.
From Stdlib Require Import Floats.SpecFloat.
From stdpp Require Import base list option.
From Equations Require Import Equations.
Import ListNotations.

Open Scope Z_scope.

(* ====================================================================== *)
(** * Bytes and C strings *)
(* ====================================================================== *)

(** The bytes of a string literal, without a terminator. *)
Definition bytes (s : string) : list byte := list_byte_of_string s.

(** Conversion of an integer to [char]: the low eight bits. *)
Definition byte_of_Z (z : Z) : byte :=
  match Byte.of_N (Z.to_N (z mod 256)) with
  | Some b => b
  | None => x00
  end.

(** [(unsigned char)c] as an integer. *)
Definition Z_of_byte (b : byte) : Z := Z.of_N (Byte.to_N b).

(** The double quote character. *)
Definition QUOTE : byte := x22.

Definition ptr : Type := option (list byte).

(** [p + n] on pointers. *)
Definition ptr_add (p : ptr) (n : nat) : ptr := drop n <$> p.

(** [p[i]]. *)
Definition load (p : ptr) (i : nat) : option byte := p ≫= (.!! i).

(** The [length] bytes at [p]; reading no byte at all cannot go wrong. *)
Definition load_bytes (p : ptr) (length : nat) : option (list byte) :=
  match length, p with
  | O, _ => Some []
  | _, None => None
  | _, Some l => if (length <=? List.length l)%nat then Some (take length l) else None
  end.

(** [strlen] on a buffer: the index of the first NUL, if there is one. *)
Fixpoint strlen_buf (l : list byte) : option nat :=
  match l with
  | [] => None
  | c :: l' => if Byte.eqb c x00 then Some O else S <$> strlen_buf l'
  end.

Definition strlen (p : ptr) : option nat := p ≫= strlen_buf.

(** A C string literal: its bytes followed by the terminator. *)
Definition cstr (s : string) : ptr := Some (bytes s ++ [x00]).

(* ====================================================================== *)
(** * Machine integers *)
(* ====================================================================== *)

Definition UINT64_MOD : Z := 2 ^ 64.
Definition INT64_MIN : Z := - 2 ^ 63.
Definition INT64_MAX : Z := 2 ^ 63 - 1.

Definition in_uint64 (z : Z) : bool := (0 <=? z) && (z <? UINT64_MOD).
Definition in_int64 (z : Z) : bool := (INT64_MIN <=? z) && (z <=? INT64_MAX).

(** Conversion to [uint64_t]. *)
Definition to_uint64 (z : Z) : Z := z mod UINT64_MOD.

(** The value a two's complement machine leaves in an [int64_t]. *)
Definition wrap_int64 (z : Z) : Z := (z - INT64_MIN) mod UINT64_MOD + INT64_MIN.

(** [-value] on [int64_t], as the machine computes it. *)
Definition neg_int64 (value : Z) : Z := wrap_int64 (- value).

(** Whether [-value] on [int64_t] overflows: whether the exact result is
    outside the type. *)
Definition neg_int64_overflows (value : Z) : bool := negb (in_int64 (- value)).

(* ====================================================================== *)
(** * Number formatters *)
(* ====================================================================== *)

(** [d + '0'] as a [char]. *)
Definition digit_char (d : Z) : byte := byte_of_Z (d + 48).

Definition MAX_UINT64_DIGITS : nat := 20.

(** The digit loop of [uint64_to_string].  [buff] holds what has been
    written at [buff[index+1 .. MAX_UINT64_DIGITS-1]]; the loop writes
    [buff[index]] and goes on with [index - 1].  Going below index 0 would
    write in front of the array. *)
Fixpoint uint64_to_string_loop (index : nat) (value : Z) (buff : list byte)
  : option (list byte) :=
  let buff := digit_char (value mod 10) :: buff in
  let value := value / 10 in
  if value =? 0 then Some buff
  else match index with
       | O => None
       | S index => uint64_to_string_loop index value buff
       end.

(** [uint64_to_string]: the text written to [dst], without its NUL. *)
Definition uint64_to_string (value : Z) : option (list byte) :=
  if value =? 0 then Some (bytes "0")
  else uint64_to_string_loop (MAX_UINT64_DIGITS - 1) value [].

(** [int64_to_string]: the text written to [dst], without its NUL.  The
    negation is the signed one of the source, wrapped as the machine does;
    [int64_to_string_overflows] tells when it overflows. *)
Definition int64_to_string (value : Z) : option (list byte) :=
  if value <? 0
  then cons "-"%byte <$> uint64_to_string (to_uint64 (neg_int64 value))
  else uint64_to_string (to_uint64 value).

Definition int64_to_string_overflows (value : Z) : bool :=
  (value <? 0) && neg_int64_overflows value.

(* ---------------------------------------------------------------------- *)
(** ** Doubles *)

Definition double : Type := spec_float.

Definition prec : Z := 53.
Definition emax : Z := 1024.

(** Conversion of an integer to [double], to nearest even. *)
Definition double_of_Z (z : Z) : double := binary_normalize prec emax z 0 false.

Definition double_zero : double := S754_zero false.
Definition double_one : double := Eval vm_compute in double_of_Z 1.
Definition double_ten : double := Eval vm_compute in double_of_Z 10.
Definition double_half : double :=
  Eval vm_compute in binary_normalize prec emax 1 (-1) false.

(** The literal [9.99999999999999822364316059975]: the double just below
    [10.0]. *)
Definition just_below_ten : double := S754_finite false 5629499534213119 (-49).

Definition isnan (x : double) : bool :=
  match x with S754_nan => true | _ => false end.

Definition isinf (x : double) : bool :=
  match x with S754_infinity _ => true | _ => false end.

(** Conversion of a [double] to an integer type: the fraction is dropped;
    there is no result when the value does not fit the type. *)
Definition double_trunc (x : double) : option Z :=
  match x with
  | S754_zero _ => Some 0
  | S754_finite s m e => Some (cond_Zopp s (Z.shiftl (Z.pos m) e))
  | S754_infinity _ | S754_nan => None
  end.

Definition in_int (z : Z) : bool := (- 2 ^ 31 <=? z) && (z <? 2 ^ 31).

Definition double_to_int (x : double) : option Z :=
  z ← double_trunc x; if in_int z then Some z else None.

Definition double_to_uint64 (x : double) : option Z :=
  z ← double_trunc x; if in_uint64 z then Some z else None.

(** The value a two's complement machine leaves in an [int]. *)
Definition wrap_int (z : Z) : Z := (z + 2 ^ 31) mod 2 ^ 32 - 2 ^ 31.

(** The two functions of [<math.h>] the formatter calls. *)
Class Libm : Type := {
  log10 : double -> double;
  pow : double -> double -> double
}.

(** The loop that extracts the fractional digits: [n] digits are taken off
    the low end of [digits] and stored in front of [frac]. *)
Fixpoint fractional_digits (n : nat) (digits : Z) (frac : list byte)
  : list byte * Z :=
  match n with
  | O => (frac, digits)
  | S n => fractional_digits n (digits / 10) (digit_char (digits mod 10) :: frac)
  end.

(** The loop that strips trailing zeroes: the offset at which the exponent
    goes, searching downwards from [i]. *)
Fixpoint strip_zeroes (i : nat) (dst : list byte) (e_offset : nat) : nat :=
  match i with
  | O => e_offset
  | S i' =>
      let c := default x00 (dst !! i) in
      if negb (Byte.eqb c "0"%byte)
      then (if Byte.eqb c "."%byte then i else S i)
      else strip_zeroes i' dst e_offset
  end.

Definition positive_double_to_string `{Libm} (value : double) (max_sig_digits : Z)
  : option (list byte) :=
  if SFeqb value double_zero then Some (bytes "0")
  else if isnan value then Some (bytes "nan")
  else if isinf value then Some (bytes "inf")
  else
    exponent ← double_to_int (log10 value);
    let exponent := if SFltb value double_one then wrap_int (exponent - 1) else exponent in
    let normalized := SFdiv prec emax value (pow double_ten (double_of_Z exponent)) in
    let '(exponent, normalized) :=
      if SFltb just_below_ten normalized
      then let exponent := wrap_int (exponent + 1) in
           (exponent, SFdiv prec emax value (pow double_ten (double_of_Z exponent)))
      else (exponent, normalized) in
    let digits_and_remainder :=
      SFmul prec emax normalized (pow double_ten (double_of_Z (max_sig_digits - 1))) in
    digits ← double_to_uint64 digits_and_remainder;
    '(exponent, digits) ←
      (if SFleb double_half
            (SFsub prec emax digits_and_remainder (double_of_Z digits))
       then let digits := to_uint64 (digits + 1) in
            limit ← double_to_uint64 (pow double_ten (double_of_Z max_sig_digits));
            if limit <=? digits
            then Some (wrap_int (exponent + 1), digits / 10)
            else Some (exponent, digits)
       else Some (exponent, digits));
    let '(frac, digits) :=
      fractional_digits (Z.to_nat (max_sig_digits - 1)) digits [] in
    let dst := byte_of_Z (digits + 48) :: "."%byte :: frac in
    let e_offset :=
      strip_zeroes (Z.to_nat max_sig_digits) dst (Z.to_nat max_sig_digits) in
    let mantissa := take e_offset dst in
    if negb (exponent =? 0)
    then text ← int64_to_string exponent;
         Some (mantissa ++ "e"%byte :: (if 0 <=? exponent then ["+"%byte] else []) ++ text)
    else Some mantissa.

Definition double_to_string `{Libm} (value : double) (max_sig_digits : Z)
  : option (list byte) :=
  if SFltb value double_zero
  then cons "-"%byte <$> positive_double_to_string (SFopp value) max_sig_digits
  else positive_double_to_string value max_sig_digits.

Definition MAX_SIGNIFICANT_DIGITS : Z := 7.

(* ====================================================================== *)
(** * The encoding context *)
(* ====================================================================== *)

(** Modelled from the spec: the status codes of [BSG_KSJSONCodec.h], which
    is not among the sources: OK, invalid-character, cannot-add-data,
    incomplete and invalid-data. *)
Inductive status : Set :=
| BSG_KSJSON_OK
| BSG_KSJSON_ERROR_INVALID_CHARACTER
| BSG_KSJSON_ERROR_CANNOT_ADD_DATA
| BSG_KSJSON_ERROR_INCOMPLETE
| BSG_KSJSON_ERROR_INVALID_DATA.

Definition bsg_ksjsonstringForError (error : status) : string :=
  match error with
  | BSG_KSJSON_ERROR_INVALID_CHARACTER => "Invalid character"
  | BSG_KSJSON_ERROR_CANNOT_ADD_DATA => "Cannot add data"
  | BSG_KSJSON_ERROR_INCOMPLETE => "Incomplete data"
  | BSG_KSJSON_ERROR_INVALID_DATA => "Invalid data"
  | _ => "(unknown error)"
  end.

(** The two constants of [BSG_KSJSONCodec.h] the encoder depends on: the
    number of entries of the [isObject] array of the context, and the
    length that asks [bsg_ksjsonaddStringElement] to measure the string.
    The header is not among the sources, so both are parameters. *)
Class Header : Type := {
  isObject_size : nat;
  BSG_KSJSON_SIZE_AUTOMATIC : N
}.

Section Encoder.

Context {U : Type}.

(** [BSG_KSJSONEncodeContext].  The handler [addJSONDataFunc] receives the
    bytes [data[0 .. length-1]] and the user data, and returns its status
    and the user data as it leaves them.  [sent] is not a field of the C
    structure: it records, oldest first, every run of bytes that was
    handed to the handler. *)
Record BSG_KSJSONEncodeContext : Type := mkContext {
  addJSONDataFunc : list byte -> U -> status * U;
  userData : U;
  prettyPrint : bool;
  isObject : list bool;
  containerLevel : Z;
  containerFirstEntry : bool;
  sent : list (list byte)
}.

Definition set_containerFirstEntry (b : bool) (context : BSG_KSJSONEncodeContext) :=
  mkContext (addJSONDataFunc context) (userData context) (prettyPrint context)
            (isObject context) (containerLevel context) b (sent context).

Definition set_containerLevel (level : Z) (context : BSG_KSJSONEncodeContext) :=
  mkContext (addJSONDataFunc context) (userData context) (prettyPrint context)
            (isObject context) level (containerFirstEntry context) (sent context).

Definition set_isObject (a : list bool) (context : BSG_KSJSONEncodeContext) :=
  mkContext (addJSONDataFunc context) (userData context) (prettyPrint context)
            a (containerLevel context) (containerFirstEntry context) (sent context).

(** [context->isObject[i]]. *)
Definition isObject_at (context : BSG_KSJSONEncodeContext) (i : Z) : option bool :=
  if i <? 0 then None else isObject context !! Z.to_nat i.

(** [context->isObject[i] = b]. *)
Definition isObject_store (i : Z) (b : bool) (context : BSG_KSJSONEncodeContext)
  : option BSG_KSJSONEncodeContext :=
  if (0 <=? i) && (Z.to_nat i <? List.length (isObject context))%nat
  then Some (set_isObject (<[Z.to_nat i := b]> (isObject context)) context)
  else None.

(** Every byte handed to the handler so far. *)
Definition output (context : BSG_KSJSONEncodeContext) : list byte :=
  concat (sent context).

(** An encoder operation: it may change the context, and returns a value
    unless its behaviour is undefined. *)
Definition M (A : Type) : Type :=
  BSG_KSJSONEncodeContext -> option (A * BSG_KSJSONEncodeContext).

Definition ret {A : Type} (a : A) : M A := fun context => Some (a, context).

(** [result = m; if (result != BSG_KSJSON_OK) return result; k]. *)
Definition and_then (m k : M status) : M status := fun context =>
  match m context with
  | Some (BSG_KSJSON_OK, context') => k context'
  | other => other
  end.

Notation "m ;;; k" := (and_then m k) (at level 100, right associativity).

(** The macro [addJSONData(CONTEXT, DATA, LENGTH)], on the bytes
    [DATA[0 .. LENGTH-1]]. *)
Definition addJSONData (data : list byte) : M status := fun context =>
  let '(result, userData') := addJSONDataFunc context data (userData context) in
  Some (result,
        mkContext (addJSONDataFunc context) userData' (prettyPrint context)
                  (isObject context) (containerLevel context)
                  (containerFirstEntry context) (sent context ++ [data])).

(** [addJSONData(context, data, length)] for a pointer [data]. *)
Definition addJSONData_at (data : ptr) (length : nat) : M status := fun context =>
  match load_bytes data length with
  | Some l => addJSONData l context
  | None => None
  end.

(* ====================================================================== *)
(** * String escaper *)
(* ====================================================================== *)

Definition BSG_KSJSONCODEC_WorkBufferSize : nat := 512.

Definition bsg_g_hexNybbles : list byte := bytes "0123456789ABCDEF".

(** [*dst++ = c] for each [c] of [cs] in turn, where [dst] is what
    [workBuffer] holds in front of the write position.  A write at or after
    [workBuffer + BSG_KSJSONCODEC_WorkBufferSize] is outside the array. *)
Fixpoint store (dst : list byte) (cs : list byte) : option (list byte) :=
  match cs with
  | [] => Some dst
  | c :: cs =>
      if (List.length dst <? BSG_KSJSONCODEC_WorkBufferSize)%nat
      then store (dst ++ [c]) cs
      else None
  end.

(** The condition of the first loop of the escaper on [*src]. *)
Definition is_simple (c : byte) : bool :=
  negb (Byte.eqb c "\"%byte) && negb (Byte.eqb c QUOTE) && (32 <=? Z_of_byte c).

(** The [switch] of the escaper: the bytes it writes for [*src]. *)
Definition switch_src (c : byte) : option (list byte) :=
  match c with
  | x5c | x22 => Some ["\"%byte; c]
  | x08 => Some ["\"%byte; "b"%byte]
  | x0c => Some ["\"%byte; "f"%byte]
  | x0a => Some ["\"%byte; "n"%byte]
  | x0d => Some ["\"%byte; "r"%byte]
  | x09 => Some ["\"%byte; "t"%byte]
  | _ =>
      if Z_of_byte c <? 32
      then let last := Z_of_byte c mod 16 in
           let first := (Z_of_byte c - last) / 16 in
           hi ← bsg_g_hexNybbles !! Z.to_nat first;
           lo ← bsg_g_hexNybbles !! Z.to_nat last;
           Some ["\"%byte; "u"%byte; "0"%byte; "0"%byte; hi; lo]
      else Some [c]
  end.

(** The first loop: [remaining] is [srcEnd - src]. *)
Fixpoint simple_case (remaining : nat) (string : ptr) (src : nat) (dst : list byte)
  : option (nat * list byte) :=
  match remaining with
  | O => Some (src, dst)
  | S remaining =>
      c ← load string src;
      if is_simple c
      then dst ← store dst [c]; simple_case remaining string (S src) dst
      else Some (src, dst)
  end.

(** The second loop, with the final hand-over of the buffer. *)
Fixpoint complicated_case (remaining : nat) (string : ptr) (src : nat)
    (dst : list byte) : M status :=
  match remaining with
  | O => addJSONData dst
  | S remaining =>
      let next (dst : list byte) : M status := fun context =>
        c ← load string src;
        cs ← switch_src c;
        dst ← store dst cs;
        complicated_case remaining string (S src) dst context in
      if (BSG_KSJSONCODEC_WorkBufferSize <? List.length dst + 6)%nat
      then addJSONData dst ;;; next []
      else next dst
  end.

Definition bsg_ksjsoncodec_i_appendEscapedString (string : ptr) (length : nat)
  : M status := fun context =>
  '(src, dst) ← simple_case length string 0%nat [];
  complicated_case (length - src) string src dst context.

(** [toAdd] in [bsg_ksjsoncodec_i_addEscapedString]. *)
Definition toAdd (length offset : nat) : nat :=
  if (BSG_KSJSONCODEC_WorkBufferSize <? length - offset)%nat
  then BSG_KSJSONCODEC_WorkBufferSize
  else (length - offset)%nat.

Equations? addEscapedString_loop (string : ptr) (len offset : nat)
    (result : status) (context : BSG_KSJSONEncodeContext)
  : option (status * BSG_KSJSONEncodeContext) by wf (len - offset)%nat lt :=
  addEscapedString_loop string len offset result context
    with decide (offset < len)%nat := {
    | left _
        with bsg_ksjsoncodec_i_appendEscapedString
               (ptr_add string offset) (toAdd len offset) context := {
        | Some (BSG_KSJSON_OK, context') =>
            addEscapedString_loop string len (offset + toAdd len offset)
                                  BSG_KSJSON_OK context'
        | Some (result', context') => Some (result', context')
        | None => None }
    | right _ => Some (result, context) }.
Proof.
  unfold toAdd, BSG_KSJSONCODEC_WorkBufferSize.
  destruct (512 <? len - offset)%nat eqn:E; [apply Nat.ltb_lt in E|]; lia.
Qed.

Definition bsg_ksjsoncodec_i_addEscapedString (string : ptr) (length : nat)
  : M status :=
  addEscapedString_loop string length 0%nat BSG_KSJSON_OK.

Definition bsg_ksjsoncodec_i_addQuotedEscapedString (string : ptr) (length : nat)
  : M status :=
  addJSONData [QUOTE] ;;;
  bsg_ksjsoncodec_i_addEscapedString string length ;;;
  addJSONData [QUOTE].

(* ====================================================================== *)
(** * Encoder state machine *)
(* ====================================================================== *)

(** The loop [for (int i = 0; i < context->containerLevel; i++)] that
    writes the indentation; [n] is the number of rounds left. *)
Fixpoint indent (n : nat) : M status :=
  match n with
  | O => ret BSG_KSJSON_OK
  | S n => addJSONData (bytes "    ") ;;; indent n
  end.

(** [bsg_ksjsonbeginElement], first part: decide if a comma is
    warranted. *)
Definition beginElement_comma : M status := fun context =>
  if containerFirstEntry context
  then Some (BSG_KSJSON_OK, set_containerFirstEntry false context)
  else addJSONData (bytes ",") context.

(** Second part: pretty printing. *)
Definition beginElement_pretty : M status := fun context =>
  if prettyPrint context && (0 <? containerLevel context)
  then (addJSONData [x0a] ;;; indent (Z.to_nat (containerLevel context))) context
  else Some (BSG_KSJSON_OK, context).

(** Third part: add a name field if we are in an object. *)
Definition beginElement_name (name : ptr) : M status := fun context =>
  b ← isObject_at context (containerLevel context);
  if b : bool
  then match name with
       | None => Some (BSG_KSJSON_ERROR_INVALID_DATA, context)
       | Some _ =>
           n ← strlen name;
           (bsg_ksjsoncodec_i_addQuotedEscapedString name n ;;;
            if prettyPrint context
            then addJSONData (bytes ": ")
            else addJSONData (bytes ":")) context
       end
  else Some (BSG_KSJSON_OK, context).

Definition bsg_ksjsonbeginElement (name : ptr) : M status :=
  beginElement_comma ;;; beginElement_pretty ;;; beginElement_name name.


Definition bsg_ksjsonaddBooleanElement (name : ptr) (value : bool) : M status :=
  bsg_ksjsonbeginElement name ;;;
  if value then addJSONData (bytes "true") else addJSONData (bytes "false").

(** [addJSONData(context, buff, strlen(buff))] for the text a formatter
    left in [buff], NUL terminated. *)
Definition addJSONData_buff (text : option (list byte)) : M status := fun context =>
  buff ← text;
  n ← strlen_buf (buff ++ [x00]);
  addJSONData (take n buff) context.

Definition bsg_ksjsonaddFloatingPointElement `{Libm} (name : ptr) (value : double)
  : M status :=
  bsg_ksjsonbeginElement name ;;;
  addJSONData_buff (double_to_string value MAX_SIGNIFICANT_DIGITS).

(** [value] is a [long long]. *)
Definition bsg_ksjsonaddIntegerElement (name : ptr) (value : Z) : M status :=
  bsg_ksjsonbeginElement name ;;;
  addJSONData_buff (int64_to_string value).

(** [value] is an [unsigned long long]. *)
Definition bsg_ksjsonaddUIntegerElement (name : ptr) (value : Z) : M status :=
  bsg_ksjsonbeginElement name ;;;
  addJSONData_buff (uint64_to_string value).

Definition bsg_ksjsonaddNullElement (name : ptr) : M status :=
  bsg_ksjsonbeginElement name ;;;
  addJSONData (bytes "null").

(** The characters [bsg_ksjsonaddJSONElement] skips in front of the
    element. *)
Definition is_skipped (c : byte) : bool :=
  match c with
  | x20 | x0d | x0a | x09 | x0c => true
  | _ => false
  end.

(** The loop that skips them; [remaining] is [length - idx].  The result
    is [idx] after the loop. *)
Fixpoint skip_loop (remaining : nat) (element : ptr) (idx : nat) : option nat :=
  match remaining with
  | O => Some idx
  | S remaining =>
      c ← load element idx;
      if is_skipped c then skip_loop remaining element (S idx) else Some idx
  end.

(** The cases of the [switch] of [bsg_ksjsonaddJSONElement] that [break]. *)
Definition is_element_start (c : byte) : bool :=
  match c with
  | x5b | x7b | x22 | x66 | x74 | x6e | x2d
  | x30 | x31 | x32 | x33 | x34 | x35 | x36 | x37 | x38 | x39 => true
  | _ => false
  end.

Definition bsg_ksjsonaddJSONElement (name : ptr) (element : ptr) (length : nat)
  : M status :=
  match element with
  | None => bsg_ksjsonaddNullElement name
  | Some _ => fun context =>
      idx ← skip_loop length element 0%nat;
      if (length <=? idx)%nat
      then Some (BSG_KSJSON_ERROR_INVALID_DATA, context)
      else
        c ← load element idx;
        if is_element_start c
        then (bsg_ksjsonbeginElement name ;;; addJSONData_at element length) context
        else Some (BSG_KSJSON_ERROR_INVALID_DATA, context)
  end.

(** [length] is a [size_t], kept as a binary number: the automatic length
    is a large one. *)
Definition bsg_ksjsonaddStringElement `{Header} (name : ptr) (value : ptr)
    (length : N) : M status :=
  match value with
  | None => bsg_ksjsonaddNullElement name
  | Some _ =>
      bsg_ksjsonbeginElement name ;;;
      fun context =>
        length ← (if (length =? BSG_KSJSON_SIZE_AUTOMATIC)%N
                  then strlen value else Some (N.to_nat length));
        bsg_ksjsoncodec_i_addQuotedEscapedString value length context
  end.

Definition bsg_ksjsonbeginStringElement (name : ptr) : M status :=
  bsg_ksjsonbeginElement name ;;; addJSONData [QUOTE].

Definition bsg_ksjsonappendStringElement (value : ptr) (length : nat) : M status :=
  bsg_ksjsoncodec_i_addEscapedString value length.

Definition bsg_ksjsonendStringElement : M status := addJSONData [QUOTE].

Definition bsg_ksjsonbeginDataElement (name : ptr) : M status :=
  bsg_ksjsonbeginStringElement name.

(** The loop of [bsg_ksjsonappendDataElement]; [remaining] is
    [end - currentByte] and [i] is [currentByte - value]. *)
Fixpoint appendDataElement_loop (remaining : nat) (value : ptr) (i : nat)
    (result : status) : M status :=
  match remaining with
  | O => ret result
  | S remaining => fun context =>
      c ← load value i;
      hi ← bsg_g_hexNybbles !! Z.to_nat (Z.land (Z.shiftr (Z_of_byte c) 4) 15);
      lo ← bsg_g_hexNybbles !! Z.to_nat (Z.land (Z_of_byte c) 15);
      (addJSONData [hi; lo] ;;;
       appendDataElement_loop remaining value (S i) BSG_KSJSON_OK) context
  end.

Definition bsg_ksjsonappendDataElement (value : ptr) (length : nat) : M status :=
  appendDataElement_loop length value 0%nat BSG_KSJSON_OK.

Definition bsg_ksjsonendDataElement : M status := bsg_ksjsonendStringElement.

Definition bsg_ksjsonaddDataElement (name : ptr) (value : ptr) (length : nat)
  : M status :=
  bsg_ksjsonbeginDataElement name ;;;
  bsg_ksjsonappendDataElement value length ;;;
  bsg_ksjsonendDataElement.

Definition bsg_ksjsonbeginArray (name : ptr) : M status :=
  (fun context =>
     if 0 <=? containerLevel context
     then bsg_ksjsonbeginElement name context
     else Some (BSG_KSJSON_OK, context)) ;;;
  (fun context =>
     let context := set_containerLevel (containerLevel context + 1) context in
     context ← isObject_store (containerLevel context) false context;
     addJSONData (bytes "[") (set_containerFirstEntry true context)).

Definition bsg_ksjsonbeginObject (name : ptr) : M status :=
  (fun context =>
     if 0 <=? containerLevel context
     then bsg_ksjsonbeginElement name context
     else Some (BSG_KSJSON_OK, context)) ;;;
  (fun context =>
     let context := set_containerLevel (containerLevel context + 1) context in
     context ← isObject_store (containerLevel context) true context;
     addJSONData (bytes "{") (set_containerFirstEntry true context)).

(** [bsg_ksjsonendContainer], the part on pretty printing. *)
Definition endContainer_pretty : M status := fun context =>
  if prettyPrint context && negb (containerFirstEntry context)
  then (addJSONData [x0a] ;;; indent (Z.to_nat (containerLevel context))) context
  else Some (BSG_KSJSON_OK, context).

Definition bsg_ksjsonendContainer : M status := fun context =>
  if containerLevel context <=? 0 then Some (BSG_KSJSON_OK, context)
  else
    object ← isObject_at context (containerLevel context);
    let context := set_containerLevel (containerLevel context - 1) context in
    (endContainer_pretty ;;;
     (fun context =>
        addJSONData (if object : bool then bytes "}" else bytes "]")
                    (set_containerFirstEntry false context))) context.

(** [memset] leaves every field zero; the four assignments follow. *)
Definition bsg_ksjsonbeginEncode `{Header} (prettyPrint : bool)
    (addJSONDataFunc : list byte -> U -> status * U) (userData : U)
  : BSG_KSJSONEncodeContext :=
  mkContext addJSONDataFunc userData prettyPrint
            (replicate isObject_size false) 0 true [].

Equations? endEncode_loop (result : status) (context : BSG_KSJSONEncodeContext)
  : option (status * BSG_KSJSONEncodeContext)
  by wf (Z.to_nat (containerLevel context)) lt :=
  endEncode_loop result context with decide (0 < containerLevel context) := {
    | left _ with Logic.inspect (bsg_ksjsonendContainer context) := {
        | exist _ (Some (BSG_KSJSON_OK, context')) _ =>
            endEncode_loop BSG_KSJSON_OK context'
        | exist _ (Some (result', context')) _ => Some (result', context')
        | exist _ None _ => None }
    | right _ => Some (result, context) }.
Proof.
  assert (Hadd : forall data c r c',
             addJSONData data c = Some (r, c') ->
             containerLevel c' = containerLevel c).
  { intros data c r c'. unfold addJSONData.
    destruct (addJSONDataFunc c data (userData c)). intros [= <- <-]. reflexivity. }
  assert (Hind : forall n c r c',
             indent n c = Some (r, c') -> containerLevel c' = containerLevel c).
  { induction n as [|n IH]; simpl; intros c r c'.
    - intros [= <- <-]. reflexivity.
    - unfold and_then.
      destruct (addJSONData (bytes "    ") c) as [[r1 c1]|] eqn:E1;
        [|intros H; discriminate H].
      apply Hadd in E1. destruct r1; try (intros [= <- <-]; exact E1).
      intros H. apply IH in H. congruence. }
  assert (Hpretty : forall c r c',
             endContainer_pretty c = Some (r, c') ->
             containerLevel c' = containerLevel c).
  { intros c r c'. unfold endContainer_pretty, and_then.
    destruct (prettyPrint c && negb (containerFirstEntry c)).
    - destruct (addJSONData [x0a] c) as [[r1 c1]|] eqn:E1;
        [|intros H; discriminate H].
      apply Hadd in E1. destruct r1; try (intros [= <- <-]; exact E1).
      intros H. apply Hind in H. congruence.
    - intros [= <- <-]. reflexivity. }
  unfold bsg_ksjsonendContainer in e.
  destruct (containerLevel context <=? 0) eqn:E0; [apply Z.leb_le in E0; lia|].
  destruct (isObject_at context (containerLevel context)) as [object|];
    cbn [mbind option_bind] in e; [|discriminate e].
  unfold and_then in e.
  destruct (endContainer_pretty
              (set_containerLevel (containerLevel context - 1) context))
    as [[r1 c1]|] eqn:E1; [|discriminate e].
  apply Hpretty in E1. cbn [containerLevel set_containerLevel] in E1.
  destruct r1; try discriminate e.
  apply Hadd in e. cbn [containerLevel set_containerFirstEntry] in e. lia.
Qed.

Definition bsg_ksjsonendEncode : M status := endEncode_loop BSG_KSJSON_OK.

End Encoder.

Notation "m ;;; k" := (and_then m k) (at level 100, right associativity).

Arguments BSG_KSJSONEncodeContext : clear implicits.
Arguments M : clear implicits.

(* ====================================================================== *)
(** * Callers, handlers and traces *)
(* ====================================================================== *)

(** A caller that makes the calls [ops] one after the other and collects
    the values they return. *)
Fixpoint calls {U : Type} (ops : list (M U status)) : M U (list status) :=
  fun context =>
    match ops with
    | [] => Some ([], context)
    | op :: ops =>
        '(result, context) ← op context;
        '(results, context) ← calls ops context;
        Some (result :: results, context)
    end.

(** A handler that accepts everything and keeps nothing. *)
Definition accept_all (data : list byte) (u : unit) : status * unit :=
  (BSG_KSJSON_OK, u).

(** A handler that accepts [u] more calls, and then refuses. *)
Definition accept_some (data : list byte) (u : nat) : status * nat :=
  match u with
  | O => (BSG_KSJSON_ERROR_CANNOT_ADD_DATA, O)
  | S u => (BSG_KSJSON_OK, u)
  end.

(** The header with an [isObject] array of 200 entries and the automatic
    length [(size_t)~0] on a 64-bit machine. *)
Definition header200 : Header :=
  {| isObject_size := 200; BSG_KSJSON_SIZE_AUTOMATIC := 18446744073709551615 |}.

(** A library for the examples on the special values of [double], none of
    which reaches [<math.h>]. *)
Definition libm_unused : Libm :=
  {| log10 := fun x => x; pow := fun x _ => x |}.

(** The handler of [context] accepts whatever it is given. *)
Definition accepting {U : Type} (context : BSG_KSJSONEncodeContext U) : Prop :=
  forall data u, (addJSONDataFunc context data u).1 = BSG_KSJSON_OK.

(** [context'] is [context] after the handler was handed the runs [l]:
    no field of the structure but the user data differs. *)
Definition handed {U : Type} (context context' : BSG_KSJSONEncodeContext U)
    (l : list (list byte)) : Prop :=
  addJSONDataFunc context' = addJSONDataFunc context /\
  prettyPrint context' = prettyPrint context /\
  isObject context' = isObject context /\
  containerLevel context' = containerLevel context /\
  containerFirstEntry context' = containerFirstEntry context /\
  sent context' = sent context ++ l.

(** [p] points at [length] readable bytes, [l]. *)
Definition readable (p : ptr) (length : nat) (l : list byte) : Prop :=
  exists buf, p = Some buf /\ (length <= List.length buf)%nat /\ l = take length buf.

(** [p] points at a C string of content [l]. *)
Definition c_string (p : ptr) (l : list byte) : Prop :=
  exists rest, p = Some (l ++ x00 :: rest) /\ Forall (fun c => c <> x00) l.

(* ====================================================================== *)
(** * What the claims speak of *)
(* ====================================================================== *)

(** The text of a decimal integer, read back: an optional minus sign and
    at least one digit. *)
Definition digit_value (c : byte) : option Z :=
  let v := Z_of_byte c in
  if (48 <=? v) && (v <=? 57) then Some (v - 48) else None.

Fixpoint parse_digits (acc : Z) (l : list byte) : option Z :=
  match l with
  | [] => Some acc
  | c :: l => d ← digit_value c; parse_digits (10 * acc + d) l
  end.

Definition parse_decimal (l : list byte) : option Z :=
  match l with
  | [] => None
  | x2d :: [] => None
  | x2d :: l => Z.opp <$> parse_digits 0 l
  | _ => parse_digits 0 l
  end.

(** A decimal text is minimal when it has no superfluous zero in front:
    it is the single digit [0], or its first digit is not [0]. *)
Definition minimal_digits (l : list byte) : Prop :=
  l = bytes "0" \/ exists d l', l = d :: l' /\ d <> "0"%byte.

(** An upper case hexadecimal digit. *)
Definition hex_upper (n : Z) : byte :=
  if n <? 10 then byte_of_Z (48 + n) else byte_of_Z (65 + (n - 10)).

(** The escape of one byte, as JSON has it. *)
Definition json_escape (c : byte) : list byte :=
  if Byte.eqb c "\"%byte || Byte.eqb c QUOTE then ["\"%byte; c]
  else if Byte.eqb c x08 then bytes "\b"
  else if Byte.eqb c x0c then bytes "\f"
  else if Byte.eqb c x0a then bytes "\n"
  else if Byte.eqb c x0d then bytes "\r"
  else if Byte.eqb c x09 then bytes "\t"
  else if Z_of_byte c <? 32
       then bytes "\u00" ++ [hex_upper (Z_of_byte c / 16); hex_upper (Z_of_byte c mod 16)]
       else [c].

Definition json_escape_string (l : list byte) : list byte :=
  flat_map json_escape l.

(** The first character of a payload that is not white space, where white
    space is what [bsg_ksjsonaddJSONElement] skips: space, carriage
    return, line feed, tab and form feed. *)
Fixpoint first_non_whitespace (payload : list byte) : option byte :=
  match payload with
  | [] => None
  | c :: payload => if is_skipped c then first_non_whitespace payload else Some c
  end.

(** An opening bracket, an opening brace, a double quote, one of the
    letters f, t and n, a minus sign or a digit. *)
Definition token_start (c : byte) : bool :=
  existsb (Byte.eqb c) [x5b; x7b; QUOTE; "f"%byte; "t"%byte; "n"%byte; "-"%byte]
  || ((48 <=? Z_of_byte c) && (Z_of_byte c <=? 57)).

(** The bracket that closes a container. *)
Definition closing_bracket (object : bool) : list byte :=
  if object then bytes "}" else bytes "]".

Definition is_bracket (chunk : list byte) : bool :=
  match chunk with
  | [x7d] | [x5d] => true
  | _ => false
  end.

(** The brackets that close the containers at levels [d], [d-1], ..., [1],
    innermost first. *)
Definition closing_brackets (flags : list bool) (d : nat) : list (list byte) :=
  closing_bracket <$> reverse (take d (drop 1 flags)).

(** [d] calls of [bsg_ksjsonendContainer], stopping at the first that does
    not return OK, whose status is returned. *)
Fixpoint close_containers {U : Type} (d : nat) : M U status :=
  match d with
  | O => ret BSG_KSJSON_OK
  | S d => bsg_ksjsonendContainer ;;; close_containers d
  end.

(** The indentation of pretty printing at [level]. *)
Definition indentation (level : Z) : list byte :=
  x0a :: concat (replicate (Z.to_nat level) (bytes "    ")).

(** A run of bytes that fits the work buffer. *)
Definition fits (chunk : list byte) : Prop :=
  (List.length chunk <= BSG_KSJSONCODEC_WorkBufferSize)%nat.

(** What [bsg_ksjsonbeginElement] writes in front of an element: a comma
    unless the element is the first of its container; in pretty mode and
    inside a container, a new line and the indentation; in an object, the
    quoted name and a colon. *)
Definition element_prefix {U : Type} (context : BSG_KSJSONEncodeContext U)
    (object : bool) (name : list byte) : list byte :=
  (if containerFirstEntry context then [] else bytes ",") ++
  (if prettyPrint context && (0 <? containerLevel context)
   then indentation (containerLevel context) else []) ++
  (if object
   then QUOTE :: json_escape_string name ++
        QUOTE :: (if prettyPrint context then bytes ": " else bytes ":")
   else []).

(** The operation [m], run on [context], returns; it leaves [context0]
    after the handler was handed some runs [l]; and its status [r]
    satisfies [P r l]. *)
Definition runs {U : Type} (m : M U status) (context context0 : BSG_KSJSONEncodeContext U)
    (P : status -> list (list byte) -> Prop) : Prop :=
  exists r context' l,
    m context = Some (r, context') /\ handed context0 context' l /\ P r l.

(** The operation [m], run on [context] inside a container of kind
    [object], writes the element [value] under the name [name], of content
    [nm]: it leaves the first-entry flag false; if the flag was false the
    first run it hands over is a comma; when it returns OK it has handed
    over the prefix of the element and then [value]; and with a handler
    that accepts everything it does return OK, unless the name is missing
    in an object. *)
Definition writes_element {U : Type} (m : M U status)
    (context : BSG_KSJSONEncodeContext U) (object : bool) (name : ptr)
    (nm : list byte) (value : list byte) : Prop :=
  runs m context (set_containerFirstEntry false context)
       (fun r l =>
          (containerFirstEntry context = false -> exists l', l = bytes "," :: l') /\
          (r = BSG_KSJSON_OK ->
           concat l = element_prefix context object nm ++ value) /\
          (accepting context -> (object = true -> name <> None) ->
           r = BSG_KSJSON_OK)).

(** A name an element can be given inside a container of kind [object]:
    in an object, no name or a C string of content [nm]; anything
    elsewhere, where the name is not looked at. *)
Definition name_for (object : bool) (name : ptr) (nm : list byte) : Prop :=
  object = true -> name = None \/ c_string name nm.

(** The text of binary data: two upper case hexadecimal digits a byte. *)
Definition hex_string (l : list byte) : list byte :=
  flat_map (fun c => [hex_upper (Z_of_byte c / 16); hex_upper (Z_of_byte c mod 16)]) l.

(** The typed adders, called with a name and a value they accept, and the
    text each writes for its value. *)
Inductive typed_adder `{Header} `{Libm} {U : Type} (name : ptr)
  : M U status -> list byte -> Prop :=
| adds_boolean (value : bool) :
    typed_adder name (bsg_ksjsonaddBooleanElement name value)
                (if value then bytes "true" else bytes "false")
| adds_floating_point (value : double) (text : list byte) :
    double_to_string value MAX_SIGNIFICANT_DIGITS = Some text ->
    Forall (fun ch => ch <> x00) text ->
    typed_adder name (bsg_ksjsonaddFloatingPointElement name value) text
| adds_integer (value : Z) (text : list byte) :
    int64_to_string value = Some text ->
    typed_adder name (bsg_ksjsonaddIntegerElement name value) text
| adds_unsigned_integer (value : Z) (text : list byte) :
    uint64_to_string value = Some text ->
    typed_adder name (bsg_ksjsonaddUIntegerElement name value) text
| adds_null :
    typed_adder name (bsg_ksjsonaddNullElement name) (bytes "null")
| adds_string (value : ptr) (length : N) (input : list byte) :
    length <> BSG_KSJSON_SIZE_AUTOMATIC ->
    readable value (N.to_nat length) input ->
    typed_adder name (bsg_ksjsonaddStringElement name value length)
                (QUOTE :: json_escape_string input ++ [QUOTE])
| adds_string_automatic (value : ptr) (input : list byte) :
    c_string value input ->
    typed_adder name (bsg_ksjsonaddStringElement name value BSG_KSJSON_SIZE_AUTOMATIC)
                (QUOTE :: json_escape_string input ++ [QUOTE])
| adds_null_string (length : N) :
    typed_adder name (bsg_ksjsonaddStringElement name None length) (bytes "null")
| adds_raw_json (element : ptr) (length : nat) (payload : list byte) (ch : byte) :
    readable element length payload ->
    first_non_whitespace payload = Some ch ->
    token_start ch = true ->
    typed_adder name (bsg_ksjsonaddJSONElement name element length) payload
| adds_null_raw_json (length : nat) :
    typed_adder name (bsg_ksjsonaddJSONElement name None length) (bytes "null")
| adds_data (value : ptr) (length : nat) (input : list byte) :
    readable value length input ->
    typed_adder name (bsg_ksjsonaddDataElement name value length)
                (QUOTE :: hex_string input ++ [QUOTE]).

(** The elements written so far, as a caller counts them: [entries] has
    one number for each open container, innermost first, and a last one
    for the root; a typed adder that returns OK adds one to the first, the
    opening of a container that returns OK adds one to the first and puts a
    0 in front, and the closing of a container takes the first away.  The
    first-entry flag is true exactly when nothing was written yet in the
    innermost open container; and every container that has one open
    inside it has that one, at least, as an element. *)
Definition entries_invariant {U : Type} (context : BSG_KSJSONEncodeContext U)
    (entries : list nat) : Prop :=
  Z.of_nat (List.length entries) = containerLevel context + 1 /\
  (containerFirstEntry context = true <-> hd O entries = O) /\
  Forall (fun p => (1 <= p)%nat) (tl entries).

(** The value of a hexadecimal digit, of either case. *)
Definition hex_value (c : byte) : option Z :=
  let v := Z_of_byte c in
  if (48 <=? v) && (v <=? 57) then Some (v - 48)
  else if (65 <=? v) && (v <=? 70) then Some (v - 55)
  else if (97 <=? v) && (v <=? 102) then Some (v - 87)
  else None.

(** A reader of the body of a JSON string whose characters are bytes: a
    backslash introduces one of the two-character escapes or [\u] and
    four hexadecimal digits, of a value below 256; a double quote or a
    byte below 0x20 cannot stand for itself. *)
Fixpoint json_unescape (l : list byte) : option (list byte) :=
  match l with
  | [] => Some []
  | x5c :: x5c :: r => cons x5c <$> json_unescape r
  | x5c :: x22 :: r => cons x22 <$> json_unescape r
  | x5c :: x2f :: r => cons x2f <$> json_unescape r
  | x5c :: x62 :: r => cons x08 <$> json_unescape r
  | x5c :: x66 :: r => cons x0c <$> json_unescape r
  | x5c :: x6e :: r => cons x0a <$> json_unescape r
  | x5c :: x72 :: r => cons x0d <$> json_unescape r
  | x5c :: x74 :: r => cons x09 <$> json_unescape r
  | x5c :: x75 :: h3 :: h2 :: h1 :: h0 :: r =>
      v3 ← hex_value h3; v2 ← hex_value h2; v1 ← hex_value h1; v0 ← hex_value h0;
      if (v3 =? 0) && (v2 =? 0)
      then cons (byte_of_Z (16 * v1 + v0)) <$> json_unescape r
      else None
  | x5c :: _ => None
  | c :: r =>
      if Byte.eqb c QUOTE || (Z_of_byte c <? 32) then None
      else cons c <$> json_unescape r
  end.



(** The current level is an index of the [isObject] array. *)
Definition in_bounds {U : Type} (context : BSG_KSJSONEncodeContext U) : Prop :=
  0 <= containerLevel context /\
  (Z.to_nat (containerLevel context) < List.length (isObject context))%nat.



(** A document, as a caller holds it before it writes it with the calls
    of the encoder: a scalar, or a container with its members, each under
    a name that only an object uses. *)
Inductive scalar : Type :=
| SNull
| SBoolean (value : bool)
| SInteger (value : Z)
| SUInteger (value : Z)
| SString (value : list byte)
| SData (value : list byte).

Inductive document : Type :=
| Scalar (s : scalar)
| Container (object : bool) (ms : members)
with members : Type :=
| no_members
| member (name : list byte) (d : document) (ms : members).

Scheme document_members_ind := Induction for document Sort Prop
  with members_document_ind := Induction for members Sort Prop.

Combined Scheme document_and_members_ind
  from document_members_ind, members_document_ind.

(** The call that adds a scalar. *)
Definition add_scalar `{Header} {U : Type} (name : ptr) (s : scalar) : M U status :=
  match s with
  | SNull => bsg_ksjsonaddNullElement name
  | SBoolean value => bsg_ksjsonaddBooleanElement name value
  | SInteger value => bsg_ksjsonaddIntegerElement name value
  | SUInteger value => bsg_ksjsonaddUIntegerElement name value
  | SString value =>
      bsg_ksjsonaddStringElement name (Some value) (N.of_nat (List.length value))
  | SData value => bsg_ksjsonaddDataElement name (Some value) (List.length value)
  end.

(** The name a member is added under: a C string in an object, no name in
    an array. *)
Definition member_name (object : bool) (name : list byte) : ptr :=
  if object then Some (name ++ [x00]) else None.

(** The calls that write a document under [name]: a scalar is one call of
    its adder; a container is its opening, its members in order, and
    [bsg_ksjsonendContainer], each call made only when the one before
    returned OK. *)
Fixpoint add_document `{Header} {U : Type} (name : ptr) (d : document) : M U status :=
  match d with
  | Scalar s => add_scalar name s
  | Container object ms =>
      (if object then bsg_ksjsonbeginObject name else bsg_ksjsonbeginArray name) ;;;
      add_members object ms ;;;
      bsg_ksjsonendContainer
  end
with add_members `{Header} {U : Type} (object : bool) (ms : members) : M U status :=
  match ms with
  | no_members => ret BSG_KSJSON_OK
  | member name d ms =>
      add_document (member_name object name) d ;;; add_members object ms
  end.

(** The JSON text of a scalar. *)
Definition scalar_text (s : scalar) : list byte :=
  match s with
  | SNull => bytes "null"
  | SBoolean value => if value then bytes "true" else bytes "false"
  | SInteger value => default [] (int64_to_string value)
  | SUInteger value => default [] (uint64_to_string value)
  | SString value => QUOTE :: json_escape_string value ++ [QUOTE]
  | SData value => QUOTE :: hex_string value ++ [QUOTE]
  end.

Definition has_members (ms : members) : bool :=
  match ms with
  | no_members => false
  | member _ _ _ => true
  end.

(** The JSON text of a document that stands at [level]: the members of a
    container are separated by commas and, in an object, follow their
    quoted name and a colon; in pretty mode each member is on a line of
    its own, four spaces a level deep, the colon is followed by a space,
    and the closing bracket of a container that has members is on a line
    of its own. *)
Fixpoint render (pretty : bool) (level : Z) (d : document) : list byte :=
  match d with
  | Scalar s => scalar_text s
  | Container object ms =>
      (if object then bytes "{" else bytes "[") ++
      render_members pretty (level + 1) object true ms ++
      (if pretty && has_members ms then indentation level else []) ++
      closing_bracket object
  end
with render_members (pretty : bool) (level : Z) (object first : bool) (ms : members)
  : list byte :=
  match ms with
  | no_members => []
  | member name d ms =>
      (if first then [] else bytes ",") ++
      (if pretty then indentation level else []) ++
      (if object
       then QUOTE :: json_escape_string name ++
            QUOTE :: (if pretty then bytes ": " else bytes ":")
       else []) ++
      render pretty level d ++
      render_members pretty level object false ms
  end.

(** The containers open at once inside a document. *)
Fixpoint depth (d : document) : nat :=
  match d with
  | Scalar _ => O
  | Container _ ms => S (members_depth ms)
  end
with members_depth (ms : members) : nat :=
  match ms with
  | no_members => O
  | member _ d ms => Nat.max (depth d) (members_depth ms)
  end.

(** The scalars the adders take without leaving defined behaviour or the
    type of their argument: every [int64_t] but the least, every
    [uint64_t], a string whose length is not the one that asks for
    [strlen]. *)
Definition scalar_ok `{Header} (s : scalar) : Prop :=
  match s with
  | SInteger value => INT64_MIN < value <= INT64_MAX
  | SUInteger value => 0 <= value < UINT64_MOD
  | SString value => N.of_nat (List.length value) <> BSG_KSJSON_SIZE_AUTOMATIC
  | _ => True
  end.

(** A document whose scalars are such, and where the names of the
    members of objects are C strings. *)
Fixpoint document_ok `{Header} (d : document) : Prop :=
  match d with
  | Scalar s => scalar_ok s
  | Container object ms => members_ok object ms
  end
with members_ok `{Header} (object : bool) (ms : members) : Prop :=
  match ms with
  | no_members => True
  | member name d ms =>
      (object = true -> Forall (fun ch => ch <> x00) name) /\
      document_ok d /\ members_ok object ms
  end.

(** [context'] is [context] after [text] was handed over by calls that
    closed every container they opened: the level, the handler and the
    mode are the same, and so are the entries of [isObject] up to the
    level. *)
Definition wrote {U : Type} (context context' : BSG_KSJSONEncodeContext U)
    (text : list byte) : Prop :=
  output context' = output context ++ text /\
  addJSONDataFunc context' = addJSONDataFunc context /\
  prettyPrint context' = prettyPrint context /\
  containerLevel context' = containerLevel context /\
  List.length (isObject context') = List.length (isObject context) /\
  forall i : nat,
    (i <= Z.to_nat (containerLevel context))%nat ->
    isObject context' !! i = isObject context !! i.

(** The status [r] and the context [context'] are what a call of the
    handler left: the function returned at that call. *)
Definition refused {U : Type} (context' : BSG_KSJSONEncodeContext U) (r : status) : Prop :=
  exists data context0, addJSONData data context0 = Some (r, context').

(** The operation [m] makes up no status but OK and invalid-data: when
    it returns another, it returns from a call of the handler, with the
    status of the handler.  It keeps the handler and the mode. *)
Definition propagates {U : Type} (m : M U status) : Prop :=
  forall context r context',
    m context = Some (r, context') ->
    addJSONDataFunc context' = addJSONDataFunc context /\
    prettyPrint context' = prettyPrint context /\
    (r = BSG_KSJSON_OK \/ r = BSG_KSJSON_ERROR_INVALID_DATA \/
     refused context' r).


(** A library for the examples on finite values.  All the formatter
    keeps of [log10] is its conversion to [int], which drops the
    fraction, and it raises 10 to whole powers only: [log10] is given
    here already without its fraction, and [pow] is the nearest double
    to the power of ten. *)
Definition pow10 (n : Z) : double :=
  if 0 <=? n then double_of_Z (10 ^ n)
  else SFdiv prec emax double_one (double_of_Z (10 ^ (- n))).

(** The largest [k], searched downwards from the one given, with
    [10 ^ k <= num / den]. *)
Fixpoint floor_log10 (fuel : nat) (k : Z) (num den : Z) : Z :=
  match fuel with
  | O => k
  | S fuel =>
      if (if 0 <=? k then 10 ^ k * den <=? num else den <=? num * 10 ^ (- k))
      then k
      else floor_log10 fuel (k - 1) num den
  end.

Definition trunc_log10 (x : double) : double :=
  match x with
  | S754_finite false m e =>
      let num := if 0 <=? e then Z.pos m * 2 ^ e else Z.pos m in
      let den := if 0 <=? e then 1 else 2 ^ (- e) in
      let k := floor_log10 800 400 num den in
      let exact := if 0 <=? k then 10 ^ k * den =? num else den =? num * 10 ^ (- k) in
      double_of_Z (if (k <? 0) && negb exact then k + 1 else k)
  | _ => S754_nan
  end.

Definition libm_example : Libm :=
  {| log10 := trunc_log10;
     pow := fun _ y =>
              match double_trunc y with
              | Some n => pow10 n
              | None => S754_nan
              end |}.

(** The double nearest to [n / d]. *)
Definition double_of_ratio (n d : Z) : double :=
  SFdiv prec emax (double_of_Z n) (double_of_Z d).

(* ====================================================================== *)
(** * Integer formatters: properties *)
(* ====================================================================== *)

Lemma digit_cases (d : Z) :
  0 <= d < 10 ->
  d = 0 \/ d = 1 \/ d = 2 \/ d = 3 \/ d = 4 \/ d = 5 \/ d = 6 \/ d = 7 \/ d = 8 \/ d = 9.
Proof. lia. Qed.

Lemma digit_value_digit_char (d : Z) :
  0 <= d < 10 -> digit_value (digit_char d) = Some d.
Proof.
  intros H. destruct (digit_cases d H) as [-> | [-> | [-> | [-> | [-> | [-> | [-> | [-> | [-> | ->]]]]]]]]];
    reflexivity.
Qed.

Lemma digit_char_not_minus (d : Z) : 0 <= d < 10 -> digit_char d <> "-"%byte.
Proof.
  intros H. destruct (digit_cases d H) as [-> | [-> | [-> | [-> | [-> | [-> | [-> | [-> | [-> | ->]]]]]]]]];
    discriminate.
Qed.

Lemma digit_char_not_zero (d : Z) : 0 < d < 10 -> digit_char d <> "0"%byte.
Proof.
  intros H.
  assert (H' : 0 <= d < 10) by lia.
  destruct (digit_cases d H') as [-> | [-> | [-> | [-> | [-> | [-> | [-> | [-> | [-> | ->]]]]]]]]];
    try discriminate; lia.
Qed.

Lemma parse_digits_digit (acc d : Z) (l : list byte) :
  0 <= d < 10 ->
  parse_digits acc (digit_char d :: l) = parse_digits (10 * acc + d) l.
Proof. intros H. simpl. rewrite (digit_value_digit_char d H). reflexivity. Qed.

(** The digit loop, started on a value that fits the digits left, returns
    the decimal digits of the value in front of what it was given. *)
Lemma uint64_to_string_loop_spec (index : nat) :
  forall (value : Z) (buff : list byte),
    0 < value < 10 ^ Z.of_nat (S index) ->
    exists d s,
      uint64_to_string_loop index value buff = Some (digit_char d :: s ++ buff) /\
      0 < d < 10 /\
      forall acc rest,
        parse_digits acc (digit_char d :: s ++ rest) =
        parse_digits (acc * 10 ^ Z.of_nat (S (List.length s)) + value) rest.
Proof.
  induction index as [|index IH]; intros value buff Hv.
  - assert (Hlt : value < 10) by (change (10 ^ Z.of_nat 1) with 10 in Hv; lia).
    exists value, []. cbn [uint64_to_string_loop].
    rewrite (Z.div_small value 10), (Z.mod_small value 10) by lia.
    split; [reflexivity|]. split; [lia|].
    intros acc rest. cbn [app List.length].
    rewrite parse_digits_digit by lia.
    f_equal. change (10 ^ Z.of_nat 1) with 10. lia.
  - cbn [uint64_to_string_loop].
    destruct (value / 10 =? 0) eqn:Hq.
    + apply Z.eqb_eq in Hq.
      assert (Hlt : value < 10).
      { destruct (Z_lt_ge_dec value 10) as [?|Hge]; [assumption|].
        assert (1 <= value / 10) by (apply Z.div_le_lower_bound; lia). lia. }
      exists value, []. rewrite (Z.mod_small value 10) by lia.
      split; [reflexivity|]. split; [lia|].
      intros acc rest. cbn [app List.length].
      rewrite parse_digits_digit by lia.
      f_equal. change (10 ^ Z.of_nat 1) with 10. lia.
    + apply Z.eqb_neq in Hq.
      assert (Hpos : 0 < value / 10).
      { assert (0 <= value / 10) by (apply Z.div_pos; lia). lia. }
      assert (Hup : value / 10 < 10 ^ Z.of_nat (S index)).
      { apply Z.div_lt_upper_bound; [lia|].
        replace (Z.of_nat (S (S index))) with (Z.succ (Z.of_nat (S index))) in Hv by lia.
        rewrite Z.pow_succ_r in Hv by lia. lia. }
      destruct (IH (value / 10) (digit_char (value mod 10) :: buff) (conj Hpos Hup))
        as (d & s & Heq & Hd & Hparse).
      exists d, (s ++ [digit_char (value mod 10)]).
      split; [|split; [assumption|]].
      * rewrite Heq. rewrite <- app_assoc. reflexivity.
      * intros acc rest. rewrite <- app_assoc. simpl app.
        rewrite Hparse.
        assert (Hm : 0 <= value mod 10 < 10) by (apply Z.mod_pos_bound; lia).
        rewrite parse_digits_digit by assumption.
        f_equal. rewrite length_app. simpl List.length.
        replace (Z.of_nat (S (List.length s + 1))) with (Z.succ (Z.of_nat (S (List.length s)))) by lia.
        rewrite Z.pow_succ_r by lia.
        pose proof (Z.div_mod value 10 ltac:(lia)) as Hdm.
        lia.
Qed.

(** [uint64_to_string] is total on [uint64_t]; its text starts with a
    digit, is minimal and reads back as the value. *)
Lemma uint64_to_string_spec (value : Z) :
  0 <= value < UINT64_MOD ->
  exists d s,
    uint64_to_string value = Some (digit_char d :: s) /\
    0 <= d < 10 /\
    minimal_digits (digit_char d :: s) /\
    parse_digits 0 (digit_char d :: s) = Some value.
Proof.
  intros Hv. unfold uint64_to_string.
  destruct (value =? 0) eqn:H0.
  - apply Z.eqb_eq in H0. subst value.
    exists 0, []. repeat split; try lia. left. reflexivity.
  - apply Z.eqb_neq in H0.
    assert (Hr : 0 < value < 10 ^ Z.of_nat (S (MAX_UINT64_DIGITS - 1))).
    { unfold UINT64_MOD in Hv. simpl. lia. }
    destruct (uint64_to_string_loop_spec _ value [] Hr) as (d & s & Heq & Hd & Hparse).
    exists d, s. rewrite app_nil_r in Heq.
    split; [assumption|]. split; [lia|]. split.
    + right. exists (digit_char d), s. split; [reflexivity|].
      apply digit_char_not_zero. assumption.
    + specialize (Hparse 0 []). rewrite app_nil_r in Hparse.
      rewrite Hparse. simpl. reflexivity.
Qed.

Lemma in_int64_range (n : Z) : in_int64 n = true <-> INT64_MIN <= n <= INT64_MAX.
Proof. unfold in_int64. rewrite andb_true_iff, !Z.leb_le. tauto. Qed.

(** The negation overflows on exactly one value of the type. *)
Lemma int64_to_string_overflows_iff (n : Z) :
  in_int64 n = true ->
  int64_to_string_overflows n = true <-> n = INT64_MIN.
Proof.
  rewrite in_int64_range. unfold int64_to_string_overflows, neg_int64_overflows.
  unfold INT64_MIN, INT64_MAX. intros Hn.
  rewrite andb_true_iff, negb_true_iff, Z.ltb_lt.
  destruct (in_int64 (- n)) eqn:E.
  - apply in_int64_range in E. unfold INT64_MIN, INT64_MAX in E.
    split; [intros [_ ?]; discriminate | lia].
  - split; [|intros ->; split; [lia | reflexivity]].
    intros _.
    destruct (Z.eq_dec n (- 2 ^ 63)) as [?|Hne]; [assumption|exfalso].
    assert (in_int64 (- n) = true); [|congruence].
    apply in_int64_range. unfold INT64_MIN, INT64_MAX. lia.
Qed.

(** On a two's complement machine the text of [int64_to_string] is the
    minimal decimal text of the value, and reads back as the value, for
    every value of the type. *)
Lemma int64_to_string_roundtrip (n : Z) :
  in_int64 n = true ->
  exists s,
    int64_to_string n = Some s /\
    parse_decimal s = Some n /\
    (if n <? 0 then exists s', s = "-"%byte :: s' /\ minimal_digits s' /\ s' <> bytes "0"
     else minimal_digits s).
Proof.
  rewrite in_int64_range. unfold INT64_MIN, INT64_MAX. intros Hn.
  unfold int64_to_string. destruct (n <? 0) eqn:Hneg.
  - apply Z.ltb_lt in Hneg.
    assert (Hu : to_uint64 (neg_int64 n) = - n).
    { unfold to_uint64, neg_int64, wrap_int64, INT64_MIN, UINT64_MOD.
      destruct (Z.eq_dec n (- 2 ^ 63)) as [->|Hne]; [reflexivity|].
      rewrite (Z.mod_small (- n - - 2 ^ 63)) by lia.
      rewrite Z.mod_small; lia. }
    rewrite Hu.
    destruct (uint64_to_string_spec (- n)) as (d & s & Heq & Hd & Hmin & Hparse).
    { unfold UINT64_MOD. lia. }
    rewrite Heq. simpl. eexists. split; [reflexivity|]. split.
    + cbn [parse_decimal]. rewrite Hparse. simpl. f_equal. lia.
    + eexists. split; [reflexivity|]. split; [assumption|].
      intros Hz. rewrite Hz in Hparse.
      change (parse_digits 0 (bytes "0")) with (Some 0) in Hparse.
      injection Hparse as Hp. lia.
  - apply Z.ltb_ge in Hneg.
    assert (Hu : to_uint64 n = n).
    { unfold to_uint64, UINT64_MOD. apply Z.mod_small. lia. }
    rewrite Hu.
    destruct (uint64_to_string_spec n) as (d & s & Heq & Hd & Hmin & Hparse).
    { unfold UINT64_MOD. lia. }
    rewrite Heq. eexists. split; [reflexivity|]. split; [|assumption].
    pose proof (digit_char_not_minus d Hd) as Hnm.
    unfold parse_decimal. destruct (digit_char d); try assumption; congruence.
Qed.

(** C5 (the code at the value on which it departs from the claim): at
    [INT64_MIN] the formatter negates its argument in signed arithmetic,
    and the exact result, 2^63, is above [INT64_MAX]: the negation
    overflows.  On a two's complement machine the wrapped result still
    gives the right text. *)
Theorem int64_to_string_INT64_MIN_overflows :
  in_int64 INT64_MIN = true /\
  INT64_MAX < - INT64_MIN /\
  int64_to_string_overflows INT64_MIN = true /\
  int64_to_string INT64_MIN = Some (bytes "-9223372036854775808").
Proof. repeat split; vm_compute; reflexivity. Qed.

(* ====================================================================== *)
(** * The double formatter on special values *)
(* ====================================================================== *)

(** C2 (as amended): for every library and every number of digits, both
    zeroes are formatted as [0], NaN as [nan], positive infinity as [inf],
    and negative infinity as [-inf]: the sign of a negative infinity is
    written like that of any other negative value. *)
Theorem double_to_string_special_values `{Libm} (max_sig_digits : Z) :
  double_to_string (S754_zero false) max_sig_digits = Some (bytes "0") /\
  double_to_string (S754_zero true) max_sig_digits = Some (bytes "0") /\
  double_to_string S754_nan max_sig_digits = Some (bytes "nan") /\
  double_to_string (S754_infinity false) max_sig_digits = Some (bytes "inf") /\
  double_to_string (S754_infinity true) max_sig_digits = Some (bytes "-inf").
Proof. repeat split. Qed.

(** C2 (counterexample): negative infinity is not formatted as [inf]. *)
Lemma double_to_string_negative_infinity_has_sign :
  double_to_string (H := libm_unused) (S754_infinity true) MAX_SIGNIFICANT_DIGITS
  <> Some (bytes "inf").
Proof. vm_compute. discriminate. Qed.

(* ====================================================================== *)
(** * Handlers and traces: basic facts *)
(* ====================================================================== *)

Section Traces.

Context {U : Type}.
Implicit Types context c : BSG_KSJSONEncodeContext U.

Lemma handed_refl c : handed c c [].
Proof. unfold handed. rewrite app_nil_r. tauto. Qed.

Lemma handed_trans c c1 c2 l1 l2 :
  handed c c1 l1 -> handed c1 c2 l2 -> handed c c2 (l1 ++ l2).
Proof.
  unfold handed. intros (-> & -> & -> & -> & -> & ->) (-> & -> & -> & -> & -> & ->).
  rewrite app_assoc. tauto.
Qed.

Lemma accepting_handed c c' l : handed c c' l -> accepting c -> accepting c'.
Proof. unfold handed, accepting. intros (-> & _) H. exact H. Qed.

(** The macro hands its bytes over once, whatever the answer. *)
Lemma addJSONData_spec (data : list byte) c :
  exists r c',
    addJSONData data c = Some (r, c') /\
    handed c c' [data] /\
    (accepting c -> r = BSG_KSJSON_OK).
Proof.
  unfold addJSONData.
  destruct (addJSONDataFunc c data (userData c)) as [r u'] eqn:E.
  exists r. eexists. split; [reflexivity|]. split.
  - unfold handed. simpl. tauto.
  - intros Hacc. specialize (Hacc data (userData c)). rewrite E in Hacc. exact Hacc.
Qed.

End Traces.

(* ====================================================================== *)
(** * String escaper: properties *)
(* ====================================================================== *)

Lemma store_fits (cs dst : list byte) :
  (List.length dst + List.length cs <= BSG_KSJSONCODEC_WorkBufferSize)%nat ->
  store dst cs = Some (dst ++ cs).
Proof.
  revert dst. induction cs as [|c cs IH]; intros dst H; simpl.
  - rewrite app_nil_r. reflexivity.
  - simpl in H.
    destruct (List.length dst <? BSG_KSJSONCODEC_WorkBufferSize)%nat eqn:E.
    + rewrite IH by (rewrite length_app; simpl; lia).
      rewrite <- app_assoc. reflexivity.
    + apply Nat.ltb_ge in E. lia.
Qed.

(** A write past the end of the work buffer has no result. *)
Lemma store_overrun (c : byte) (dst : list byte) :
  (BSG_KSJSONCODEC_WorkBufferSize <= List.length dst)%nat -> store dst [c] = None.
Proof.
  intros H. simpl.
  destruct (List.length dst <? BSG_KSJSONCODEC_WorkBufferSize)%nat eqn:E;
    [apply Nat.ltb_lt in E; lia | reflexivity].
Qed.

(** The [switch] writes the JSON escape of the byte. *)
Lemma switch_src_json_escape (c : byte) : switch_src c = Some (json_escape c).
Proof. destruct c; reflexivity. Qed.

Lemma json_escape_length (c : byte) : (List.length (json_escape c) <= 6)%nat.
Proof. destruct c; vm_compute; lia. Qed.

Lemma json_escape_simple (c : byte) : is_simple c = true -> json_escape c = [c].
Proof. destruct c; intros H; try discriminate H; reflexivity. Qed.

Lemma lookup_take_drop (buf : list byte) (src remaining : nat) :
  (src + S remaining <= List.length buf)%nat ->
  exists b, buf !! src = Some b /\
            take (S remaining) (drop src buf) = b :: take remaining (drop (S src) buf).
Proof.
  intros H.
  destruct (buf !! src) as [b|] eqn:E.
  - exists b. split; [reflexivity|].
    rewrite (drop_S _ _ _ E). reflexivity.
  - apply lookup_ge_None in E. lia.
Qed.

(** The first loop copies a prefix of simple bytes and stays inside the
    buffer when the bytes left to read fit what is left of it. *)
Lemma simple_case_spec (remaining : nat) :
  forall (buf : list byte) (src : nat) (dst : list byte),
    (src + remaining <= List.length buf)%nat ->
    (List.length dst + remaining <= BSG_KSJSONCODEC_WorkBufferSize)%nat ->
    exists k,
      (k <= remaining)%nat /\
      simple_case remaining (Some buf) src dst
      = Some ((src + k)%nat, dst ++ take k (drop src buf)) /\
      json_escape_string (take k (drop src buf)) = take k (drop src buf).
Proof.
  induction remaining as [|remaining IH]; intros buf src dst Hsrc Hdst.
  - exists O. split; [lia|]. simpl. rewrite Nat.add_0_r, app_nil_r. split; reflexivity.
  - destruct (lookup_take_drop buf src remaining Hsrc) as (b & Hb & Htake).
    cbn [simple_case load mbind option_bind]. rewrite Hb. cbn [mbind option_bind].
    destruct (is_simple b) eqn:Es.
    + rewrite store_fits by (simpl; lia). cbn [mbind option_bind].
      destruct (IH buf (S src) (dst ++ [b])) as (k & Hk & Heq & Hesc).
      { lia. }
      { rewrite length_app. simpl. lia. }
      exists (S k). split; [lia|]. rewrite Heq.
      assert (Hk' : take (S k) (drop src buf) = b :: take k (drop (S src) buf)).
      { rewrite (drop_S _ _ _ Hb). reflexivity. }
      rewrite Hk'. split.
      * f_equal. f_equal; [lia|]. rewrite <- app_assoc. reflexivity.
      * unfold json_escape_string in *. cbn [flat_map].
        rewrite (json_escape_simple b Es), Hesc. reflexivity.
    + exists O. split; [lia|]. rewrite Nat.add_0_r. simpl take.
      rewrite app_nil_r. split; reflexivity.
Qed.

Section Escaper.

Context {U : Type}.
Implicit Types context c : BSG_KSJSONEncodeContext U.

(** The second loop: whatever the handler answers, every write stays
    inside the work buffer and every run handed over fits it; when the
    handler accepts them all, they add up to what the buffer held followed
    by the escapes of the bytes left. *)
Lemma complicated_case_spec (remaining : nat) :
  forall (buf : list byte) (src : nat) (dst : list byte) c,
    (src + remaining <= List.length buf)%nat ->
    fits dst ->
    exists r c' l,
      complicated_case remaining (Some buf) src dst c = Some (r, c') /\
      handed c c' l /\
      Forall fits l /\
      (r = BSG_KSJSON_OK ->
       concat l = dst ++ json_escape_string (take remaining (drop src buf))) /\
      (accepting c -> r = BSG_KSJSON_OK).
Proof.
  induction remaining as [|remaining IH]; intros buf src dst c Hsrc Hdst.
  - destruct (addJSONData_spec dst c) as (r & c' & Heq & Hh & Hacc).
    exists r, c', [dst]. simpl. rewrite Heq.
    split; [reflexivity|]. split; [assumption|]. split; [constructor; [assumption | constructor]|].
    split; [|assumption]. intros _. rewrite !app_nil_r. reflexivity.
  - destruct (lookup_take_drop buf src remaining Hsrc) as (b & Hb & Htake).
    assert (Hnext : forall dst0 c0,
               (List.length dst0 + 6 <= BSG_KSJSONCODEC_WorkBufferSize)%nat ->
               exists r c' l,
                 (c ← load (Some buf) src;
                  cs ← switch_src c;
                  dst ← store dst0 cs;
                  complicated_case remaining (Some buf) (S src) dst c0) = Some (r, c') /\
                 handed c0 c' l /\ Forall fits l /\
                 (r = BSG_KSJSON_OK ->
                  concat l = dst0 ++ json_escape_string (take (S remaining) (drop src buf))) /\
                 (accepting c0 -> r = BSG_KSJSON_OK)).
    { intros dst0 c0 Hlen.
      cbn [load mbind option_bind]. rewrite Hb. cbn [mbind option_bind].
      rewrite switch_src_json_escape. cbn [mbind option_bind].
      pose proof (json_escape_length b) as Hesc.
      rewrite store_fits by lia. cbn [mbind option_bind].
      destruct (IH buf (S src) (dst0 ++ json_escape b) c0) as (r & c' & l & Heq & Hh & Hf & Hout & Hacc).
      { lia. }
      { unfold fits. rewrite length_app. lia. }
      exists r, c', l. split; [assumption|]. split; [assumption|]. split; [assumption|].
      split; [|assumption]. intros Hr. rewrite (Hout Hr), Htake.
      unfold json_escape_string. cbn [flat_map]. rewrite <- app_assoc. reflexivity. }
    cbn [complicated_case].
    destruct (BSG_KSJSONCODEC_WorkBufferSize <? List.length dst + 6)%nat eqn:Eflush.
    + unfold and_then.
      destruct (addJSONData_spec dst c) as (r1 & c1 & Heq1 & Hh1 & Hacc1).
      rewrite Heq1.
      destruct (Hnext [] c1) as (r & c' & l & Heq & Hh & Hf & Hout & Hacc).
      { unfold BSG_KSJSONCODEC_WorkBufferSize. simpl. lia. }
      destruct r1;
        try (exists r, c', ([dst] ++ l); rewrite Heq;
             split; [reflexivity|]; split; [eapply handed_trans; eassumption|];
             split; [constructor; assumption|];
             split; [intros Hr; simpl; rewrite (Hout Hr); reflexivity|];
             intros Ha; apply Hacc; eapply accepting_handed; eassumption);
        (eexists _, c1, [dst]; split; [reflexivity|]; split; [assumption|];
         split; [constructor; [assumption | constructor]|];
         split; [discriminate | assumption]).
    + apply Nat.ltb_ge in Eflush.
      destruct (Hnext dst c) as (r & c' & l & Heq & Hh & Hf & Hout & Hacc); [lia|].
      exists r, c', l. rewrite Heq. tauto.
Qed.

End Escaper.

Section Escaper2.

Context {U : Type}.
Implicit Types context c : BSG_KSJSONEncodeContext U.

(** One portion of at most the size of the work buffer. *)
Lemma appendEscapedString_spec (buf : list byte) (length : nat) c :
  (length <= List.length buf)%nat ->
  (length <= BSG_KSJSONCODEC_WorkBufferSize)%nat ->
  exists r c' l,
    bsg_ksjsoncodec_i_appendEscapedString (Some buf) length c = Some (r, c') /\
    handed c c' l /\
    Forall fits l /\
    (r = BSG_KSJSON_OK -> concat l = json_escape_string (take length buf)) /\
    (accepting c -> r = BSG_KSJSON_OK).
Proof.
  intros Hlen Hfit. unfold bsg_ksjsoncodec_i_appendEscapedString.
  destruct (simple_case_spec length buf 0 []) as (k & Hk & Heq & Hesc);
    [simpl; lia | simpl; lia |].
  rewrite Heq. cbn [mbind option_bind]. rewrite drop_0 in *. simpl.
  destruct (complicated_case_spec (length - k) buf k (take k buf) c)
    as (r & c' & l & Heq' & Hh & Hf & Hout & Hacc).
  { lia. }
  { unfold fits. rewrite length_take. lia. }
  exists r, c', l. split; [assumption|]. split; [assumption|]. split; [assumption|].
  split; [|assumption].
  intros Hr. rewrite (Hout Hr).
  replace length with (k + (length - k))%nat at 2 by lia.
  rewrite <- take_take_drop. unfold json_escape_string in *.
  rewrite flat_map_app, Hesc. reflexivity.
Qed.

Lemma addEscapedString_loop_spec (n : nat) :
  forall (buf : list byte) (len offset : nat) c,
    n = (len - offset)%nat ->
    (len <= List.length buf)%nat ->
    (offset <= len)%nat ->
    exists r c' l,
      addEscapedString_loop (Some buf) len offset BSG_KSJSON_OK c = Some (r, c') /\
      handed c c' l /\
      Forall fits l /\
      (r = BSG_KSJSON_OK ->
       concat l = json_escape_string (take (len - offset) (drop offset buf))) /\
      (accepting c -> r = BSG_KSJSON_OK).
Proof.
  induction n as [n IH] using lt_wf_ind. intros buf len offset c Hn Hlen Hoff.
  simp addEscapedString_loop.
  destruct (decide (offset < len)%nat) as [Hlt|Hge];
    cbn [addEscapedString_loop_unfold_clause_1].
  - assert (Hadd : (0 < toAdd len offset <= len - offset)%nat /\
                   (toAdd len offset <= BSG_KSJSONCODEC_WorkBufferSize)%nat).
    { unfold toAdd, BSG_KSJSONCODEC_WorkBufferSize.
      destruct (512 <? len - offset)%nat eqn:E;
        [apply Nat.ltb_lt in E | apply Nat.ltb_ge in E]; lia. }
    destruct Hadd as [Hadd Hfit].
    change (ptr_add (Some buf) offset) with (Some (drop offset buf)).
    destruct (appendEscapedString_spec (drop offset buf) (toAdd len offset) c)
      as (r1 & c1 & l1 & Heq1 & Hh1 & Hf1 & Hout1 & Hacc1).
    { rewrite length_drop. lia. }
    { assumption. }
    rewrite Heq1.
    destruct (IH (len - (offset + toAdd len offset))%nat ltac:(lia)
                 buf len (offset + toAdd len offset)%nat c1 eq_refl Hlen ltac:(lia))
      as (r & c' & l & Heq & Hh & Hf & Hout & Hacc).
    destruct r1; cbn [addEscapedString_loop_unfold_clause_1_clause_1];
      try (exists r, c', (l1 ++ l); rewrite Heq;
           split; [reflexivity|]; split; [eapply handed_trans; eassumption|];
           split; [apply Forall_app; split; assumption|];
           split; [|intros Ha; apply Hacc; eapply accepting_handed; eassumption];
           intros Hr; rewrite concat_app, (Hout1 eq_refl), (Hout Hr);
           unfold json_escape_string; rewrite <- flat_map_app; f_equal;
           rewrite <- (drop_drop buf), take_take_drop; f_equal; lia);
      (eexists _, c1, l1; split; [reflexivity|]; split; [assumption|];
       split; [assumption|]; split; [discriminate | assumption]).
  - exists BSG_KSJSON_OK, c, []. split; [reflexivity|]. split; [apply handed_refl|].
    split; [constructor|]. split; [|reflexivity].
    intros _. replace (len - offset)%nat with O by lia. reflexivity.
Qed.

(** The escaper, called on [length] readable bytes. *)
Lemma addEscapedString_spec (string : ptr) (length : nat) (input : list byte) c :
  readable string length input ->
  exists r c' l,
    bsg_ksjsoncodec_i_addEscapedString string length c = Some (r, c') /\
    handed c c' l /\
    Forall fits l /\
    (r = BSG_KSJSON_OK -> concat l = json_escape_string input) /\
    (accepting c -> r = BSG_KSJSON_OK).
Proof.
  intros (buf & -> & Hlen & ->). unfold bsg_ksjsoncodec_i_addEscapedString.
  destruct (addEscapedString_loop_spec (length - 0) buf length 0 c eq_refl Hlen ltac:(lia))
    as (r & c' & l & Heq & Hh & Hf & Hout & Hacc).
  exists r, c', l. rewrite Nat.sub_0_r, drop_0 in Hout. tauto.
Qed.

End Escaper2.

(* ====================================================================== *)
(** * Encoder state machine: properties *)
(* ====================================================================== *)

Section Machine.

Context {U : Type}.
Implicit Types context c : BSG_KSJSONEncodeContext U.
Implicit Types m : M U status.

Lemma runs_conseq m c c0 (P Q : status -> list (list byte) -> Prop) :
  runs m c c0 P -> (forall r l, P r l -> Q r l) -> runs m c c0 Q.
Proof. intros (r & c' & l & Heq & Hh & HP) HPQ. exists r, c', l. auto. Qed.

(** Sequencing: the second operation runs only after an OK. *)
Lemma runs_and_then m (k : M U status) c c0 (P Q : status -> list (list byte) -> Prop) :
  runs m c c0 P ->
  (forall c1 l1, m c = Some (BSG_KSJSON_OK, c1) -> handed c0 c1 l1 ->
                 P BSG_KSJSON_OK l1 ->
                 runs k c1 c1 (fun r l2 => Q r (l1 ++ l2))) ->
  (forall r l1, r <> BSG_KSJSON_OK -> P r l1 -> Q r l1) ->
  runs (m ;;; k) c c0 Q.
Proof.
  intros (r & c1 & l1 & Heq & Hh & HP) Hk Hfail.
  destruct r;
    try (eexists _, c1, l1; split; [unfold and_then; rewrite Heq; reflexivity|];
         split; [assumption|]; apply Hfail; [discriminate | assumption]).
  destruct (Hk c1 l1 Heq Hh HP) as (r & c2 & l2 & Heq2 & Hh2 & HQ).
  exists r, c2, (l1 ++ l2).
  split; [unfold and_then; rewrite Heq; assumption|]. split; [|assumption].
  eapply handed_trans; eassumption.
Qed.

Lemma runs_ext m (m' : M U status) c c0 (P : status -> list (list byte) -> Prop) :
  m c = m' c -> runs m' c c0 P -> runs m c c0 P.
Proof. unfold runs. intros ->. trivial. Qed.

Lemma runs_addJSONData (data : list byte) c :
  runs (addJSONData data) c c
       (fun r l => l = [data] /\ (accepting c -> r = BSG_KSJSON_OK)).
Proof.
  destruct (addJSONData_spec data c) as (r & c' & Heq & Hh & Hacc).
  exists r, c', [data]. auto.
Qed.

Lemma runs_ret c : runs (ret BSG_KSJSON_OK) c c (fun r l => l = [] /\ r = BSG_KSJSON_OK).
Proof. exists BSG_KSJSON_OK, c, []. split; [reflexivity|]. split; [apply handed_refl|auto]. Qed.

(** The indentation loop hands over [n] times four spaces, or fewer when
    the handler refuses one of them. *)
Lemma indent_spec (n : nat) c :
  runs (indent n) c c
       (fun r l => exists k, l = replicate k (bytes "    ") /\ (k <= n)%nat /\
                             (r = BSG_KSJSON_OK -> k = n) /\
                             (accepting c -> r = BSG_KSJSON_OK)).
Proof.
  revert c. induction n as [|n IH]; intros c; cbn [indent].
  - eapply runs_conseq; [apply runs_ret|].
    intros r l [-> ->]. exists O. auto.
  - eapply runs_and_then; [apply runs_addJSONData | |].
    + intros c1 l1 _ Hh [-> _].
      eapply runs_conseq; [apply IH|].
      intros r l (k & -> & Hk & Hr & Hacc). exists (S k).
      split; [reflexivity|]. split; [lia|]. split; [intros; f_equal; auto|].
      intros Ha. apply Hacc. eapply accepting_handed; eassumption.
    + intros r l1 Hr [-> Hacc]. exists 1%nat.
      split; [reflexivity|]. split; [lia|]. split; [contradiction|assumption].
Qed.

Lemma handed_set_containerFirstEntry c c' l :
  handed c c' l ->
  handed (set_containerFirstEntry (containerFirstEntry c) c) c' l.
Proof. unfold handed. simpl. tauto. Qed.

Lemma newline_indent_spec (n : nat) c :
  runs (addJSONData [x0a] ;;; indent n) c c
       (fun r l => exists k, l = [x0a] :: replicate k (bytes "    ") /\
                             (k <= n)%nat /\
                             (r = BSG_KSJSON_OK -> k = n) /\
                             (accepting c -> r = BSG_KSJSON_OK)).
Proof.
  eapply runs_and_then; [apply runs_addJSONData | |].
  - intros c1 l1 _ Hh [-> _].
    eapply runs_conseq; [apply indent_spec|].
    intros r l (k & -> & Hk & Hr & Hacc). exists k.
    split; [reflexivity|]. split; [assumption|]. split; [assumption|].
    intros Ha. apply Hacc. eapply accepting_handed; eassumption.
  - intros r l1 Hr [-> Hacc]. exists O.
    split; [reflexivity|]. split; [lia|]. split; [contradiction|assumption].
Qed.

Lemma beginElement_comma_spec c :
  runs beginElement_comma c (set_containerFirstEntry false c)
       (fun r l => l = (if containerFirstEntry c then [] else [bytes ","]) /\
                   (accepting c -> r = BSG_KSJSON_OK)).
Proof.
  unfold runs, beginElement_comma. destruct (containerFirstEntry c) eqn:E.
  - exists BSG_KSJSON_OK, (set_containerFirstEntry false c), [].
    split; [reflexivity|]. split; [apply handed_refl|]. auto.
  - destruct (runs_addJSONData (bytes ",") c) as (r & c' & l & Heq & Hh & Hl & Hacc).
    exists r, c', l. split; [assumption|]. split; [|auto].
    rewrite <- E. apply handed_set_containerFirstEntry. assumption.
Qed.

Lemma beginElement_pretty_spec c :
  runs beginElement_pretty c c
       (fun r l =>
          (if prettyPrint c && (0 <? containerLevel c)
           then exists k, l = [x0a] :: replicate k (bytes "    ") /\
                          (k <= Z.to_nat (containerLevel c))%nat /\
                          (r = BSG_KSJSON_OK -> k = Z.to_nat (containerLevel c))
           else l = [] /\ r = BSG_KSJSON_OK) /\
          (accepting c -> r = BSG_KSJSON_OK)).
Proof.
  destruct (prettyPrint c && (0 <? containerLevel c)) eqn:E.
  - eapply runs_ext; [unfold beginElement_pretty; rewrite E; reflexivity|].
    eapply runs_conseq; [apply newline_indent_spec|].
    intros r l (k & -> & Hk & Hr & Hacc). split; [|assumption].
    exists k. auto.
  - exists BSG_KSJSON_OK, c, [].
    split; [unfold beginElement_pretty; rewrite E; reflexivity|].
    split; [apply handed_refl|]. auto.
Qed.

(** The escaper in the form of the other operations. *)
Lemma addEscapedString_runs (string : ptr) (length : nat) (input : list byte) c :
  readable string length input ->
  runs (bsg_ksjsoncodec_i_addEscapedString string length) c c
       (fun r l => Forall fits l /\
                   (r = BSG_KSJSON_OK -> concat l = json_escape_string input) /\
                   (accepting c -> r = BSG_KSJSON_OK)).
Proof.
  intros Hr.
  destruct (addEscapedString_spec string length input c Hr)
    as (r & c' & l & Heq & Hh & Hf & Hout & Hacc).
  exists r, c', l. auto.
Qed.

Lemma addQuotedEscapedString_spec (string : ptr) (length : nat) (input : list byte) c :
  readable string length input ->
  runs (bsg_ksjsoncodec_i_addQuotedEscapedString string length) c c
       (fun r l => (r = BSG_KSJSON_OK ->
                    concat l = QUOTE :: json_escape_string input ++ [QUOTE]) /\
                   (accepting c -> r = BSG_KSJSON_OK)).
Proof.
  intros Hr. unfold bsg_ksjsoncodec_i_addQuotedEscapedString.
  eapply runs_and_then; [apply runs_addJSONData | |].
  - intros c1 l1 _ Hh1 [-> _].
    eapply runs_and_then; [apply (addEscapedString_runs _ _ _ _ Hr) | |].
    + intros c2 l2 _ Hh2 (_ & Hout & _).
      eapply runs_conseq; [apply runs_addJSONData|].
      intros r l [-> Hacc]. split.
      * intros _. simpl. rewrite concat_app, (Hout eq_refl). simpl.
        reflexivity.
      * intros Ha. apply Hacc.
        eapply accepting_handed; [eassumption|].
        eapply accepting_handed; eassumption.
    + intros r l2 Hne (_ & _ & Hacc). split; [contradiction|].
      intros Ha. apply Hacc. eapply accepting_handed; eassumption.
  - intros r l1 Hne [_ Hacc]. split; [contradiction | assumption].
Qed.

Lemma c_string_strlen (p : ptr) (nm : list byte) :
  c_string p nm ->
  strlen p = Some (List.length nm) /\ readable p (List.length nm) nm.
Proof.
  intros (rest & -> & Hnm). split.
  - simpl. induction Hnm as [|c nm Hc Hnm IH]; simpl.
    + reflexivity.
    + destruct (Byte.eqb c x00) eqn:E.
      * apply Byte.byte_dec_bl in E. contradiction.
      * rewrite IH. reflexivity.
  - exists (nm ++ x00 :: rest). split; [reflexivity|]. split.
    + rewrite length_app. lia.
    + rewrite take_app_length. reflexivity.
Qed.

Lemma beginElement_name_spec (name : ptr) (nm : list byte) (b : bool) c :
  isObject_at c (containerLevel c) = Some b ->
  (b = true -> name = None \/ c_string name nm) ->
  runs (beginElement_name name) c c
       (fun r l =>
          (r = BSG_KSJSON_OK ->
           (b = true -> name <> None) /\
           concat l =
           if b then QUOTE :: json_escape_string nm ++
                     QUOTE :: (if prettyPrint c then bytes ": " else bytes ":")
           else []) /\
          (b = true -> name = None -> r = BSG_KSJSON_ERROR_INVALID_DATA /\ l = []) /\
          (accepting c -> (b = true -> name <> None) -> r = BSG_KSJSON_OK)).
Proof.
  intros Hb Hname.
  destruct b.
  - destruct (Hname eq_refl) as [-> | Hcs].
    + exists BSG_KSJSON_ERROR_INVALID_DATA, c, [].
      split; [unfold beginElement_name; rewrite Hb; reflexivity|].
      split; [apply handed_refl|].
      split; [discriminate|]. split; [auto|]. intros _ H. exfalso. apply H; reflexivity.
    + destruct (c_string_strlen _ _ Hcs) as [Hlen Hread].
      destruct Hcs as (rest & -> & Hnm).
      eapply runs_ext;
        [unfold beginElement_name; rewrite Hb; cbn [mbind option_bind];
         rewrite Hlen; cbn [mbind option_bind]; reflexivity|].
      eapply runs_and_then; [apply (addQuotedEscapedString_spec _ _ _ _ Hread) | |].
      * intros c1 l1 _ Hh1 [Hout _].
        assert (Hcolon : runs (addJSONData (if prettyPrint c then bytes ": " else bytes ":"))
                           c1 c1
                           (fun r l => l = [if prettyPrint c then bytes ": " else bytes ":"] /\
                                       (accepting c1 -> r = BSG_KSJSON_OK)))
          by apply runs_addJSONData.
        assert (Hsame : (if prettyPrint c
                         then addJSONData (U:=U) (bytes ": ")
                         else addJSONData (bytes ":"))
                        = addJSONData (if prettyPrint c then bytes ": " else bytes ":"))
          by (destruct (prettyPrint c); reflexivity).
        rewrite Hsame.
        eapply runs_conseq; [apply Hcolon|].
        intros r l [-> Hacc]. split; [|split].
        -- intros _. split; [discriminate|].
           rewrite concat_app, (Hout eq_refl). simpl. rewrite app_nil_r, <- app_assoc.
           reflexivity.
        -- discriminate.
        -- intros Ha _. apply Hacc. eapply accepting_handed; eassumption.
      * intros r l1 Hne [_ Hacc]. split; [contradiction|]. split; [discriminate|auto].
  - exists BSG_KSJSON_OK, c, [].
    split; [unfold beginElement_name; rewrite Hb; reflexivity|].
    split; [apply handed_refl|].
    split; [|split]; [split; [discriminate | reflexivity] | discriminate | reflexivity].
Qed.

(** [bsg_ksjsonbeginElement] in full: it leaves the first-entry flag
    false whatever happens; when the flag was false the first run it hands
    over is a comma; when it returns OK it has written the prefix of the
    element; with a handler that accepts everything it returns OK unless
    the name is missing in an object. *)
Lemma beginElement_spec (name : ptr) (nm : list byte) (b : bool) c :
  isObject_at c (containerLevel c) = Some b ->
  (b = true -> name = None \/ c_string name nm) ->
  runs (bsg_ksjsonbeginElement name) c (set_containerFirstEntry false c)
       (fun r l =>
          (containerFirstEntry c = false -> exists l', l = bytes "," :: l') /\
          (r = BSG_KSJSON_OK ->
           (b = true -> name <> None) /\ concat l = element_prefix c b nm) /\
          (accepting c -> (b = true -> name <> None) -> r = BSG_KSJSON_OK)).
Proof.
  intros Hb Hname. unfold bsg_ksjsonbeginElement.
  eapply runs_and_then; [apply beginElement_comma_spec | |].
  - intros c1 l1 _ Hh1 [Hl1 _].
    pose proof Hh1 as (Hf1 & Hp1 & Ho1 & Hv1 & _ & _). simpl in Hp1, Ho1, Hv1.
    eapply runs_and_then; [apply beginElement_pretty_spec | |].
    + intros c2 l2 _ Hh2 [Hl2 _].
      pose proof Hh2 as (Hf2 & Hp2 & Ho2 & Hv2 & _ & _).
      assert (Hb2 : isObject_at c2 (containerLevel c2) = Some b).
      { unfold isObject_at in *. rewrite Hv2, Ho2, Hv1, Ho1. exact Hb. }
      eapply runs_conseq; [apply (beginElement_name_spec name nm b c2 Hb2 Hname)|].
      intros r l3 (Hout & _ & Hacc). split; [|split].
      * intros Hfalse. rewrite Hl1, Hfalse. eexists. reflexivity.
      * intros Hr. destruct (Hout Hr) as [Hn Hc3]. split; [assumption|].
        rewrite !concat_app, Hc3. unfold element_prefix.
        rewrite Hp2, Hp1. f_equal; [|f_equal].
        -- rewrite Hl1. destruct (containerFirstEntry c); reflexivity.
        -- rewrite Hp1, Hv1 in Hl2.
           destruct (prettyPrint c && (0 <? containerLevel c)).
           ++ destruct Hl2 as (k & -> & _ & Hk). rewrite (Hk eq_refl). reflexivity.
           ++ destruct Hl2 as [-> _]. reflexivity.
      * intros Ha Hn. apply Hacc; [|assumption].
        eapply accepting_handed; [eassumption|].
        eapply accepting_handed; [eassumption|]. exact Ha.
    + intros r l2 Hne [_ Hacc]. split; [|split].
      * intros Hfalse. rewrite Hl1, Hfalse. eexists. reflexivity.
      * contradiction.
      * intros Ha _. apply Hacc. eapply accepting_handed; [eassumption|]. exact Ha.
  - intros r l1 Hne [Hl1 Hacc]. split; [|split].
    + intros Hfalse. rewrite Hl1, Hfalse. eexists. reflexivity.
    + contradiction.
    + auto.
Qed.

Lemma filter_is_bracket_indent (k : nat) :
  filter (fun chunk => is_bracket chunk = true) ([x0a] :: replicate k (bytes "    ")) = [].
Proof.
  rewrite filter_cons_False by (simpl; discriminate).
  induction k as [|k IH]; [reflexivity|].
  simpl replicate. rewrite filter_cons_False by (simpl; discriminate). exact IH.
Qed.

Lemma endContainer_pretty_spec c :
  runs endContainer_pretty c c
       (fun r l =>
          (if prettyPrint c && negb (containerFirstEntry c)
           then exists k, l = [x0a] :: replicate k (bytes "    ") /\
                          (k <= Z.to_nat (containerLevel c))%nat /\
                          (r = BSG_KSJSON_OK -> k = Z.to_nat (containerLevel c))
           else l = [] /\ r = BSG_KSJSON_OK) /\
          (accepting c -> r = BSG_KSJSON_OK)).
Proof.
  destruct (prettyPrint c && negb (containerFirstEntry c)) eqn:E.
  - eapply runs_ext; [unfold endContainer_pretty; rewrite E; reflexivity|].
    eapply runs_conseq; [apply newline_indent_spec|].
    intros r l (k & -> & Hk & Hr & Hacc). split; [|assumption].
    exists k. auto.
  - exists BSG_KSJSON_OK, c, [].
    split; [unfold endContainer_pretty; rewrite E; reflexivity|].
    split; [apply handed_refl|]. auto.
Qed.

(** [bsg_ksjsonendContainer] on an open container: the level goes down by
    one and the first-entry flag is false afterwards, whatever the handler
    answers; on OK exactly one bracket was handed over, the one of the
    container, after the new line and indentation of pretty printing. *)
Lemma endContainer_spec (b : bool) c :
  0 < containerLevel c ->
  isObject_at c (containerLevel c) = Some b ->
  runs bsg_ksjsonendContainer c
       (set_containerFirstEntry false (set_containerLevel (containerLevel c - 1) c))
       (fun r l =>
          (r = BSG_KSJSON_OK ->
           filter (fun chunk => is_bracket chunk = true) l = [closing_bracket b] /\
           concat l =
           (if prettyPrint c && negb (containerFirstEntry c)
            then indentation (containerLevel c - 1) else []) ++ closing_bracket b) /\
          (r <> BSG_KSJSON_OK ->
           filter (fun chunk => is_bracket chunk = true) l = [] \/
           filter (fun chunk => is_bracket chunk = true) l = [closing_bracket b]) /\
          (accepting c -> r = BSG_KSJSON_OK)).
Proof.
  intros Hpos Hb.
  set (c0 := set_containerLevel (containerLevel c - 1) c).
  eapply runs_ext with
    (m' := fun _ => (endContainer_pretty ;;;
                     (fun context =>
                        addJSONData (closing_bracket b)
                                    (set_containerFirstEntry false context))) c0).
  { unfold bsg_ksjsonendContainer.
    destruct (containerLevel c <=? 0) eqn:E0; [apply Z.leb_le in E0; lia|].
    rewrite Hb. cbn [mbind option_bind]. fold c0.
    unfold closing_bracket. destruct b; reflexivity. }
  destruct (endContainer_pretty_spec c0) as (r1 & c1 & l1 & Heq1 & Hh1 & Hl1 & Hacc1).
  change (prettyPrint c0) with (prettyPrint c) in Hl1.
  change (containerFirstEntry c0) with (containerFirstEntry c) in Hl1.
  change (containerLevel c0) with (containerLevel c - 1) in Hl1.
  assert (Hfail : r1 <> BSG_KSJSON_OK ->
                  runs (fun _ => Some (r1, c1)) c (set_containerFirstEntry false c0)
                       (fun r l =>
                          (r = BSG_KSJSON_OK ->
                           filter (fun chunk => is_bracket chunk = true) l = [closing_bracket b] /\
                           concat l =
                           (if prettyPrint c && negb (containerFirstEntry c)
                            then indentation (containerLevel c - 1) else []) ++ closing_bracket b) /\
                          (r <> BSG_KSJSON_OK ->
                           filter (fun chunk => is_bracket chunk = true) l = [] \/
                           filter (fun chunk => is_bracket chunk = true) l = [closing_bracket b]) /\
                          (accepting c -> r = BSG_KSJSON_OK))).
  { intros Hne. exists r1, c1, l1. split; [reflexivity|].
    destruct (prettyPrint c && negb (containerFirstEntry c)) eqn:E.
    - apply andb_true_iff in E. destruct E as [_ E]. apply negb_true_iff in E.
      split.
      + replace false with (containerFirstEntry c0) by exact E.
        apply handed_set_containerFirstEntry. assumption.
      + split; [contradiction|]. split; [|exact Hacc1].
        intros _. left. destruct Hl1 as (k & -> & _). apply filter_is_bracket_indent.
    - destruct Hl1 as [_ ->]. contradiction. }
  unfold and_then. rewrite Heq1.
  destruct r1; try (apply Hfail; discriminate).
  destruct (addJSONData_spec (closing_bracket b) (set_containerFirstEntry false c1))
    as (r2 & c2 & Heq2 & Hh2 & Hacc2).
  exists r2, c2, (l1 ++ [closing_bracket b]). split; [assumption|].
  assert (Hf : filter (fun chunk => is_bracket chunk = true) (l1 ++ [closing_bracket b])
               = [closing_bracket b]).
  { rewrite list.filter_app.
    assert (Hnil : filter (fun chunk => is_bracket chunk = true) l1 = []).
    { destruct (prettyPrint c && negb (containerFirstEntry c)).
      - destruct Hl1 as (k & -> & _). apply filter_is_bracket_indent.
      - destruct Hl1 as [-> _]. reflexivity. }
    rewrite Hnil. destruct b; reflexivity. }
  split; [|split; [|split]].
  - eapply handed_trans; [|eassumption].
    destruct Hh1 as (H1 & H2 & H3 & H4 & H5 & H6). unfold handed. simpl. tauto.
  - intros _. split; [exact Hf|]. rewrite concat_app. simpl. rewrite app_nil_r.
    f_equal. destruct (prettyPrint c && negb (containerFirstEntry c)).
    + destruct Hl1 as (k & -> & _ & Hk). rewrite (Hk eq_refl). reflexivity.
    + destruct Hl1 as [-> _]. reflexivity.
  - intros _. right. exact Hf.
  - intros Ha. apply Hacc2. unfold accepting. simpl.
    destruct Hh1 as (H1 & _). rewrite H1. exact Ha.
Qed.

Lemma endContainer_level c r c' :
  0 < containerLevel c ->
  bsg_ksjsonendContainer c = Some (r, c') ->
  containerLevel c' = containerLevel c - 1.
Proof.
  intros Hpos Heq.
  destruct (isObject_at c (containerLevel c)) as [b|] eqn:Hb.
  - destruct (endContainer_spec b c Hpos Hb) as (r0 & c0 & l & Heq0 & Hh & _).
    rewrite Heq in Heq0. injection Heq0 as <- <-.
    destruct Hh as (_ & _ & _ & Hv & _). exact Hv.
  - unfold bsg_ksjsonendContainer in Heq.
    destruct (containerLevel c <=? 0) eqn:E0; [apply Z.leb_le in E0; lia|].
    rewrite Hb in Heq. discriminate Heq.
Qed.

(** The loop of [bsg_ksjsonendEncode] makes as many calls of
    [bsg_ksjsonendContainer] as there are open containers, up to the first
    that fails. *)
Lemma endEncode_loop_close_containers (n : nat) :
  forall c,
    Z.to_nat (containerLevel c) = n ->
    endEncode_loop BSG_KSJSON_OK c = close_containers n c.
Proof.
  induction n as [|n IH]; intros c Hn; simp endEncode_loop.
  - destruct (decide (0 < containerLevel c)) as [Hpos|Hle]; [lia|reflexivity].
  - destruct (decide (0 < containerLevel c)) as [Hpos|Hle]; [|lia].
    cbn [endEncode_loop_unfold_clause_1]. unfold Logic.inspect.
    assert (Hclause : forall o (e : bsg_ksjsonendContainer c = o),
               endEncode_loop_unfold_clause_1_clause_1 BSG_KSJSON_OK c (o ↾ e) Hpos
               = match o with
                 | Some (BSG_KSJSON_OK, c') => endEncode_loop BSG_KSJSON_OK c'
                 | other => other
                 end).
    { intros [[[] c']|] e; reflexivity. }
    rewrite Hclause. clear Hclause. cbn [close_containers]. unfold and_then.
    destruct (bsg_ksjsonendContainer c) as [[[] c']|] eqn:E; try reflexivity.
    apply IH. rewrite (endContainer_level c _ c' Hpos E). lia.
Qed.

Lemma closing_brackets_S (flags : list bool) (d : nat) (b : bool) :
  flags !! S d = Some b ->
  closing_brackets flags (S d) = closing_bracket b :: closing_brackets flags d.
Proof.
  intros Hb. unfold closing_brackets.
  assert (Hd : drop 1 flags !! d = Some b) by (rewrite lookup_drop; exact Hb).
  rewrite (take_S_r _ _ _ Hd), reverse_snoc. reflexivity.
Qed.

Lemma isObject_at_of_nat c (d : nat) :
  isObject_at c (Z.of_nat d) = isObject c !! d.
Proof.
  unfold isObject_at.
  destruct (Z.of_nat d <? 0) eqn:E; [apply Z.ltb_lt in E; lia|].
  rewrite Nat2Z.id. reflexivity.
Qed.

(** Closing [d] open containers: the brackets come out innermost first;
    after a failure nothing more is closed. *)
Lemma close_containers_spec (d : nat) :
  forall c,
    containerLevel c = Z.of_nat d ->
    (d < List.length (isObject c))%nat ->
    exists r c' l,
      close_containers d c = Some (r, c') /\
      sent c' = sent c ++ l /\
      isObject c' = isObject c /\
      (r = BSG_KSJSON_OK ->
       containerLevel c' = 0 /\
       filter (fun chunk => is_bracket chunk = true) l = closing_brackets (isObject c) d) /\
      (r <> BSG_KSJSON_OK ->
       exists k, (k < d)%nat /\
                 containerLevel c' = Z.of_nat (d - S k) /\
                 (filter (fun chunk => is_bracket chunk = true) l
                  = take k (closing_brackets (isObject c) d) \/
                  filter (fun chunk => is_bracket chunk = true) l
                  = take (S k) (closing_brackets (isObject c) d))) /\
      (accepting c -> r = BSG_KSJSON_OK).
Proof.
  induction d as [|d IH]; intros c Hlevel Hroom.
  - exists BSG_KSJSON_OK, c, []. split; [reflexivity|].
    rewrite app_nil_r. split; [reflexivity|]. split; [reflexivity|].
    split; [intros _; split; [exact Hlevel | reflexivity]|].
    split; [contradiction | reflexivity].
  - destruct (isObject c !! S d) as [b|] eqn:Hb;
      [|apply lookup_ge_None in Hb; lia].
    assert (Hpos : 0 < containerLevel c) by lia.
    assert (Hat : isObject_at c (containerLevel c) = Some b)
      by (rewrite Hlevel, isObject_at_of_nat; exact Hb).
    destruct (endContainer_spec b c Hpos Hat)
      as (r1 & c1 & l1 & Heq1 & Hh1 & Hok1 & Hne1 & Hacc1).
    destruct Hh1 as (Hf1 & Hp1 & Ho1 & Hv1 & Hfl1 & Hs1).
    cbn [isObject containerLevel set_containerFirstEntry set_containerLevel] in Ho1, Hv1.
    rewrite (closing_brackets_S _ _ _ Hb).
    cbn [close_containers]. unfold and_then. rewrite Heq1.
    assert (Hfail : r1 <> BSG_KSJSON_OK ->
              exists r c' l,
                Some (r1, c1) = Some (r, c') /\
                sent c' = sent c ++ l /\
                isObject c' = isObject c /\
                (r = BSG_KSJSON_OK ->
                 containerLevel c' = 0 /\
                 filter (fun chunk => is_bracket chunk = true) l
                 = closing_bracket b :: closing_brackets (isObject c) d) /\
                (r <> BSG_KSJSON_OK ->
                 exists k, (k < S d)%nat /\
                           containerLevel c' = Z.of_nat (S d - S k) /\
                           (filter (fun chunk => is_bracket chunk = true) l
                            = take k (closing_bracket b :: closing_brackets (isObject c) d) \/
                            filter (fun chunk => is_bracket chunk = true) l
                            = take (S k) (closing_bracket b :: closing_brackets (isObject c) d))) /\
                (accepting c -> r = BSG_KSJSON_OK)).
    { intros Hne. exists r1, c1, l1. split; [reflexivity|]. split; [exact Hs1|].
      split; [exact Ho1|]. split; [contradiction|]. split; [|exact Hacc1].
      intros _. exists O. split; [lia|]. split; [lia|].
      destruct (Hne1 Hne) as [-> | ->]; [left | right]; reflexivity. }
    destruct r1; try (apply Hfail; discriminate). clear Hfail.
    destruct (Hok1 eq_refl) as [Hb1 _].
    destruct (IH c1) as (r & c' & l2 & Heq & Hs & Ho & Hok & Hne & Hacc).
    { lia. }
    { rewrite Ho1. lia. }
    exists r, c', (l1 ++ l2). split; [exact Heq|].
    split; [rewrite Hs, Hs1, app_assoc; reflexivity|].
    split; [congruence|].
    rewrite list.filter_app, Hb1, Ho1 in *. cbn [app].
    split; [|split].
    + intros Hr. destruct (Hok Hr) as [Hz Hf]. split; [exact Hz|]. rewrite Hf. reflexivity.
    + intros Hr. destruct (Hne Hr) as (k & Hk & Hz & Hf).
      exists (S k). split; [lia|]. split; [rewrite Hz; f_equal; lia|].
      cbn [take]. destruct Hf as [-> | ->]; [left | right]; reflexivity.
    + intros Ha. apply Hacc. unfold accepting. rewrite Hf1. exact Ha.
Qed.

(** An operation that begins an element and then hands over [value]. *)
Lemma element_then_spec (name : ptr) (nm : list byte) (b : bool) c
    (k : M U status) (value : list byte) :
  isObject_at c (containerLevel c) = Some b ->
  name_for b name nm ->
  (forall c1, addJSONDataFunc c1 = addJSONDataFunc c ->
              prettyPrint c1 = prettyPrint c ->
              runs k c1 c1 (fun r l => (r = BSG_KSJSON_OK -> concat l = value) /\
                                       (accepting c1 -> r = BSG_KSJSON_OK))) ->
  writes_element (bsg_ksjsonbeginElement name ;;; k) c b name nm value.
Proof.
  intros Hb Hname Hk. unfold writes_element.
  eapply runs_and_then; [apply (beginElement_spec name nm b c Hb Hname) | |].
  - intros c1 l1 _ Hh1 (Hcomma & Hout & _).
    pose proof Hh1 as (Hf1 & Hp1 & _).
    eapply runs_conseq; [apply (Hk c1 Hf1 Hp1)|].
    intros r l2 [Hv Hacc]. split; [|split].
    + intros Hfalse. destruct (Hcomma Hfalse) as [l' ->]. eexists. reflexivity.
    + intros Hr. destruct (Hout eq_refl) as [_ Hpre].
      rewrite concat_app, Hpre, (Hv Hr). reflexivity.
    + intros Ha _. apply Hacc. eapply accepting_handed; [eassumption|]. exact Ha.
  - intros r l1 Hne (Hcomma & _ & Hacc). split; [exact Hcomma|]. split; [contradiction|].
    exact Hacc.
Qed.

Lemma addJSONData_value (data : list byte) c1 :
  runs (addJSONData data) c1 c1
       (fun r l => (r = BSG_KSJSON_OK -> concat l = data) /\
                   (accepting c1 -> r = BSG_KSJSON_OK)).
Proof.
  eapply runs_conseq; [apply runs_addJSONData|].
  intros r l [-> Hacc]. split; [|exact Hacc]. intros _. simpl. apply app_nil_r.
Qed.

Lemma addNullElement_spec (name : ptr) (nm : list byte) (b : bool) c :
  isObject_at c (containerLevel c) = Some b ->
  name_for b name nm ->
  writes_element (bsg_ksjsonaddNullElement name) c b name nm (bytes "null").
Proof.
  intros Hb Hname. apply element_then_spec; try assumption.
  intros c1 _ _. apply addJSONData_value.
Qed.

Lemma addBooleanElement_spec (name : ptr) (nm : list byte) (b : bool) (value : bool) c :
  isObject_at c (containerLevel c) = Some b ->
  name_for b name nm ->
  writes_element (bsg_ksjsonaddBooleanElement name value) c b name nm
                 (if value then bytes "true" else bytes "false").
Proof.
  intros Hb Hname. unfold bsg_ksjsonaddBooleanElement.
  apply element_then_spec; try assumption.
  intros c1 _ _. destruct value; apply addJSONData_value.
Qed.

(** A text without NUL is handed over whole. *)
Lemma addJSONData_buff_text (text : list byte) c1 :
  Forall (fun ch => ch <> x00) text ->
  addJSONData_buff (Some text) c1 = addJSONData text c1.
Proof.
  intros Hnul. unfold addJSONData_buff. cbn [mbind option_bind].
  assert (Hlen : strlen_buf (text ++ [x00]) = Some (List.length text)).
  { induction Hnul as [|ch text Hch Hnul IH]; [reflexivity|]. simpl.
    destruct (Byte.eqb ch x00) eqn:E; [apply Byte.byte_dec_bl in E; contradiction|].
    rewrite IH. reflexivity. }
  rewrite Hlen. cbn [mbind option_bind]. rewrite firstn_all. reflexivity.
Qed.

End Machine.

(* ---------------------------------------------------------------------- *)
(** ** The texts of the integer formatters have no NUL *)

Lemma digit_char_not_NUL (v : Z) : digit_char (v mod 10) <> x00.
Proof.
  assert (H : 0 <= v mod 10 < 10) by (apply Z.mod_pos_bound; lia).
  destruct (digit_cases _ H) as [-> | [-> | [-> | [-> | [-> | [-> | [-> | [-> | [-> | ->]]]]]]]]];
    discriminate.
Qed.

Lemma uint64_to_string_loop_no_NUL (index : nat) :
  forall (value : Z) (buff text : list byte),
    uint64_to_string_loop index value buff = Some text ->
    Forall (fun ch => ch <> x00) buff ->
    Forall (fun ch => ch <> x00) text.
Proof.
  induction index as [|index IH]; intros value buff text; cbn [uint64_to_string_loop];
    destruct (value / 10 =? 0); intros Heq Hbuff; try discriminate Heq.
  - injection Heq as <-. constructor; [apply digit_char_not_NUL | assumption].
  - injection Heq as <-. constructor; [apply digit_char_not_NUL | assumption].
  - eapply IH; [eassumption|]. constructor; [apply digit_char_not_NUL | assumption].
Qed.

Lemma uint64_to_string_no_NUL (value : Z) (text : list byte) :
  uint64_to_string value = Some text -> Forall (fun ch => ch <> x00) text.
Proof.
  unfold uint64_to_string. destruct (value =? 0).
  - intros [= <-]. repeat constructor. discriminate.
  - intros H. eapply uint64_to_string_loop_no_NUL; [eassumption | constructor].
Qed.

Lemma int64_to_string_no_NUL (value : Z) (text : list byte) :
  int64_to_string value = Some text -> Forall (fun ch => ch <> x00) text.
Proof.
  unfold int64_to_string. destruct (value <? 0).
  - destruct (uint64_to_string (to_uint64 (neg_int64 value))) as [t|] eqn:E;
      [|discriminate].
    intros [= <-]. constructor; [discriminate|].
    eapply uint64_to_string_no_NUL; eassumption.
  - apply uint64_to_string_no_NUL.
Qed.

(** The table of nybbles holds the upper case hexadecimal digits. *)
Lemma hexNybbles_high (c : byte) :
  bsg_g_hexNybbles !! Z.to_nat (Z.land (Z.shiftr (Z_of_byte c) 4) 15)
  = Some (hex_upper (Z_of_byte c / 16)).
Proof. destruct c; reflexivity. Qed.

Lemma hexNybbles_low (c : byte) :
  bsg_g_hexNybbles !! Z.to_nat (Z.land (Z_of_byte c) 15)
  = Some (hex_upper (Z_of_byte c mod 16)).
Proof. destruct c; reflexivity. Qed.

Section Adders.

Context {U : Type}.
Implicit Types context c : BSG_KSJSONEncodeContext U.

Lemma addJSONData_buff_value (text : list byte) c1 :
  Forall (fun ch => ch <> x00) text ->
  runs (addJSONData_buff (Some text)) c1 c1
       (fun r l => (r = BSG_KSJSON_OK -> concat l = text) /\
                   (accepting c1 -> r = BSG_KSJSON_OK)).
Proof.
  intros Hnul. eapply runs_ext; [apply addJSONData_buff_text; assumption|].
  apply addJSONData_value.
Qed.

Lemma addIntegerElement_spec (name : ptr) (nm : list byte) (b : bool) (value : Z)
    (text : list byte) c :
  isObject_at c (containerLevel c) = Some b ->
  name_for b name nm ->
  int64_to_string value = Some text ->
  writes_element (bsg_ksjsonaddIntegerElement name value) c b name nm text.
Proof.
  intros Hb Hname Htext. unfold bsg_ksjsonaddIntegerElement. rewrite Htext.
  apply element_then_spec; try assumption.
  intros c1 _ _. apply addJSONData_buff_value.
  eapply int64_to_string_no_NUL; eassumption.
Qed.

Lemma addUIntegerElement_spec (name : ptr) (nm : list byte) (b : bool) (value : Z)
    (text : list byte) c :
  isObject_at c (containerLevel c) = Some b ->
  name_for b name nm ->
  uint64_to_string value = Some text ->
  writes_element (bsg_ksjsonaddUIntegerElement name value) c b name nm text.
Proof.
  intros Hb Hname Htext. unfold bsg_ksjsonaddUIntegerElement. rewrite Htext.
  apply element_then_spec; try assumption.
  intros c1 _ _. apply addJSONData_buff_value.
  eapply uint64_to_string_no_NUL; eassumption.
Qed.

Lemma addFloatingPointElement_spec `{Libm} (name : ptr) (nm : list byte) (b : bool)
    (value : double) (text : list byte) c :
  isObject_at c (containerLevel c) = Some b ->
  name_for b name nm ->
  double_to_string value MAX_SIGNIFICANT_DIGITS = Some text ->
  Forall (fun ch => ch <> x00) text ->
  writes_element (bsg_ksjsonaddFloatingPointElement name value) c b name nm text.
Proof.
  intros Hb Hname Htext Hnul. unfold bsg_ksjsonaddFloatingPointElement. rewrite Htext.
  apply element_then_spec; try assumption.
  intros c1 _ _. apply addJSONData_buff_value. assumption.
Qed.

Lemma addStringElement_spec `{Header} (name : ptr) (nm : list byte) (b : bool)
    (value : ptr) (length : N) (input : list byte) c :
  isObject_at c (containerLevel c) = Some b ->
  name_for b name nm ->
  length <> BSG_KSJSON_SIZE_AUTOMATIC ->
  readable value (N.to_nat length) input ->
  writes_element (bsg_ksjsonaddStringElement name value length) c b name nm
                 (QUOTE :: json_escape_string input ++ [QUOTE]).
Proof.
  intros Hb Hname Hauto Hread.
  pose proof Hread as (buf & -> & _).
  unfold bsg_ksjsonaddStringElement.
  apply element_then_spec; try assumption.
  intros c1 _ _.
  apply N.eqb_neq in Hauto.
  eapply runs_ext; [rewrite Hauto; cbn [mbind option_bind]; reflexivity|].
  apply addQuotedEscapedString_spec. assumption.
Qed.

(** With the automatic length the string is measured by [strlen]. *)
Lemma addStringElement_automatic_spec `{Header} (name : ptr) (nm : list byte) (b : bool)
    (value : ptr) (input : list byte) c :
  isObject_at c (containerLevel c) = Some b ->
  name_for b name nm ->
  c_string value input ->
  writes_element (bsg_ksjsonaddStringElement name value BSG_KSJSON_SIZE_AUTOMATIC)
                 c b name nm (QUOTE :: json_escape_string input ++ [QUOTE]).
Proof.
  intros Hb Hname Hcs.
  destruct (c_string_strlen _ _ Hcs) as [Hlen Hread].
  pose proof Hread as (buf & Hv & _). rewrite Hv in *.
  unfold bsg_ksjsonaddStringElement.
  apply element_then_spec; try assumption.
  intros c1 _ _.
  eapply runs_ext;
    [rewrite N.eqb_refl, Hlen; cbn [mbind option_bind]; reflexivity|].
  apply addQuotedEscapedString_spec. assumption.
Qed.

Lemma appendDataElement_loop_spec (remaining : nat) :
  forall (buf : list byte) (i : nat) c,
    (i + remaining <= List.length buf)%nat ->
    runs (appendDataElement_loop remaining (Some buf) i BSG_KSJSON_OK) c c
         (fun r l => (r = BSG_KSJSON_OK ->
                      concat l = hex_string (take remaining (drop i buf))) /\
                     (accepting c -> r = BSG_KSJSON_OK)).
Proof.
  induction remaining as [|remaining IH]; intros buf i c Hlen.
  - exists BSG_KSJSON_OK, c, []. split; [reflexivity|]. split; [apply handed_refl|].
    split; reflexivity.
  - destruct (lookup_take_drop buf i remaining Hlen) as (ch & Hch & Htake).
    eapply runs_ext.
    { cbn [appendDataElement_loop load mbind option_bind]. rewrite Hch.
      cbn [mbind option_bind]. rewrite hexNybbles_high, hexNybbles_low.
      cbn [mbind option_bind]. reflexivity. }
    eapply runs_and_then; [apply runs_addJSONData | |].
    + intros c1 l1 _ Hh1 [-> _].
      eapply runs_conseq; [apply (IH buf (S i) c1); lia|].
      intros r l2 [Hout Hacc]. split.
      * intros Hr. rewrite Htake. cbn [concat app hex_string flat_map].
        rewrite (Hout Hr). reflexivity.
      * intros Ha. apply Hacc. eapply accepting_handed; eassumption.
    + intros r l1 Hne [_ Hacc]. split; [contradiction | exact Hacc].
Qed.

Lemma addDataElement_spec (name : ptr) (nm : list byte) (b : bool)
    (value : ptr) (length : nat) (input : list byte) c :
  isObject_at c (containerLevel c) = Some b ->
  name_for b name nm ->
  readable value length input ->
  writes_element (bsg_ksjsonaddDataElement name value length) c b name nm
                 (QUOTE :: hex_string input ++ [QUOTE]).
Proof.
  intros Hb Hname (buf & -> & Hlen & ->).
  assert (Hk : forall c1,
             runs (addJSONData [QUOTE] ;;;
                   bsg_ksjsonappendDataElement (Some buf) length ;;;
                   bsg_ksjsonendDataElement) c1 c1
                  (fun r l => (r = BSG_KSJSON_OK ->
                               concat l = QUOTE :: hex_string (take length buf) ++ [QUOTE]) /\
                              (accepting c1 -> r = BSG_KSJSON_OK))).
  { intros c1.
    eapply runs_and_then; [apply runs_addJSONData | |].
    - intros c2 l2 _ Hh2 [-> _].
      eapply runs_and_then;
        [apply (appendDataElement_loop_spec length buf 0 c2); lia | |].
      + intros c3 l3 _ Hh3 [Hout _].
        eapply runs_conseq; [apply runs_addJSONData|].
        intros r l [-> Hacc]. split.
        * intros _. rewrite drop_0 in Hout. simpl.
          rewrite concat_app, (Hout eq_refl). simpl. reflexivity.
        * intros Ha. apply Hacc.
          eapply accepting_handed; [eassumption|].
          eapply accepting_handed; eassumption.
      + intros r l3 Hne [_ Hacc]. split; [contradiction|].
        intros Ha. apply Hacc. eapply accepting_handed; eassumption.
    - intros r l2 Hne [_ Hacc]. split; [contradiction | exact Hacc]. }
  unfold writes_element.
  eapply runs_ext with
    (m' := bsg_ksjsonbeginElement name ;;;
           (addJSONData [QUOTE] ;;;
            bsg_ksjsonappendDataElement (Some buf) length ;;;
            bsg_ksjsonendDataElement)).
  { unfold bsg_ksjsonaddDataElement, bsg_ksjsonbeginDataElement,
      bsg_ksjsonbeginStringElement, and_then.
    destruct (bsg_ksjsonbeginElement name c) as [[[] c1]|]; reflexivity. }
  apply element_then_spec; try assumption.
  intros c1 _ _. apply Hk.
Qed.

End Adders.

(* ====================================================================== *)
(** * Raw JSON elements *)
(* ====================================================================== *)

Lemma is_element_start_token_start (c : byte) : is_element_start c = token_start c.
Proof. destruct c; reflexivity. Qed.

(** The skipping loop stops at the first character that is not white
    space, or at the end. *)
Lemma skip_loop_spec (remaining : nat) :
  forall (buf : list byte) (idx : nat),
    (idx + remaining <= List.length buf)%nat ->
    exists k,
      (k <= remaining)%nat /\
      skip_loop remaining (Some buf) idx = Some (idx + k)%nat /\
      match first_non_whitespace (take remaining (drop idx buf)) with
      | Some ch => (k < remaining)%nat /\ buf !! (idx + k)%nat = Some ch
      | None => k = remaining
      end.
Proof.
  induction remaining as [|remaining IH]; intros buf idx Hlen.
  - exists O. split; [lia|]. split; [simpl; f_equal; lia | reflexivity].
  - destruct (lookup_take_drop buf idx remaining Hlen) as (ch & Hch & Htake).
    rewrite Htake. cbn [skip_loop load mbind option_bind first_non_whitespace].
    rewrite Hch. cbn [mbind option_bind].
    destruct (is_skipped ch).
    + destruct (IH buf (S idx)) as (k & Hk & Heq & Hfirst); [lia|].
      exists (S k). split; [lia|]. split; [rewrite Heq; f_equal; lia|].
      destruct (first_non_whitespace (take remaining (drop (S idx) buf))).
      * destruct Hfirst as [Hlt Hl]. split; [lia|].
        replace (idx + S k)%nat with (S idx + k)%nat by lia. exact Hl.
      * lia.
    + exists O. split; [lia|]. split; [f_equal; lia|].
      split; [lia|]. rewrite Nat.add_0_r. exact Hch.
Qed.

Section RawJSON.

Context {U : Type}.
Implicit Types context c : BSG_KSJSONEncodeContext U.

(** What [bsg_ksjsonaddJSONElement] does with a payload, by its first
    character that is not white space. *)
Lemma addJSONElement_cases (name element : ptr) (length : nat) (payload : list byte) c :
  readable element length payload ->
  bsg_ksjsonaddJSONElement name element length c
  = match first_non_whitespace payload with
    | Some ch =>
        if token_start ch
        then (bsg_ksjsonbeginElement name ;;; addJSONData payload) c
        else Some (BSG_KSJSON_ERROR_INVALID_DATA, c)
    | None => Some (BSG_KSJSON_ERROR_INVALID_DATA, c)
    end.
Proof.
  intros (buf & -> & Hlen & ->). unfold bsg_ksjsonaddJSONElement.
  destruct (skip_loop_spec length buf 0 ltac:(simpl; lia)) as (k & Hk & Heq & Hfirst).
  rewrite Heq. cbn [mbind option_bind]. rewrite drop_0 in Hfirst. simpl Nat.add in *.
  destruct (first_non_whitespace (take length buf)) as [ch|].
  - destruct Hfirst as [Hlt Hch].
    destruct (length <=? k)%nat eqn:E; [apply Nat.leb_le in E; lia|].
    cbn [load mbind option_bind]. rewrite Hch. cbn [mbind option_bind].
    rewrite is_element_start_token_start.
    destruct (token_start ch); [|reflexivity].
    unfold and_then, addJSONData_at.
    destruct (bsg_ksjsonbeginElement name c) as [[[] c1]|]; try reflexivity.
    unfold load_bytes. destruct length as [|n]; [lia|].
    destruct (S n <=? List.length buf)%nat eqn:E'; [reflexivity|].
    apply Nat.leb_gt in E'. lia.
  - subst k. rewrite Nat.leb_refl. reflexivity.
Qed.

End RawJSON.

Section RawJSON2.

Context `{Header} `{Libm} {U : Type}.
Implicit Types context c : BSG_KSJSONEncodeContext U.

Lemma addJSONElement_spec (name element : ptr) (length : nat)
    (payload : list byte) (ch : byte) (nm : list byte) (b : bool) c :
  readable element length payload ->
  first_non_whitespace payload = Some ch ->
  token_start ch = true ->
  isObject_at c (containerLevel c) = Some b ->
  name_for b name nm ->
  writes_element (bsg_ksjsonaddJSONElement name element length) c b name nm payload.
Proof.
  intros Hread Hfirst Htoken Hb Hname.
  pose proof (addJSONElement_cases name element length payload c Hread) as Hcases.
  rewrite Hfirst, Htoken in Hcases.
  unfold writes_element. eapply runs_ext; [exact Hcases|].
  apply element_then_spec; try assumption.
  intros c1 _ _. apply addJSONData_value.
Qed.

(** C3 (as amended): when the first character of the payload that is not
    white space is one of the accepted ones, the raw JSON adder does what
    [bsg_ksjsonbeginElement] does and then hands over the payload as it
    is, so that it writes the payload as an element; when that character
    is any other, it returns the invalid-data status and leaves the
    context as it was: nothing is handed to the handler. *)
Theorem addJSONElement_checks_first_character (name element : ptr) (length : nat)
    (payload : list byte) (ch : byte) c :
  readable element length payload ->
  first_non_whitespace payload = Some ch ->
  if token_start ch
  then bsg_ksjsonaddJSONElement name element length c
       = (bsg_ksjsonbeginElement name ;;; addJSONData payload) c /\
       forall b nm,
         isObject_at c (containerLevel c) = Some b ->
         name_for b name nm ->
         writes_element (bsg_ksjsonaddJSONElement name element length) c b name nm payload
  else bsg_ksjsonaddJSONElement name element length c
       = Some (BSG_KSJSON_ERROR_INVALID_DATA, c).
Proof.
  intros Hread Hfirst.
  pose proof (addJSONElement_cases name element length payload c Hread) as Hcases.
  rewrite Hfirst in Hcases.
  destruct (token_start ch) eqn:Htoken; [|exact Hcases].
  split; [exact Hcases|].
  intros b nm Hb Hname. eapply addJSONElement_spec; eassumption.
Qed.

(** Every typed adder writes its value as an element. *)
Lemma typed_adder_writes (name : ptr) (m : M U status) (value : list byte)
    (nm : list byte) (b : bool) c :
  typed_adder name m value ->
  isObject_at c (containerLevel c) = Some b ->
  name_for b name nm ->
  writes_element m c b name nm value.
Proof.
  intros Hm Hb Hname. destruct Hm.
  - apply addBooleanElement_spec; assumption.
  - apply addFloatingPointElement_spec; assumption.
  - apply addIntegerElement_spec; assumption.
  - apply addUIntegerElement_spec; assumption.
  - apply addNullElement_spec; assumption.
  - apply addStringElement_spec; assumption.
  - apply addStringElement_automatic_spec; assumption.
  - apply addNullElement_spec; assumption.
  - eapply addJSONElement_spec; eassumption.
  - apply addNullElement_spec; assumption.
  - apply addDataElement_spec; assumption.
Qed.

End RawJSON2.

(** C3 (counterexample): on the payload [xyz] the status is invalid-data,
    not invalid-character. *)
Lemma addJSONElement_xyz_is_invalid_data :
  let context := bsg_ksjsonbeginEncode (H := header200) false accept_all tt in
  bsg_ksjsonaddJSONElement None (Some (bytes "xyz")) 3 context
  = Some (BSG_KSJSON_ERROR_INVALID_DATA, context) /\
  bsg_ksjsonaddJSONElement None (Some (bytes "xyz")) 3 context
  <> Some (BSG_KSJSON_ERROR_INVALID_CHARACTER, context).
Proof. split; [reflexivity | discriminate]. Qed.

(* ====================================================================== *)
(** * Opening containers *)
(* ====================================================================== *)

Section Containers.

Context {U : Type}.
Implicit Types context c : BSG_KSJSONEncodeContext U.

(** The second half of [bsg_ksjsonbeginArray] and [bsg_ksjsonbeginObject]:
    one level up, the kind of the container stored at the new level, the
    first-entry flag set, and the bracket handed over. *)
Lemma push_spec (object : bool) c :
  0 <= containerLevel c ->
  (Z.to_nat (containerLevel c + 1) < List.length (isObject c))%nat ->
  exists r c',
    (let context := set_containerLevel (containerLevel c + 1) c in
     context ← isObject_store (containerLevel context) object context;
     addJSONData (if object then bytes "{" else bytes "[")
                 (set_containerFirstEntry true context)) = Some (r, c') /\
    addJSONDataFunc c' = addJSONDataFunc c /\
    prettyPrint c' = prettyPrint c /\
    isObject c' = <[Z.to_nat (containerLevel c + 1) := object]> (isObject c) /\
    containerLevel c' = containerLevel c + 1 /\
    containerFirstEntry c' = true /\
    sent c' = sent c ++ [if object then bytes "{" else bytes "["] /\
    (accepting c -> r = BSG_KSJSON_OK).
Proof.
  intros Hlevel Hroom. cbv zeta. unfold isObject_store.
  cbn [containerLevel isObject set_containerLevel].
  destruct (0 <=? containerLevel c + 1) eqn:E1; [|apply Z.leb_gt in E1; lia].
  destruct (Z.to_nat (containerLevel c + 1) <? List.length (isObject c))%nat eqn:E2;
    [|apply Nat.ltb_ge in E2; lia].
  cbn [andb mbind option_bind].
  match goal with
  | |- context [addJSONData ?d ?c0] =>
      destruct (addJSONData_spec d c0) as (r & c' & Heq & Hh & Hacc)
  end.
  exists r, c'. split; [exact Heq|].
  destruct Hh as (H1 & H2 & H3 & H4 & H5 & H6). simpl in *.
  repeat split; try assumption.
Qed.

Lemma beginContainer_spec (object : bool) (name : ptr) (nm : list byte) (b : bool) c :
  0 <= containerLevel c ->
  isObject_at c (containerLevel c) = Some b ->
  name_for b name nm ->
  (Z.to_nat (containerLevel c + 1) < List.length (isObject c))%nat ->
  exists r c' l,
    (if object then bsg_ksjsonbeginObject name else bsg_ksjsonbeginArray name) c
    = Some (r, c') /\
    sent c' = sent c ++ l /\
    addJSONDataFunc c' = addJSONDataFunc c /\
    prettyPrint c' = prettyPrint c /\
    (containerFirstEntry c = false -> exists l', l = bytes "," :: l') /\
    (r = BSG_KSJSON_OK ->
     containerLevel c' = containerLevel c + 1 /\
     isObject c' = <[Z.to_nat (containerLevel c + 1) := object]> (isObject c) /\
     containerFirstEntry c' = true /\
     concat l = element_prefix c b nm ++ (if object then bytes "{" else bytes "[")) /\
    (accepting c -> (b = true -> name <> None) -> r = BSG_KSJSON_OK).
Proof.
  intros Hlevel Hb Hname Hroom.
  destruct (beginElement_spec name nm b c Hb Hname)
    as (r1 & c1 & l1 & Heq1 & Hh1 & Hcomma & Hout & Hacc1).
  destruct Hh1 as (Hf1 & Hp1 & Ho1 & Hv1 & Hfl1 & Hs1).
  cbn [addJSONDataFunc prettyPrint isObject containerLevel sent
       set_containerFirstEntry] in Hf1, Hp1, Ho1, Hv1, Hs1.
  assert (Hunfold :
            (if object then bsg_ksjsonbeginObject name else bsg_ksjsonbeginArray name) c
            = match bsg_ksjsonbeginElement name c with
              | Some (BSG_KSJSON_OK, c1) =>
                  let context := set_containerLevel (containerLevel c1 + 1) c1 in
                  context ← isObject_store (containerLevel context) object context;
                  addJSONData (if object then bytes "{" else bytes "[")
                              (set_containerFirstEntry true context)
              | other => other
              end).
  { assert (E : (0 <=? containerLevel c) = true) by (apply Z.leb_le; lia).
    destruct object; unfold bsg_ksjsonbeginObject, bsg_ksjsonbeginArray, and_then;
      rewrite E; reflexivity. }
  rewrite Hunfold, Heq1.
  destruct r1;
    try (eexists _, c1, l1; split; [reflexivity|]; split; [exact Hs1|];
         split; [exact Hf1|]; split; [exact Hp1|]; split; [exact Hcomma|];
         split; [discriminate | exact Hacc1]).
  destruct (push_spec object c1) as (r & c' & Heq & H1 & H2 & H3 & H4 & H5 & H6 & Hacc).
  { lia. }
  { rewrite Hv1, Ho1. exact Hroom. }
  destruct (Hout eq_refl) as [_ Hpre].
  exists r, c', (l1 ++ [if object then bytes "{" else bytes "["]).
  split; [exact Heq|].
  split; [rewrite H6, Hs1, app_assoc; reflexivity|].
  split; [congruence|]. split; [congruence|].
  split; [intros Hfalse; destruct (Hcomma Hfalse) as [l' ->]; eexists; reflexivity|].
  split.
  - intros _. split; [congruence|]. split; [rewrite H3, Hv1, Ho1; reflexivity|].
    split; [exact H5|]. rewrite concat_app, Hpre. simpl. rewrite app_nil_r. reflexivity.
  - intros Ha _. apply Hacc. unfold accepting. rewrite Hf1. exact Ha.
Qed.

End Containers.

(* ====================================================================== *)
(** * An object with one integer *)
(* ====================================================================== *)

Lemma name_for_array (name : ptr) (nm : list byte) : name_for false name nm.
Proof. unfold name_for. discriminate. Qed.

Lemma name_for_cstr (b : bool) (s : string) :
  Forall (fun ch => ch <> x00) (bytes s) -> name_for b (cstr s) (bytes s).
Proof. intros Hs _. right. exists []. split; [reflexivity | exact Hs]. Qed.

(** C1: on a context fresh from [bsg_ksjsonbeginEncode], with an
    [isObject] array of at least two entries and a handler that accepts
    what it is given, the calls beginObject(NULL), addInteger(x, 5) and
    endContainer() all return OK, and the bytes handed to the handler are,
    in order, those of the compact text of the object in compact mode, and
    in pretty mode the brace, a new line, four spaces, the quoted name, a
    colon, a space, the digit, a new line and the closing brace. *)
Theorem object_with_integer_output `{Header} {U : Type}
    (handler : list byte -> U -> status * U) (user : U) (pretty : bool) :
  (2 <= isObject_size)%nat ->
  (forall data u, (handler data u).1 = BSG_KSJSON_OK) ->
  exists context',
    calls [bsg_ksjsonbeginObject None;
           bsg_ksjsonaddIntegerElement (cstr "x") 5;
           bsg_ksjsonendContainer]
          (bsg_ksjsonbeginEncode pretty handler user)
    = Some ([BSG_KSJSON_OK; BSG_KSJSON_OK; BSG_KSJSON_OK], context') /\
    output context'
    = if pretty
      then bytes "{" ++ x0a :: bytes "    " ++
           QUOTE :: bytes "x" ++ QUOTE :: bytes ": 5" ++ x0a :: bytes "}"
      else bytes "{" ++ QUOTE :: bytes "x" ++ QUOTE :: bytes ":5}".
Proof.
  intros Hsize Haccept.
  set (c0 := bsg_ksjsonbeginEncode pretty handler user).
  assert (Ha0 : accepting c0) by exact Haccept.
  (* beginObject(NULL) *)
  destruct (beginContainer_spec true None [] false c0)
    as (r1 & c1 & l1 & Heq1 & Hs1 & Hf1 & Hp1 & _ & Hok1 & Hacc1).
  { simpl. lia. }
  { unfold isObject_at. simpl. apply lookup_replicate_2. lia. }
  { apply name_for_array. }
  { simpl. rewrite length_replicate. lia. }
  assert (Hr1 : r1 = BSG_KSJSON_OK) by (apply Hacc1; [exact Ha0 | discriminate]).
  subst r1. destruct (Hok1 eq_refl) as (Hv1 & Ho1 & Hfl1 & Hc1).
  change (containerLevel c0 + 1) with 1 in Hv1, Ho1.
  change (Z.to_nat 1) with 1%nat in Ho1.
  change (isObject c0) with (replicate isObject_size false) in Ho1.
  assert (Ha1 : accepting c1) by (unfold accepting; rewrite Hf1; exact Ha0).
  (* addInteger(x, 5) *)
  destruct (addIntegerElement_spec (cstr "x") (bytes "x") true 5 (bytes "5") c1)
    as (r2 & c2 & l2 & Heq2 & Hh2 & _ & Hok2 & Hacc2).
  { rewrite Hv1. change 1 with (Z.of_nat 1). rewrite isObject_at_of_nat, Ho1.
    apply list_lookup_insert_eq. rewrite length_replicate. lia. }
  { apply name_for_cstr. repeat constructor. discriminate. }
  { reflexivity. }
  assert (Hr2 : r2 = BSG_KSJSON_OK) by (apply Hacc2; [exact Ha1 | discriminate]).
  subst r2. specialize (Hok2 eq_refl).
  destruct Hh2 as (Hf2 & Hp2 & Ho2 & Hv2 & Hfl2 & Hs2).
  cbn [addJSONDataFunc prettyPrint isObject containerLevel containerFirstEntry sent
       set_containerFirstEntry] in Hf2, Hp2, Ho2, Hv2, Hfl2, Hs2.
  assert (Ha2 : accepting c2) by (unfold accepting; rewrite Hf2; exact Ha1).
  (* endContainer() *)
  destruct (endContainer_spec true c2)
    as (r3 & c3 & l3 & Heq3 & Hh3 & Hok3 & _ & Hacc3).
  { lia. }
  { rewrite Hv2, Hv1. change 1 with (Z.of_nat 1).
    rewrite isObject_at_of_nat, Ho2, Ho1.
    apply list_lookup_insert_eq. rewrite length_replicate. lia. }
  assert (Hr3 : r3 = BSG_KSJSON_OK) by (apply Hacc3; exact Ha2).
  subst r3. destruct (Hok3 eq_refl) as [_ Hc3].
  destruct Hh3 as (_ & _ & _ & _ & _ & Hs3).
  cbn [sent set_containerFirstEntry set_containerLevel] in Hs3.
  exists c3. split.
  - cbn [calls mbind option_bind]. rewrite Heq1. cbn [mbind option_bind].
    rewrite Heq2. cbn [mbind option_bind]. rewrite Heq3. reflexivity.
  - unfold output. rewrite Hs3, Hs2, Hs1. change (sent c0) with (@nil (list byte)).
    rewrite !concat_app, Hc1, Hok2, Hc3. unfold element_prefix.
    rewrite Hfl1, Hfl2, Hp2, Hp1, Hv2, Hv1.
    change (prettyPrint c0) with pretty.
    change (containerFirstEntry c0) with true.
    change (containerLevel c0) with 0.
    destruct pretty; reflexivity.
Qed.

(* ====================================================================== *)
(** * Values at the root of the document *)
(* ====================================================================== *)

Section Root.

Context `{Header} `{Libm} {U : Type}.
Implicit Types context c : BSG_KSJSONEncodeContext U.

Lemma output_handed c c' l : handed c c' l -> output c' = output c ++ concat l.
Proof. intros (_ & _ & _ & _ & _ & Hs). unfold output. rewrite Hs. apply concat_app. Qed.

Lemma element_prefix_second_root c (nm : list byte) :
  containerLevel c = 0 ->
  containerFirstEntry c = false ->
  element_prefix c false nm = bytes ",".
Proof.
  intros Hv Hf. unfold element_prefix. rewrite Hv, Hf. simpl.
  rewrite andb_false_r. reflexivity.
Qed.

(** A typed adder called at the root leaves the encoder at the root, with
    the first-entry flag false. *)
Lemma typed_adder_at_root (name : ptr) (m : M U status) (value : list byte) c :
  containerLevel c = 0 ->
  isObject_at c 0 = Some false ->
  typed_adder name m value ->
  exists r c',
    m c = Some (r, c') /\
    containerLevel c' = 0 /\
    containerFirstEntry c' = false /\
    isObject_at c' 0 = Some false.
Proof.
  intros Hv Hroot Hm.
  destruct (typed_adder_writes name m value [] false c Hm)
    as (r & c' & l & Heq & Hh & _).
  { rewrite Hv. exact Hroot. }
  { apply name_for_array. }
  destruct Hh as (_ & _ & Ho & Hv' & Hf' & _). simpl in Ho, Hv', Hf'.
  exists r, c'. split; [exact Heq|]. split; [congruence|]. split; [exact Hf'|].
  unfold isObject_at in *. rewrite Ho. exact Hroot.
Qed.

(** A container opened at the root and closed again leaves the encoder at
    the root, with the first-entry flag false. *)
Lemma container_at_root (object : bool) (name : ptr) c c1 r c2 :
  containerLevel c = 0 ->
  isObject_at c 0 = Some false ->
  (1 < List.length (isObject c))%nat ->
  (if object then bsg_ksjsonbeginObject name else bsg_ksjsonbeginArray name) c
  = Some (BSG_KSJSON_OK, c1) ->
  bsg_ksjsonendContainer c1 = Some (r, c2) ->
  containerLevel c2 = 0 /\
  containerFirstEntry c2 = false /\
  isObject_at c2 0 = Some false.
Proof.
  intros Hv Hroot Hroom Hbegin Hend.
  destruct (beginContainer_spec object name [] false c)
    as (r1 & c1' & l1 & Heq1 & _ & _ & _ & _ & Hok1 & _).
  { lia. }
  { rewrite Hv. exact Hroot. }
  { apply name_for_array. }
  { rewrite Hv. simpl. exact Hroom. }
  rewrite Hbegin in Heq1. injection Heq1 as <- <-.
  destruct (Hok1 eq_refl) as (Hv1 & Ho1 & _ & _).
  rewrite Hv in Hv1, Ho1. change (Z.to_nat (0 + 1)) with 1%nat in Ho1.
  change (0 + 1) with 1 in Hv1.
  destruct (endContainer_spec object c1) as (r2 & c2' & l2 & Heq2 & Hh2 & _).
  { lia. }
  { rewrite Hv1. change 1 with (Z.of_nat 1). rewrite isObject_at_of_nat, Ho1.
    apply list_lookup_insert_eq. exact Hroom. }
  rewrite Hend in Heq2. injection Heq2 as <- <-.
  destruct Hh2 as (_ & _ & Ho2 & Hv2 & Hf2 & _). simpl in Ho2, Hv2, Hf2.
  split; [lia|]. split; [exact Hf2|].
  unfold isObject_at in *. simpl in *. rewrite Ho2, Ho1.
  rewrite list_lookup_insert_ne by lia. exact Hroot.
Qed.

(** C9: at the root, once an element has been written there (the level is
    0 and the first-entry flag is false), opening a container or calling a
    typed adder does not fail by itself: whatever the handler answers, the
    first run handed over is a comma; when the call returns OK the bytes
    handed over are the comma followed by the bracket, or by the text of
    the value; and with a handler that accepts everything the call does
    return OK. *)
Theorem second_root_value_is_preceded_by_comma (name : ptr) c :
  containerLevel c = 0 ->
  containerFirstEntry c = false ->
  isObject_at c 0 = Some false ->
  (1 < List.length (isObject c))%nat ->
  (forall object : bool,
      exists r c' l,
        (if object then bsg_ksjsonbeginObject name else bsg_ksjsonbeginArray name) c
        = Some (r, c') /\
        sent c' = sent c ++ bytes "," :: l /\
        (r = BSG_KSJSON_OK ->
         containerLevel c' = 1 /\
         output c' = output c ++ bytes "," ++ (if object then bytes "{" else bytes "[")) /\
        (accepting c -> r = BSG_KSJSON_OK)) /\
  (forall m value,
      typed_adder name m value ->
      exists r c' l,
        m c = Some (r, c') /\
        sent c' = sent c ++ bytes "," :: l /\
        containerLevel c' = 0 /\
        (r = BSG_KSJSON_OK -> output c' = output c ++ bytes "," ++ value) /\
        (accepting c -> r = BSG_KSJSON_OK)).
Proof.
  intros Hv Hf Hroot Hroom. split.
  - intros object.
    destruct (beginContainer_spec object name [] false c)
      as (r & c' & l & Heq & Hs & _ & _ & Hcomma & Hok & Hacc).
    { lia. }
    { rewrite Hv. exact Hroot. }
    { apply name_for_array. }
    { rewrite Hv. simpl. exact Hroom. }
    destruct (Hcomma Hf) as [l' ->].
    exists r, c', l'. split; [exact Heq|]. split; [exact Hs|]. split.
    + intros Hr. destruct (Hok Hr) as (Hv' & _ & _ & Hc). split; [lia|].
      unfold output. rewrite Hs, concat_app, Hc.
      rewrite (element_prefix_second_root c [] Hv Hf). reflexivity.
    + intros Ha. apply Hacc; [exact Ha | discriminate].
  - intros m value Hm.
    destruct (typed_adder_writes name m value [] false c Hm)
      as (r & c' & l & Heq & Hh & Hcomma & Hok & Hacc).
    { rewrite Hv. exact Hroot. }
    { apply name_for_array. }
    destruct (Hcomma Hf) as [l' ->].
    exists r, c', l'. split; [exact Heq|].
    pose proof (output_handed _ _ _ Hh) as Hout.
    destruct Hh as (_ & _ & _ & Hv' & _ & Hs). simpl in Hv', Hs.
    split; [exact Hs|]. split; [congruence|]. split.
    + intros Hr. rewrite Hout, (Hok Hr).
      rewrite (element_prefix_second_root c [] Hv Hf). reflexivity.
    + intros Ha. apply Hacc; [exact Ha | discriminate].
Qed.

End Root.

(* ====================================================================== *)
(** * The claims on the escaper *)
(* ====================================================================== *)

(** C6: on [length] readable bytes the escaper returns; when it returns
    OK, the bytes handed to the handler are the escapes of the input
    bytes, one after the other: a backslash in front of a backslash or a
    double quote, the two-character escapes of backspace, form feed, new
    line, carriage return and tab, [\u00XX] in upper case for the other
    bytes below 0x20, and every other byte as it is; and it does return OK
    when the handler accepts everything. *)
Theorem escaper_maps_each_byte {U : Type} (string : ptr) (length : nat)
    (input : list byte) (context : BSG_KSJSONEncodeContext U) :
  readable string length input ->
  exists r context',
    bsg_ksjsoncodec_i_addEscapedString string length context = Some (r, context') /\
    (r = BSG_KSJSON_OK ->
     output context' = output context ++ flat_map json_escape input) /\
    (accepting context -> r = BSG_KSJSON_OK).
Proof.
  intros Hread.
  destruct (addEscapedString_spec string length input context Hread)
    as (r & c' & l & Heq & Hh & _ & Hout & Hacc).
  exists r, c'. split; [exact Heq|]. split; [|exact Hacc].
  intros Hr. rewrite (output_handed _ _ _ Hh), (Hout Hr). reflexivity.
Qed.

(** C7: the wrapper cuts its input in slices of at most the size of the
    work buffer; the second loop of the escaper, which hands the buffer
    over before a byte whenever fewer than 6 bytes of it are free, returns
    from whatever fill of the buffer it starts with; and on readable input
    of any length, whatever the handler answers, the escaper returns: no
    write lands outside the work buffer, which would leave it without a
    result; every run of bytes it hands to the handler fits the work
    buffer. *)
Theorem escaper_stays_inside_work_buffer {U : Type} (string : ptr) (length : nat)
    (input : list byte) (context : BSG_KSJSONEncodeContext U) :
  readable string length input ->
  (forall len offset, (toAdd len offset <= BSG_KSJSONCODEC_WorkBufferSize)%nat) /\
  (forall (remaining : nat) (buf : list byte) (src : nat) (dst : list byte),
      (src + remaining <= List.length buf)%nat ->
      (List.length dst <= BSG_KSJSONCODEC_WorkBufferSize)%nat ->
      exists r context',
        complicated_case remaining (Some buf) src dst context = Some (r, context')) /\
  exists r context' l,
    bsg_ksjsoncodec_i_addEscapedString string length context = Some (r, context') /\
    sent context' = sent context ++ l /\
    Forall (fun chunk => (List.length chunk <= BSG_KSJSONCODEC_WorkBufferSize)%nat) l.
Proof.
  intros Hread. split; [|split].
  - intros len offset. unfold toAdd.
    destruct (BSG_KSJSONCODEC_WorkBufferSize <? len - offset)%nat eqn:E;
      [lia | apply Nat.ltb_ge in E; lia].
  - intros remaining buf src dst Hsrc Hdst.
    destruct (complicated_case_spec remaining buf src dst context Hsrc Hdst)
      as (r & c' & l & Heq & _).
    exists r, c'. exact Heq.
  - destruct (addEscapedString_spec string length input context Hread)
      as (r & c' & l & Heq & Hh & Hf & _).
    exists r, c', l. split; [exact Heq|].
    destruct Hh as (_ & _ & _ & _ & _ & Hs). split; [exact Hs | exact Hf].
Qed.

(** Without the wrapper, a portion longer than the work buffer overruns
    it in the first loop. *)
Example appendEscapedString_overrun :
  bsg_ksjsoncodec_i_appendEscapedString
    (Some (replicate 513 "a"%byte)) 513
    (bsg_ksjsonbeginEncode (H := header200) false accept_all tt)
  = None.
Proof. vm_compute. reflexivity. Qed.

(** The examples of the escapes: a double quote inside a word, a tab, and
    the byte 0x01. *)
Example escaped_examples :
  let escaped (input : list byte) :=
    (fun rc => output rc.2)
      <$> bsg_ksjsoncodec_i_addEscapedString
            (Some input) (List.length input)
            (bsg_ksjsonbeginEncode (H := header200) false accept_all tt) in
  escaped ("a"%byte :: QUOTE :: bytes "b") = Some ("a"%byte :: "\"%byte :: QUOTE :: bytes "b") /\
  escaped [x09] = Some (bytes "\t") /\
  escaped [x01] = Some (bytes "\u0001").
Proof. vm_compute. repeat split. Qed.

(* ====================================================================== *)
(** * The claims on closing containers *)
(* ====================================================================== *)

(** C8: with [d] open containers, all inside the [isObject] array,
    [bsg_ksjsonendEncode] makes the calls of [bsg_ksjsonendContainer] that
    [d] closes in a row make, stopping at the first that does not return
    OK and returning its status.  It always returns.  When it returns OK
    the level is 0 and the brackets handed to the handler are those of the
    levels [d], [d-1], ..., [1] in this order.  When it returns a failure,
    [k] containers were closed before the close that failed, the level is
    left at [d - (k+1)], and the brackets handed over are the first [k],
    or [k+1], of that list: nothing was closed after the failure.  With a
    handler that accepts everything it returns OK. *)
Theorem endEncode_closes_all_lifo {U : Type} (context : BSG_KSJSONEncodeContext U)
    (d : nat) :
  containerLevel context = Z.of_nat d ->
  (d < List.length (isObject context))%nat ->
  bsg_ksjsonendEncode context = close_containers d context /\
  exists r context' l,
    bsg_ksjsonendEncode context = Some (r, context') /\
    sent context' = sent context ++ l /\
    (r = BSG_KSJSON_OK ->
     containerLevel context' = 0 /\
     filter (fun chunk => is_bracket chunk = true) l
     = closing_brackets (isObject context) d) /\
    (r <> BSG_KSJSON_OK ->
     exists k, (k < d)%nat /\
               containerLevel context' = Z.of_nat (d - S k) /\
               (filter (fun chunk => is_bracket chunk = true) l
                = take k (closing_brackets (isObject context) d) \/
                filter (fun chunk => is_bracket chunk = true) l
                = take (S k) (closing_brackets (isObject context) d))) /\
    (accepting context -> r = BSG_KSJSON_OK).
Proof.
  intros Hlevel Hroom.
  assert (Heq : bsg_ksjsonendEncode context = close_containers d context).
  { unfold bsg_ksjsonendEncode. apply endEncode_loop_close_containers.
    rewrite Hlevel. apply Nat2Z.id. }
  split; [exact Heq|]. rewrite Heq.
  destruct (close_containers_spec d context Hlevel Hroom)
    as (r & c' & l & Hrun & Hs & _ & Hok & Hne & Hacc).
  exists r, c', l. auto.
Qed.

Section Entries.

Context `{Header} `{Libm} {U : Type}.
Implicit Types context c : BSG_KSJSONEncodeContext U.

Lemma entries_invariant_fresh (pretty : bool) (handler : list byte -> U -> status * U)
    (user : U) :
  entries_invariant (bsg_ksjsonbeginEncode pretty handler user) [O].
Proof. repeat split. constructor. Qed.

(** A typed adder that returns OK has written one more element. *)
Lemma typed_adder_entries (name : ptr) (nm : list byte) (b : bool)
    (m : M U status) (value : list byte) (n : nat) (entries : list nat) c c' :
  entries_invariant c (n :: entries) ->
  isObject_at c (containerLevel c) = Some b ->
  name_for b name nm ->
  typed_adder name m value ->
  m c = Some (BSG_KSJSON_OK, c') ->
  entries_invariant c' (S n :: entries).
Proof.
  intros (Hlen & _ & Hparents) Hb Hname Hm Hrun.
  destruct (typed_adder_writes name m value nm b c Hm Hb Hname)
    as (r & c'' & l & Heq & Hh & _).
  rewrite Hrun in Heq. injection Heq as <- <-.
  destruct Hh as (_ & _ & _ & Hv & Hf & _). simpl in Hv, Hf.
  split; [rewrite Hv; exact Hlen|]. split; [|exact Hparents].
  rewrite Hf. simpl. split; discriminate.
Qed.

(** The opening of a container that returns OK has written one more
    element, inside which nothing is written yet. *)
Lemma beginContainer_entries (object : bool) (name : ptr) (nm : list byte) (b : bool)
    (n : nat) (entries : list nat) c c' :
  entries_invariant c (n :: entries) ->
  isObject_at c (containerLevel c) = Some b ->
  name_for b name nm ->
  (Z.to_nat (containerLevel c + 1) < List.length (isObject c))%nat ->
  (if object then bsg_ksjsonbeginObject name else bsg_ksjsonbeginArray name) c
  = Some (BSG_KSJSON_OK, c') ->
  entries_invariant c' (O :: S n :: entries).
Proof.
  intros (Hlen & _ & Hparents) Hb Hname Hroom Hrun.
  destruct (beginContainer_spec object name nm b c)
    as (r & c'' & l & Heq & _ & _ & _ & _ & Hok & _); try assumption.
  { simpl in Hlen. lia. }
  rewrite Hrun in Heq. injection Heq as <- <-.
  destruct (Hok eq_refl) as (Hv & _ & Hf & _).
  split; [rewrite Hv; simpl in *; lia|]. split.
  - rewrite Hf. simpl. tauto.
  - simpl. constructor; [lia | exact Hparents].
Qed.

(** The closing of a container goes back to its parent, in which the
    container is an element. *)
Lemma endContainer_entries (b : bool) (n p : nat) (entries : list nat) c r c' :
  entries_invariant c (n :: p :: entries) ->
  isObject_at c (containerLevel c) = Some b ->
  bsg_ksjsonendContainer c = Some (r, c') ->
  entries_invariant c' (p :: entries).
Proof.
  intros (Hlen & _ & Hparents) Hb Hrun.
  assert (Hpos : 0 < containerLevel c) by (simpl in Hlen; lia).
  destruct (endContainer_spec b c Hpos Hb) as (r0 & c'' & l & Heq & Hh & _).
  rewrite Hrun in Heq. injection Heq as <- <-.
  destruct Hh as (_ & _ & _ & Hv & Hf & _). simpl in Hv, Hf.
  simpl in Hparents. inversion Hparents as [|? ? Hp Hrest]; subst.
  split; [rewrite Hv; simpl in *; lia|]. split; [|exact Hrest].
  rewrite Hf. simpl. split; [discriminate | lia].
Qed.

End Entries.

(** C10: a call of [bsg_ksjsonendContainer] on an open container that is
    inside the [isObject] array returns, whatever the handler answers; it
    leaves the level one lower and the first-entry flag false.  This keeps
    the flag true exactly when nothing has been written in the innermost
    open container: the closed container is an element of its parent, so
    the invariant on the elements written holds again with the parent
    innermost.  And the element that is written next, in the parent, is
    preceded by a comma: the first run that [bsg_ksjsonbeginElement], a
    typed adder, or the opening of a container hands to the handler is a
    comma. *)
Theorem endContainer_leaves_first_entry_false `{Header} `{Libm} {U : Type}
    (context : BSG_KSJSONEncodeContext U) (b : bool) :
  0 < containerLevel context ->
  isObject_at context (containerLevel context) = Some b ->
  exists r context',
    bsg_ksjsonendContainer context = Some (r, context') /\
    containerLevel context' = containerLevel context - 1 /\
    containerFirstEntry context' = false /\
    (forall (n p : nat) (entries : list nat),
        entries_invariant context (n :: p :: entries) ->
        entries_invariant context' (p :: entries)) /\
    forall (name : ptr) (nm : list byte) (b' : bool),
      isObject_at context' (containerLevel context') = Some b' ->
      name_for b' name nm ->
      (exists r2 c2 l,
          bsg_ksjsonbeginElement name context' = Some (r2, c2) /\
          sent c2 = sent context' ++ bytes "," :: l) /\
      (forall m value,
          typed_adder name m value ->
          exists r2 c2 l,
            m context' = Some (r2, c2) /\ sent c2 = sent context' ++ bytes "," :: l) /\
      (forall object : bool,
          exists r2 c2 l,
            (if object then bsg_ksjsonbeginObject name else bsg_ksjsonbeginArray name)
              context' = Some (r2, c2) /\
            sent c2 = sent context' ++ bytes "," :: l).
Proof.
  intros Hpos Hb.
  destruct (endContainer_spec b context Hpos Hb) as (r & c' & l & Heq & Hh & _).
  destruct Hh as (_ & _ & Ho & Hv & Hf & _). simpl in Ho, Hv, Hf.
  exists r, c'. split; [exact Heq|]. split; [exact Hv|]. split; [exact Hf|].
  split; [intros n p entries Hinv; exact (endContainer_entries b n p entries _ _ _ Hinv Hb Heq)|].
  intros name nm b' Hb' Hname. split; [|split].
  - destruct (beginElement_spec name nm b' c' Hb' Hname)
      as (r2 & c2 & l2 & Heq2 & Hh2 & Hcomma & _).
    destruct (Hcomma Hf) as [l' ->].
    destruct Hh2 as (_ & _ & _ & _ & _ & Hs). exists r2, c2, l'. auto.
  - intros m value Hm.
    destruct (typed_adder_writes name m value nm b' c' Hm Hb' Hname)
      as (r2 & c2 & l2 & Heq2 & Hh2 & Hcomma & _).
    destruct (Hcomma Hf) as [l' ->].
    destruct Hh2 as (_ & _ & _ & _ & _ & Hs). exists r2, c2, l'. auto.
  - intros object.
    destruct (beginContainer_spec object name nm b' c')
      as (r2 & c2 & l2 & Heq2 & Hs & _ & _ & Hcomma & _); try assumption.
    { lia. }
    { rewrite Ho, Hv. replace (containerLevel context - 1 + 1) with (containerLevel context) by lia.
      unfold isObject_at in Hb.
      destruct (containerLevel context <? 0); [discriminate|].
      apply lookup_lt_Some in Hb. exact Hb. }
    destruct (Hcomma Hf) as [l' ->]. exists r2, c2, l'. auto.
Qed.

(* ====================================================================== *)
(** * Null values *)
(* ====================================================================== *)

(** The string adder and the raw JSON adder, given a null value, are the
    null adder. *)
Lemma addStringElement_null `{Header} {U : Type} (name : ptr) (length : N)
    (context : BSG_KSJSONEncodeContext U) :
  bsg_ksjsonaddStringElement name None length context
  = bsg_ksjsonaddNullElement name context.
Proof. reflexivity. Qed.

Lemma addJSONElement_null {U : Type} (name : ptr) (length : nat)
    (context : BSG_KSJSONEncodeContext U) :
  bsg_ksjsonaddJSONElement name None length context
  = bsg_ksjsonaddNullElement name context.
Proof. reflexivity. Qed.

(** C4 (the code at the value on which it departs from the claim): the
    data adder does not look for a null value.  Given one of length 0 on
    a fresh context it writes an empty string, where the null adder writes
    [null]; given one of a length that is not 0 it reads through the null
    pointer, which has no result. *)
Theorem addDataElement_null_is_not_addNull :
  let context := bsg_ksjsonbeginEncode (H := header200) false accept_all tt in
  ((fun rc => (rc.1, output rc.2)) <$> bsg_ksjsonaddNullElement None context)
  = Some (BSG_KSJSON_OK, bytes "null") /\
  ((fun rc => (rc.1, output rc.2)) <$> bsg_ksjsonaddDataElement None None 0 context)
  = Some (BSG_KSJSON_OK, [QUOTE; QUOTE]) /\
  bsg_ksjsonaddDataElement None None 1 context = None.
Proof. vm_compute. repeat split. Qed.

(* ====================================================================== *)
(** * Runs of the encoder *)
(* ====================================================================== *)

(** An array of two elements, in compact mode. *)
Example array_of_two_elements :
  (fun rc => (rc.1, output rc.2))
    <$> calls [bsg_ksjsonbeginArray None;
               bsg_ksjsonaddBooleanElement None true;
               bsg_ksjsonaddNullElement None;
               bsg_ksjsonendContainer]
              (bsg_ksjsonbeginEncode (H := header200) false accept_all tt)
  = Some ([BSG_KSJSON_OK; BSG_KSJSON_OK; BSG_KSJSON_OK; BSG_KSJSON_OK],
          bytes "[true,null]").
Proof. vm_compute. reflexivity. Qed.

(** Two containers left open are closed by [bsg_ksjsonendEncode], the
    inner array first. *)
Example endEncode_two_open_containers :
  (fun rc => (rc.1, output rc.2, containerLevel rc.2))
    <$> calls [bsg_ksjsonbeginObject None;
               bsg_ksjsonbeginArray (cstr "a");
               bsg_ksjsonendEncode]
              (bsg_ksjsonbeginEncode (H := header200) false accept_all tt)
  = Some ([BSG_KSJSON_OK; BSG_KSJSON_OK; BSG_KSJSON_OK],
          bytes "{" ++ QUOTE :: bytes "a" ++ QUOTE :: bytes ":[]}", 0).
Proof. vm_compute. reflexivity. Qed.

(** With a handler that refuses the second bracket, [bsg_ksjsonendEncode]
    returns its status: the array was closed, the object was taken off
    the stack, and its bracket was handed over and refused. *)
Example endEncode_stops_at_first_failure :
  (fun rc => (rc.1, sent rc.2, containerLevel rc.2))
    <$> bsg_ksjsonendEncode
          (mkContext accept_some 1%nat false [false; true; false] 2 false [])
  = Some (BSG_KSJSON_ERROR_CANNOT_ADD_DATA, [bytes "]"; bytes "}"], 0).
Proof. vm_compute. reflexivity. Qed.

(** A second value at the root, after an object and after a number. *)
Example two_root_values :
  (fun rc => (rc.1, output rc.2))
    <$> calls [bsg_ksjsonbeginObject None;
               bsg_ksjsonendContainer;
               bsg_ksjsonbeginObject None;
               bsg_ksjsonendContainer;
               bsg_ksjsonaddIntegerElement None 7]
              (bsg_ksjsonbeginEncode (H := header200) false accept_all tt)
  = Some ([BSG_KSJSON_OK; BSG_KSJSON_OK; BSG_KSJSON_OK; BSG_KSJSON_OK; BSG_KSJSON_OK],
          bytes "{},{},7").
Proof. vm_compute. reflexivity. Qed.

(* ====================================================================== *)
(** * The theorems at concrete inputs *)
(* ====================================================================== *)

Lemma object_with_integer_output_witness :
  (2 <= isObject_size (Header := header200))%nat /\
  (forall data u, (accept_all data u).1 = BSG_KSJSON_OK) /\
  exists context',
    calls [bsg_ksjsonbeginObject None;
           bsg_ksjsonaddIntegerElement (cstr "x") 5;
           bsg_ksjsonendContainer]
          (bsg_ksjsonbeginEncode (H := header200) false accept_all tt)
    = Some ([BSG_KSJSON_OK; BSG_KSJSON_OK; BSG_KSJSON_OK], context') /\
    output context' = bytes "{" ++ QUOTE :: bytes "x" ++ QUOTE :: bytes ":5}".
Proof.
  split; [simpl; lia|]. split; [reflexivity|].
  apply (object_with_integer_output (H := header200) accept_all tt false).
  - simpl. lia.
  - reflexivity.
Defined.

Lemma addJSONElement_checks_first_character_witness :
  let context := bsg_ksjsonbeginEncode (H := header200) false accept_all tt in
  readable (Some (bytes "  [1,2]")) 7 (bytes "  [1,2]") /\
  first_non_whitespace (bytes "  [1,2]") = Some "["%byte /\
  bsg_ksjsonaddJSONElement None (Some (bytes "  [1,2]")) 7 context
  = (bsg_ksjsonbeginElement None ;;; addJSONData (bytes "  [1,2]")) context.
Proof.
  intros context.
  assert (Hread : readable (Some (bytes "  [1,2]")) 7 (bytes "  [1,2]")).
  { exists (bytes "  [1,2]"). split; [reflexivity|]. split; [simpl; lia | reflexivity]. }
  split; [exact Hread|]. split; [reflexivity|].
  exact (proj1 (addJSONElement_checks_first_character
                  None (Some (bytes "  [1,2]")) 7 (bytes "  [1,2]") "["%byte context
                  Hread eq_refl)).
Defined.

Lemma escaper_maps_each_byte_witness :
  let context := bsg_ksjsonbeginEncode (H := header200) false accept_all tt in
  let input := "a"%byte :: QUOTE :: bytes "b" in
  readable (Some input) 3 input /\
  exists r context',
    bsg_ksjsoncodec_i_addEscapedString (Some input) 3 context = Some (r, context') /\
    (r = BSG_KSJSON_OK ->
     output context' = output context ++ flat_map json_escape input) /\
    (accepting context -> r = BSG_KSJSON_OK).
Proof.
  intros context input.
  assert (Hread : readable (Some input) 3 input).
  { exists input. split; [reflexivity|]. split; [simpl; lia | reflexivity]. }
  split; [exact Hread|].
  exact (escaper_maps_each_byte (Some input) 3 input context Hread).
Defined.

Lemma escaper_stays_inside_work_buffer_witness :
  let context := bsg_ksjsonbeginEncode (H := header200) false accept_some 1%nat in
  let input := replicate 600 x01 in
  readable (Some input) 600 input /\
  exists r context' l,
    bsg_ksjsoncodec_i_addEscapedString (Some input) 600 context = Some (r, context') /\
    sent context' = sent context ++ l /\
    Forall (fun chunk => (List.length chunk <= BSG_KSJSONCODEC_WorkBufferSize)%nat) l.
Proof.
  intros context input.
  assert (Hread : readable (Some input) 600 input).
  { exists input. split; [reflexivity|]. split; [vm_compute; lia | reflexivity]. }
  split; [exact Hread|].
  exact (proj2 (proj2 (escaper_stays_inside_work_buffer
                         (Some input) 600 input context Hread))).
Defined.

Lemma endEncode_closes_all_lifo_witness :
  let context := mkContext accept_all tt false [false; true; false] 2 false [] in
  containerLevel context = Z.of_nat 2 /\
  (2 < List.length (isObject context))%nat /\
  bsg_ksjsonendEncode context = close_containers 2 context.
Proof.
  intros context.
  assert (Hlevel : containerLevel context = Z.of_nat 2) by reflexivity.
  assert (Hroom : (2 < List.length (isObject context))%nat) by (simpl; lia).
  split; [exact Hlevel|]. split; [exact Hroom|].
  exact (proj1 (endEncode_closes_all_lifo context 2 Hlevel Hroom)).
Defined.

Lemma second_root_value_is_preceded_by_comma_witness :
  let context :=
    mkContext accept_all tt false [false; true] 0 false [bytes "{"; bytes "}"] in
  containerLevel context = 0 /\
  containerFirstEntry context = false /\
  isObject_at context 0 = Some false /\
  (1 < List.length (isObject context))%nat /\
  forall object : bool,
    exists r c' l,
      (if object then bsg_ksjsonbeginObject None else bsg_ksjsonbeginArray None) context
      = Some (r, c') /\
      sent c' = sent context ++ bytes "," :: l /\
      (r = BSG_KSJSON_OK ->
       containerLevel c' = 1 /\
       output c' = output context ++ bytes "," ++ (if object then bytes "{" else bytes "[")) /\
      (accepting context -> r = BSG_KSJSON_OK).
Proof.
  intros context.
  assert (Hroom : (1 < List.length (isObject context))%nat) by (simpl; lia).
  split; [reflexivity|]. split; [reflexivity|]. split; [reflexivity|].
  split; [exact Hroom|].
  exact (proj1 (second_root_value_is_preceded_by_comma
                  (H := header200) (H0 := libm_unused)
                  None context eq_refl eq_refl eq_refl Hroom)).
Defined.

Lemma endContainer_leaves_first_entry_false_witness :
  let context := mkContext accept_all tt false [false; true] 1 true [bytes "{"] in
  0 < containerLevel context /\
  isObject_at context (containerLevel context) = Some true /\
  exists r context',
    bsg_ksjsonendContainer context = Some (r, context') /\
    containerLevel context' = containerLevel context - 1 /\
    containerFirstEntry context' = false.
Proof.
  intros context.
  assert (Hpos : 0 < containerLevel context) by (simpl; lia).
  split; [exact Hpos|]. split; [reflexivity|].
  destruct (endContainer_leaves_first_entry_false
              (H := header200) (H0 := libm_unused) context true Hpos eq_refl)
    as (r & c' & Heq & Hv & Hf & _).
  exists r, c'. auto.
Defined.

(* ====================================================================== *)
(** * More on the integer formatters *)
(* ====================================================================== *)

(** The digit loop writes at most as many digits as the value has. *)
Lemma uint64_to_string_loop_length (index : nat) :
  forall (n : nat) (value : Z) (buff text : list byte),
    0 <= value < 10 ^ Z.of_nat (S n) ->
    uint64_to_string_loop index value buff = Some text ->
    (List.length text <= S n + List.length buff)%nat.
Proof.
  induction index as [|index IH]; intros n value buff text Hv;
    cbn [uint64_to_string_loop]; destruct (value / 10 =? 0) eqn:Hq;
    intros Heq; try discriminate Heq.
  - injection Heq as <-. simpl. lia.
  - injection Heq as <-. simpl. lia.
  - apply Z.eqb_neq in Hq.
    destruct n as [|n].
    { exfalso. apply Hq. apply Z.div_small. change (10 ^ Z.of_nat 1) with 10 in Hv. lia. }
    assert (Hup : 0 <= value / 10 < 10 ^ Z.of_nat (S n)).
    { split; [apply Z.div_pos; lia|].
      apply Z.div_lt_upper_bound; [lia|].
      replace (Z.of_nat (S (S n))) with (Z.succ (Z.of_nat (S n))) in Hv by lia.
      rewrite Z.pow_succ_r in Hv by lia. lia. }
    specialize (IH n (value / 10) _ _ Hup Heq). simpl in IH. lia.
Qed.

Lemma uint64_to_string_length (n : nat) (value : Z) (text : list byte) :
  0 <= value < 10 ^ Z.of_nat (S n) ->
  uint64_to_string value = Some text ->
  (List.length text <= S n)%nat.
Proof.
  intros Hv. unfold uint64_to_string. destruct (value =? 0).
  - intros [= <-]. simpl. lia.
  - intros Heq. pose proof (uint64_to_string_loop_length _ n value [] text Hv Heq) as H.
    simpl in H. lia.
Qed.

(** X1: [uint64_to_string] returns on every [uint64_t]; its text has
    between 1 and 20 characters, so that the index of the loop never
    leaves the array of 21; it is the minimal decimal text of the value,
    and reads back as the value. *)
Theorem uint64_to_string_roundtrip (value : Z) :
  0 <= value < UINT64_MOD ->
  exists text,
    uint64_to_string value = Some text /\
    (1 <= List.length text <= MAX_UINT64_DIGITS)%nat /\
    minimal_digits text /\
    parse_decimal text = Some value.
Proof.
  intros Hv.
  destruct (uint64_to_string_spec value Hv) as (d & s & Heq & Hd & Hmin & Hparse).
  exists (digit_char d :: s). split; [exact Heq|]. split; [|split; [exact Hmin|]].
  - split; [simpl; lia|].
    apply (uint64_to_string_length 19 value); [|exact Heq].
    unfold UINT64_MOD in Hv. simpl. lia.
  - pose proof (digit_char_not_minus d Hd) as Hnm.
    rewrite <- Hparse. unfold parse_decimal.
    destruct (digit_char d); try reflexivity; congruence.
Qed.

Lemma uint64_to_string_roundtrip_witness :
  0 <= 18446744073709551615 < UINT64_MOD /\
  exists text,
    uint64_to_string 18446744073709551615 = Some text /\
    (1 <= List.length text <= MAX_UINT64_DIGITS)%nat /\
    minimal_digits text /\
    parse_decimal text = Some 18446744073709551615.
Proof.
  assert (H : 0 <= 18446744073709551615 < UINT64_MOD) by (unfold UINT64_MOD; lia).
  split; [exact H|]. exact (uint64_to_string_roundtrip 18446744073709551615 H).
Defined.

(** X2: for every [int64_t] but the least, the negation in
    [int64_to_string] does not overflow, and the text, of at most 20
    characters, is a minus sign for a negative value followed by the
    minimal decimal text of the magnitude; it reads back as the value. *)
Theorem int64_to_string_above_minimum (n : Z) :
  INT64_MIN < n <= INT64_MAX ->
  int64_to_string_overflows n = false /\
  exists text,
    int64_to_string n = Some text /\
    (List.length text <= 20)%nat /\
    parse_decimal text = Some n /\
    (if n <? 0
     then exists digits, text = "-"%byte :: digits /\ minimal_digits digits
     else minimal_digits text).
Proof.
  intros Hn.
  assert (Hin : in_int64 n = true) by (apply in_int64_range; lia).
  split.
  - destruct (int64_to_string_overflows n) eqn:E; [|reflexivity].
    apply (int64_to_string_overflows_iff n Hin) in E. lia.
  - destruct (int64_to_string_roundtrip n Hin) as (text & Heq & Hparse & Hshape).
    exists text. split; [exact Heq|]. split; [|split; [exact Hparse|]].
    + unfold INT64_MIN, INT64_MAX in Hn. unfold int64_to_string in Heq.
      destruct (n <? 0) eqn:Hneg.
      * apply Z.ltb_lt in Hneg.
        destruct (uint64_to_string (to_uint64 (neg_int64 n))) as [t|] eqn:Et;
          [|discriminate Heq].
        injection Heq as <-.
        assert (Hu : to_uint64 (neg_int64 n) = - n).
        { unfold to_uint64, neg_int64, wrap_int64, INT64_MIN, UINT64_MOD.
          rewrite (Z.mod_small (- n - - 2 ^ 63)) by lia.
          rewrite Z.mod_small; lia. }
        rewrite Hu in Et.
        pose proof (uint64_to_string_length 18 (- n) t ltac:(simpl; lia) Et).
        simpl. lia.
      * apply Z.ltb_ge in Hneg.
        assert (Hu : to_uint64 n = n)
          by (unfold to_uint64, UINT64_MOD; apply Z.mod_small; lia).
        rewrite Hu in Heq.
        pose proof (uint64_to_string_length 18 n text ltac:(simpl; lia) Heq). lia.
    + destruct (n <? 0); [|exact Hshape].
      destruct Hshape as (s' & -> & Hmin & _). exists s'. auto.
Qed.

Lemma int64_to_string_above_minimum_witness :
  INT64_MIN < -9223372036854775807 <= INT64_MAX /\
  int64_to_string_overflows (-9223372036854775807) = false /\
  int64_to_string (-9223372036854775807) = Some (bytes "-9223372036854775807").
Proof.
  assert (H : INT64_MIN < -9223372036854775807 <= INT64_MAX)
    by (unfold INT64_MIN, INT64_MAX; lia).
  split; [exact H|].
  split; [exact (proj1 (int64_to_string_above_minimum _ H)) | reflexivity].
Defined.

(* ====================================================================== *)
(** * The double formatter: the size of its text *)
(* ====================================================================== *)

Lemma wrap_int_in_int (z : Z) : in_int (wrap_int z) = true.
Proof.
  unfold in_int, wrap_int.
  pose proof (Z.mod_pos_bound (z + 2 ^ 31) (2 ^ 32) ltac:(lia)) as H.
  apply andb_true_iff. split; [apply Z.leb_le | apply Z.ltb_lt]; lia.
Qed.

Lemma in_int_range (z : Z) : in_int z = true <-> - 2 ^ 31 <= z < 2 ^ 31.
Proof. unfold in_int. rewrite andb_true_iff, Z.leb_le, Z.ltb_lt. tauto. Qed.

Lemma fractional_digits_length (n : nat) :
  forall (digits : Z) (frac : list byte),
    List.length (fractional_digits n digits frac).1 = (n + List.length frac)%nat.
Proof.
  induction n as [|n IH]; intros digits frac; simpl; [reflexivity|].
  rewrite IH. simpl. lia.
Qed.

(** The exponent, an [int], with its sign: at most 11 characters. *)
Lemma exponent_text_length (e : Z) (text : list byte) :
  in_int e = true ->
  int64_to_string e = Some text ->
  (List.length ((if (0 <=? e)%Z then ["+"%byte] else []) ++ text) <= 11)%nat.
Proof.
  rewrite in_int_range. intros He. unfold int64_to_string.
  destruct (e <? 0) eqn:Hneg.
  - apply Z.ltb_lt in Hneg.
    destruct (uint64_to_string (to_uint64 (neg_int64 e))) as [t|] eqn:Et; [|discriminate].
    intros [= <-].
    assert (Hu : to_uint64 (neg_int64 e) = - e).
    { unfold to_uint64, neg_int64, wrap_int64, INT64_MIN, UINT64_MOD.
      rewrite (Z.mod_small (- e - - 2 ^ 63)) by lia.
      rewrite Z.mod_small; lia. }
    rewrite Hu in Et.
    pose proof (uint64_to_string_length 9 (- e) t ltac:(simpl; lia) Et).
    destruct (0 <=? e) eqn:E; [apply Z.leb_le in E; lia|]. simpl. lia.
  - apply Z.ltb_ge in Hneg.
    assert (Hu : to_uint64 e = e)
      by (unfold to_uint64, UINT64_MOD; apply Z.mod_small; lia).
    rewrite Hu. intros Et.
    pose proof (uint64_to_string_length 9 e text ltac:(simpl; lia) Et).
    destruct (0 <=? e); simpl; lia.
Qed.

Lemma mantissa_and_exponent_length (e d : Z) (frac text : list byte) :
  in_int e = true ->
  List.length frac = 6%nat ->
  (let dst := byte_of_Z (d + 48) :: "."%byte :: frac in
   let mantissa :=
     take (strip_zeroes (Z.to_nat MAX_SIGNIFICANT_DIGITS) dst
                        (Z.to_nat MAX_SIGNIFICANT_DIGITS)) dst in
   if negb (e =? 0)
   then text0 ← int64_to_string e;
        Some (mantissa ++ "e"%byte :: (if 0 <=? e then ["+"%byte] else []) ++ text0)
   else Some mantissa) = Some text ->
  (List.length text <= 20)%nat.
Proof.
  intros He Hfrac. cbv zeta.
  set (dst := byte_of_Z (d + 48) :: "."%byte :: frac).
  set (mantissa := take _ dst).
  assert (Hm : (List.length mantissa <= 8)%nat).
  { unfold mantissa. rewrite length_take. unfold dst. simpl. lia. }
  clearbody mantissa.
  destruct (negb (e =? 0)).
  - destruct (int64_to_string e) as [text0|] eqn:Et; cbn [mbind option_bind];
      [|discriminate].
    intros [= <-].
    pose proof (exponent_text_length e text0 He Et) as Hx.
    rewrite length_app. cbn [List.length]. lia.
  - intros [= <-]. lia.
Qed.

Lemma positive_double_to_string_length `{Libm} (value : double) (text : list byte) :
  positive_double_to_string value MAX_SIGNIFICANT_DIGITS = Some text ->
  (List.length text <= 20)%nat.
Proof.
  unfold positive_double_to_string.
  destruct (SFeqb value double_zero); [intros [= <-]; simpl; lia|].
  destruct (isnan value); [intros [= <-]; simpl; lia|].
  destruct (isinf value); [intros [= <-]; simpl; lia|].
  destruct (double_to_int (log10 value)) as [e0|] eqn:He0; cbn [mbind option_bind];
    [|discriminate].
  assert (Hin0 : in_int e0 = true).
  { unfold double_to_int in He0. destruct (double_trunc (log10 value)) as [z|];
      cbn [mbind option_bind] in He0; [|discriminate].
    destruct (in_int z) eqn:E; [|discriminate]. injection He0 as <-. exact E. }
  set (e1 := if SFltb value double_one then wrap_int (e0 - 1) else e0).
  assert (Hin1 : in_int e1 = true).
  { unfold e1. destruct (SFltb value double_one); [apply wrap_int_in_int | exact Hin0]. }
  clearbody e1.
  match goal with
  | |- context [let '(_, _) := ?p in _] =>
      assert (Hp : exists e2 n2, p = (e2, n2) /\ in_int e2 = true)
  end.
  { destruct (SFltb just_below_ten _); eexists _, _; split; try reflexivity;
      [apply wrap_int_in_int | exact Hin1]. }
  destruct Hp as (e2 & n2 & -> & Hin2).
  destruct (double_to_uint64 (SFmul _ _ _ _)) as [digits|]; cbn [mbind option_bind];
    [|discriminate].
  match goal with
  | |- context [mbind _ ?m] =>
      assert (Hq : m = None \/ exists e3 d3, m = Some (e3, d3) /\ in_int e3 = true)
  end.
  { destruct (SFleb double_half _).
    - destruct (double_to_uint64 _) as [limit|]; cbn [mbind option_bind]; [|left; reflexivity].
      destruct (limit <=? _); right; eexists _, _; split; try reflexivity;
        [apply wrap_int_in_int | exact Hin2].
    - right. eexists _, _. split; [reflexivity | exact Hin2]. }
  destruct Hq as [-> | (e3 & d3 & -> & Hin3)]; cbn [mbind option_bind]; [discriminate|].
  pose proof (fractional_digits_length (Z.to_nat (MAX_SIGNIFICANT_DIGITS - 1)) d3 []) as Hlen.
  destruct (fractional_digits _ d3 []) as [frac d1]. simpl in Hlen.
  apply mantissa_and_exponent_length; assumption.
Qed.

(** X3: whatever [log10] and [pow] return, a text that [double_to_string]
    writes with 7 significant digits has at most 21 characters, and one
    that [positive_double_to_string] writes at most 20: with the NUL, the
    22 and 21 bytes the comments of the source promise, within the 30 of
    the buffer of [bsg_ksjsonaddFloatingPointElement]. *)
Theorem double_to_string_length `{Libm} (value : double) :
  (forall text,
      positive_double_to_string value MAX_SIGNIFICANT_DIGITS = Some text ->
      (List.length text + 1 <= 21)%nat) /\
  (forall text,
      double_to_string value MAX_SIGNIFICANT_DIGITS = Some text ->
      (List.length text + 1 <= 22)%nat /\ (List.length text + 1 <= 30)%nat).
Proof.
  split.
  - intros text Heq. pose proof (positive_double_to_string_length value text Heq). lia.
  - intros text. unfold double_to_string. destruct (SFltb value double_zero).
    + destruct (positive_double_to_string (SFopp value) MAX_SIGNIFICANT_DIGITS)
        as [t|] eqn:Et; [|discriminate].
      intros [= <-]. pose proof (positive_double_to_string_length _ t Et). simpl. lia.
    + intros Heq. pose proof (positive_double_to_string_length value text Heq). lia.
Qed.

(** The formatter on some finite values: seven significant digits,
    rounded half up, the trailing zeroes stripped, and an exponent
    whenever it is not 0. *)
Example double_to_string_finite_values :
  (fun nd => double_to_string (H := libm_example) (double_of_ratio nd.1 nd.2)
                              MAX_SIGNIFICANT_DIGITS)
    <$> [(3, 2); (1, 1); (12345678, 10000); (1, 1000); (-1, 3); (99999999, 10000000);
         (100, 1); (5, 100000000)]
  = Some <$> [bytes "1.5"; bytes "1"; bytes "1.234568e+3"; bytes "1e-3";
              bytes "-3.333333e-1"; bytes "1e+1"; bytes "1e+2"; bytes "5e-8"].
Proof. vm_compute. reflexivity. Qed.

Lemma double_to_string_length_witness :
  let value := double_of_ratio (-12345678) 10000 in
  double_to_string (H := libm_example) value MAX_SIGNIFICANT_DIGITS
  = Some (bytes "-1.234568e+3") /\
  (List.length (bytes "-1.234568e+3") + 1 <= 22)%nat /\
  (List.length (bytes "-1.234568e+3") + 1 <= 30)%nat.
Proof.
  intros value.
  assert (Heq : double_to_string (H := libm_example) value MAX_SIGNIFICANT_DIGITS
                = Some (bytes "-1.234568e+3")) by (vm_compute; reflexivity).
  split; [exact Heq|].
  exact (proj2 (double_to_string_length (H := libm_example) value) _ Heq).
Defined.

(* ====================================================================== *)
(** * More on the escaper and on binary data *)
(* ====================================================================== *)

Lemma json_unescape_escape (c : byte) (r : list byte) :
  json_unescape (json_escape c ++ r) = cons c <$> json_unescape r.
Proof. destruct c; reflexivity. Qed.

Lemma json_unescape_escape_string (l : list byte) :
  json_unescape (json_escape_string l) = Some l.
Proof.
  unfold json_escape_string. induction l as [|c l IH]; [reflexivity|].
  cbn [flat_map]. rewrite json_unescape_escape, IH. reflexivity.
Qed.

Lemma json_escape_printable (c : byte) :
  forallb (fun b => 32 <=? Z_of_byte b) (json_escape c) = true.
Proof. destruct c; reflexivity. Qed.

Lemma json_escape_string_printable (l : list byte) :
  Forall (fun b => 32 <= Z_of_byte b) (json_escape_string l).
Proof.
  unfold json_escape_string. induction l as [|c l IH]; [constructor|].
  cbn [flat_map]. apply Forall_app. split; [|exact IH].
  pose proof (json_escape_printable c) as H.
  induction (json_escape c) as [|b e IHe]; [constructor|].
  simpl in H. apply andb_true_iff in H. destruct H as [Hb He].
  constructor; [apply Z.leb_le; exact Hb | apply IHe; exact He].
Qed.




Section Streams.

Context `{Header} {U : Type}.
Implicit Types context c : BSG_KSJSONEncodeContext U.

(** X4: with a handler that accepts everything, what the escaper sends
    for a readable input of any length is a text without any byte below
    0x20, in which every double quote and backslash is escaped, and which
    reads back as the input: escaping loses nothing. *)
Theorem escaped_text_reads_back (string : ptr) (length : nat) (input : list byte) c :
  readable string length input ->
  accepting c ->
  exists c' text,
    bsg_ksjsoncodec_i_addEscapedString string length c = Some (BSG_KSJSON_OK, c') /\
    output c' = output c ++ text /\
    Forall (fun b => 32 <= Z_of_byte b) text /\
    json_unescape text = Some input.
Proof.
  intros Hread Ha.
  destruct (addEscapedString_spec string length input c Hread)
    as (r & c' & l & Heq & Hh & _ & Hout & Hacc).
  rewrite (Hacc Ha) in *.
  exists c', (json_escape_string input). split; [exact Heq|].
  split; [rewrite (output_handed _ _ _ Hh), (Hout eq_refl); reflexivity|].
  split; [apply json_escape_string_printable | apply json_unescape_escape_string].
Qed.

Lemma readable_app (a b : list byte) :
  readable (Some (a ++ b)) (List.length a + List.length b) (a ++ b).
Proof.
  exists (a ++ b). split; [reflexivity|]. split; [rewrite length_app; lia|].
  rewrite <- length_app, firstn_all. reflexivity.
Qed.

Lemma readable_all (a : list byte) : readable (Some a) (List.length a) a.
Proof.
  exists a. split; [reflexivity|]. split; [lia | rewrite firstn_all; reflexivity].
Qed.

(** X5: a string written in two portions with the streaming calls
    (begin, append, append, end) gives the handler the same bytes as
    [bsg_ksjsonaddStringElement] on the whole string, wherever the string
    is cut, and both leave the same level and first-entry flag. *)
Theorem streamed_string_is_added_string (name : ptr) (nm : list byte) (b : bool)
    (first second : list byte) c :
  isObject_at c (containerLevel c) = Some b ->
  name_for b name nm ->
  (b = true -> name <> None) ->
  N.of_nat (List.length (first ++ second)) <> BSG_KSJSON_SIZE_AUTOMATIC ->
  accepting c ->
  exists c1 c2,
    calls [bsg_ksjsonbeginStringElement name;
           bsg_ksjsonappendStringElement (Some first) (List.length first);
           bsg_ksjsonappendStringElement (Some second) (List.length second);
           bsg_ksjsonendStringElement] c
    = Some ([BSG_KSJSON_OK; BSG_KSJSON_OK; BSG_KSJSON_OK; BSG_KSJSON_OK], c1) /\
    bsg_ksjsonaddStringElement name (Some (first ++ second))
                               (N.of_nat (List.length (first ++ second))) c
    = Some (BSG_KSJSON_OK, c2) /\
    output c1 = output c2 /\
    containerLevel c1 = containerLevel c2 /\
    containerFirstEntry c1 = containerFirstEntry c2.
Proof.
  intros Hb Hname Hnn Hauto Ha.
  (* the streamed string *)
  destruct (element_then_spec name nm b c (addJSONData [QUOTE]) [QUOTE] Hb Hname)
    as (r1 & s1 & l1 & Heq1 & Hh1 & _ & Hout1 & Hacc1).
  { intros c1 _ _. apply addJSONData_value. }
  rewrite (Hacc1 Ha Hnn) in *. specialize (Hout1 eq_refl).
  assert (Ha1 : accepting s1)
    by (eapply accepting_handed; [exact Hh1 | exact Ha]).
  destruct (addEscapedString_spec (Some first) (List.length first) first s1
              (readable_all first))
    as (r2 & s2 & l2 & Heq2 & Hh2 & _ & Hout2 & Hacc2).
  rewrite (Hacc2 Ha1) in *. specialize (Hout2 eq_refl).
  assert (Ha2 : accepting s2) by (eapply accepting_handed; eassumption).
  destruct (addEscapedString_spec (Some second) (List.length second) second s2
              (readable_all second))
    as (r3 & s3 & l3 & Heq3 & Hh3 & _ & Hout3 & Hacc3).
  rewrite (Hacc3 Ha2) in *. specialize (Hout3 eq_refl).
  assert (Ha3 : accepting s3) by (eapply accepting_handed; eassumption).
  destruct (addJSONData_spec [QUOTE] s3) as (r4 & s4 & Heq4 & Hh4 & Hacc4).
  rewrite (Hacc4 Ha3) in *.
  (* the string added at once *)
  destruct (addStringElement_spec name nm b (Some (first ++ second))
              (N.of_nat (List.length (first ++ second))) (first ++ second) c Hb Hname Hauto)
    as (r5 & s5 & l5 & Heq5 & Hh5 & _ & Hout5 & Hacc5).
  { rewrite Nat2N.id. apply readable_all. }
  rewrite (Hacc5 Ha Hnn) in *. specialize (Hout5 eq_refl).
  exists s4, s5. split; [|split; [exact Heq5|]].
  - cbn [calls mbind option_bind].
    change (bsg_ksjsonbeginStringElement name c)
      with ((bsg_ksjsonbeginElement name ;;; addJSONData [QUOTE]) c).
    rewrite Heq1. cbn [mbind option_bind].
    unfold bsg_ksjsonappendStringElement, bsg_ksjsonendStringElement.
    rewrite Heq2. cbn [mbind option_bind]. rewrite Heq3. cbn [mbind option_bind].
    rewrite Heq4. reflexivity.
  - pose proof (handed_trans _ _ _ _ _ Hh1 Hh2) as H12.
    pose proof (handed_trans _ _ _ _ _ H12 Hh3) as H13.
    pose proof (handed_trans _ _ _ _ _ H13 Hh4) as H14.
    rewrite (output_handed _ _ _ H14), (output_handed _ _ _ Hh5).
    destruct H14 as (_ & _ & _ & Hv & Hf & _). destruct Hh5 as (_ & _ & _ & Hv5 & Hf5 & _).
    split; [|split; congruence].
    f_equal. rewrite !concat_app, Hout1, Hout2, Hout3, Hout5.
    unfold json_escape_string. rewrite flat_map_app.
    rewrite <- !app_assoc. reflexivity.
Qed.


End Streams.

(* ====================================================================== *)
(** * More on elements and containers *)
(* ====================================================================== *)

Section Elements.

Context `{Header} `{Libm} {U : Type}.
Implicit Types context c : BSG_KSJSONEncodeContext U.

(** X7: [bsg_ksjsonbeginElement], called at a level inside the [isObject]
    array with no name or a C string, returns; it leaves the level and
    the array as they were and the first-entry flag false; when it
    returns OK the handler was given a comma unless the element is the
    first of its container, in pretty mode inside a container a new line
    and four spaces a level, and in an object the quoted escaped name and
    a colon, followed by a space in pretty mode; with a handler that
    accepts everything it returns OK unless the name is missing in an
    object. *)
Theorem beginElement_writes_prefix (name : ptr) (nm : list byte) (b : bool) c :
  isObject_at c (containerLevel c) = Some b ->
  name_for b name nm ->
  exists r c',
    bsg_ksjsonbeginElement name c = Some (r, c') /\
    containerLevel c' = containerLevel c /\
    isObject c' = isObject c /\
    containerFirstEntry c' = false /\
    (r = BSG_KSJSON_OK -> output c' = output c ++ element_prefix c b nm) /\
    (accepting c -> (b = true -> name <> None) -> r = BSG_KSJSON_OK).
Proof.
  intros Hb Hname.
  destruct (beginElement_spec name nm b c Hb Hname)
    as (r & c' & l & Heq & Hh & _ & Hout & Hacc).
  exists r, c'. split; [exact Heq|].
  pose proof (output_handed _ _ _ Hh) as Ho.
  destruct Hh as (_ & _ & Hi & Hv & Hf & _).
  split; [exact Hv|]. split; [exact Hi|]. split; [exact Hf|].
  split; [|exact Hacc].
  intros Hr. destruct (Hout Hr) as [_ Hc]. rewrite Ho, Hc. reflexivity.
Qed.

(** In an object, without a name, [bsg_ksjsonbeginElement] has written
    the comma and the indentation when it finds the name missing. *)
Lemma beginElement_missing_name c :
  isObject_at c (containerLevel c) = Some true ->
  accepting c ->
  exists c' l,
    bsg_ksjsonbeginElement None c = Some (BSG_KSJSON_ERROR_INVALID_DATA, c') /\
    handed (set_containerFirstEntry false c) c' l /\
    concat l = element_prefix c false [].
Proof.
  intros Hb Ha. unfold bsg_ksjsonbeginElement, and_then.
  destruct (beginElement_comma_spec c) as (r1 & c1 & l1 & Heq1 & Hh1 & Hl1 & Hacc1).
  rewrite Heq1, (Hacc1 Ha).
  assert (Ha1 : accepting c1) by (eapply accepting_handed; [exact Hh1 | exact Ha]).
  destruct (beginElement_pretty_spec c1) as (r2 & c2 & l2 & Heq2 & Hh2 & Hl2 & Hacc2).
  rewrite Heq2, (Hacc2 Ha1) in *.
  pose proof Hh1 as (_ & Hp1 & Ho1 & Hv1 & _ & _). simpl in Hp1, Ho1, Hv1.
  pose proof Hh2 as (_ & Hp2 & Ho2 & Hv2 & _ & _).
  assert (Hb2 : isObject_at c2 (containerLevel c2) = Some true).
  { unfold isObject_at in *. rewrite Hv2, Ho2, Hv1, Ho1. exact Hb. }
  destruct (beginElement_name_spec None [] true c2 Hb2 ltac:(left; reflexivity))
    as (r3 & c3 & l3 & Heq3 & Hh3 & _ & Hmiss & _).
  destruct (Hmiss eq_refl eq_refl) as [-> ->].
  rewrite Heq3. exists c3, (l1 ++ l2 ++ []). split; [reflexivity|]. split.
  - eapply handed_trans; [exact Hh1|]. eapply handed_trans; eassumption.
  - rewrite app_nil_r, concat_app. unfold element_prefix. rewrite app_nil_r.
    f_equal.
    + rewrite Hl1. destruct (containerFirstEntry c); reflexivity.
    + rewrite Hp1, Hv1 in Hl2.
      destruct (prettyPrint c && (0 <? containerLevel c)).
      * destruct Hl2 as (k & -> & _ & Hk). rewrite (Hk eq_refl). reflexivity.
      * destruct Hl2 as [-> _]. reflexivity.
Qed.

(** Every typed adder, on a value it accepts, is
    [bsg_ksjsonbeginElement] followed by something. *)
Lemma typed_adder_begins (name : ptr) (m : M U status) (text : list byte) c :
  typed_adder name m text ->
  exists k : M U status, m c = (bsg_ksjsonbeginElement name ;;; k) c.
Proof.
  intros Hm. destruct Hm; try (eexists; reflexivity).
  - match goal with Hr : readable value _ _ |- _ => destruct Hr as (buf & -> & _) end.
    eexists. reflexivity.
  - match goal with Hc : c_string value _ |- _ => destruct Hc as (rest & -> & _) end.
    eexists. reflexivity.
  - match goal with
    | Hr : readable _ _ _, Hf : first_non_whitespace _ = _, Ht : token_start _ = _ |- _ =>
        pose proof (addJSONElement_cases name element length payload c Hr) as Hcases;
        rewrite Hf, Ht in Hcases
    end.
    eexists. exact Hcases.
  - exists (addJSONData [QUOTE] ;;;
            bsg_ksjsonappendDataElement value length ;;; bsg_ksjsonendDataElement).
    unfold bsg_ksjsonaddDataElement, bsg_ksjsonbeginDataElement,
      bsg_ksjsonbeginStringElement, and_then.
    destruct (bsg_ksjsonbeginElement name c) as [[[] c1]|]; reflexivity.
Qed.

(** X8: in an object, an element without a name is refused with the
    invalid-data status by [bsg_ksjsonbeginElement], by every typed adder
    and by the opening of a container, but not before the comma and the
    indentation were handed over and the first-entry flag was cleared:
    the value and the bracket are not written, the level is unchanged. *)
Theorem missing_name_in_object c :
  isObject_at c (containerLevel c) = Some true ->
  0 <= containerLevel c ->
  accepting c ->
  forall m : M U status,
    m = bsg_ksjsonbeginElement None \/
    (exists value, typed_adder None m value) \/
    m = bsg_ksjsonbeginObject None \/ m = bsg_ksjsonbeginArray None ->
    exists c',
      m c = Some (BSG_KSJSON_ERROR_INVALID_DATA, c') /\
      output c' = output c ++ element_prefix c false [] /\
      containerLevel c' = containerLevel c /\
      containerFirstEntry c' = false.
Proof.
  intros Hb Hlevel Ha m Hm.
  destruct (beginElement_missing_name c Hb Ha) as (c' & l & Heq & Hh & Hl).
  exists c'.
  pose proof (output_handed _ _ _ Hh) as Ho. rewrite Hl in Ho.
  destruct Hh as (_ & _ & _ & Hv & Hf & _). simpl in Hv, Hf.
  split; [|auto].
  destruct Hm as [-> | [[value Hm] | [-> | ->]]].
  - exact Heq.
  - destruct (typed_adder_begins None m value c Hm) as [k ->].
    unfold and_then. rewrite Heq. reflexivity.
  - unfold bsg_ksjsonbeginObject, and_then.
    destruct (0 <=? containerLevel c) eqn:E; [|apply Z.leb_gt in E; lia].
    rewrite Heq. reflexivity.
  - unfold bsg_ksjsonbeginArray, and_then.
    destruct (0 <=? containerLevel c) eqn:E; [|apply Z.leb_gt in E; lia].
    rewrite Heq. reflexivity.
Qed.

(** X9: a typed adder, called at a level inside the [isObject] array on a
    value it accepts, returns; it leaves the level and the array as they
    were and the first-entry flag false; when it returns OK the handler
    was given the prefix of the element and then the text of the value:
    [true] or [false], [null], the decimal text of an integer, the text
    of a double, the quoted escaped string, the payload, or the quoted
    hexadecimal text of the data. *)
Theorem typed_adder_writes_value (name : ptr) (nm : list byte) (b : bool)
    (m : M U status) (value : list byte) c :
  typed_adder name m value ->
  isObject_at c (containerLevel c) = Some b ->
  name_for b name nm ->
  exists r c',
    m c = Some (r, c') /\
    containerLevel c' = containerLevel c /\
    isObject c' = isObject c /\
    containerFirstEntry c' = false /\
    (r = BSG_KSJSON_OK -> output c' = output c ++ element_prefix c b nm ++ value) /\
    (accepting c -> (b = true -> name <> None) -> r = BSG_KSJSON_OK).
Proof.
  intros Hm Hb Hname.
  destruct (typed_adder_writes name m value nm b c Hm Hb Hname)
    as (r & c' & l & Heq & Hh & _ & Hout & Hacc).
  exists r, c'. split; [exact Heq|].
  pose proof (output_handed _ _ _ Hh) as Ho.
  destruct Hh as (_ & _ & Hi & Hv & Hf & _).
  split; [exact Hv|]. split; [exact Hi|]. split; [exact Hf|].
  split; [|exact Hacc]. intros Hr. rewrite Ho, (Hout Hr). reflexivity.
Qed.

(** X10: [bsg_ksjsonbeginObject] and [bsg_ksjsonbeginArray], called with
    room for one more level, return; when they return OK the level is one
    higher, the kind of the container is stored at the new level, the
    first-entry flag is true, and the handler was given the prefix of the
    element and the opening bracket. *)
Theorem beginContainer_opens (object : bool) (name : ptr) (nm : list byte) (b : bool) c :
  0 <= containerLevel c ->
  isObject_at c (containerLevel c) = Some b ->
  name_for b name nm ->
  (Z.to_nat (containerLevel c + 1) < List.length (isObject c))%nat ->
  exists r c',
    (if object then bsg_ksjsonbeginObject name else bsg_ksjsonbeginArray name) c
    = Some (r, c') /\
    (r = BSG_KSJSON_OK ->
     containerLevel c' = containerLevel c + 1 /\
     isObject_at c' (containerLevel c') = Some object /\
     (forall i, 0 <= i <= containerLevel c -> isObject_at c' i = isObject_at c i) /\
     containerFirstEntry c' = true /\
     output c' = output c ++ element_prefix c b nm ++
                 (if object then bytes "{" else bytes "[")) /\
    (accepting c -> (b = true -> name <> None) -> r = BSG_KSJSON_OK).
Proof.
  intros Hlevel Hb Hname Hroom.
  destruct (beginContainer_spec object name nm b c Hlevel Hb Hname Hroom)
    as (r & c' & l & Heq & Hs & _ & _ & _ & Hok & Hacc).
  exists r, c'. split; [exact Heq|]. split; [|exact Hacc].
  intros Hr. destruct (Hok Hr) as (Hv & Hi & Hf & Hc).
  split; [exact Hv|]. split; [|split; [|split; [exact Hf|]]].
  - rewrite Hv. unfold isObject_at.
    destruct (containerLevel c + 1 <? 0) eqn:E; [apply Z.ltb_lt in E; lia|].
    rewrite Hi. apply list_lookup_insert_eq. exact Hroom.
  - intros i Hi'. unfold isObject_at. destruct (i <? 0); [reflexivity|].
    rewrite Hi. apply list_lookup_insert_ne. lia.
  - unfold output. rewrite Hs, concat_app, Hc. reflexivity.
Qed.

(** X11: there is no check of the depth.  When the current level is the
    last index of the [isObject] array and [bsg_ksjsonbeginElement]
    returns OK, opening one more container stores its kind past the end
    of the array: the behaviour is undefined. *)
Theorem beginContainer_past_capacity (object : bool) (name : ptr) (nm : list byte)
    (b : bool) c :
  0 <= containerLevel c ->
  isObject_at c (containerLevel c) = Some b ->
  name_for b name nm ->
  (b = true -> name <> None) ->
  accepting c ->
  (List.length (isObject c) <= Z.to_nat (containerLevel c + 1))%nat ->
  (if object then bsg_ksjsonbeginObject name else bsg_ksjsonbeginArray name) c = None.
Proof.
  intros Hlevel Hb Hname Hnn Ha Hfull.
  destruct (beginElement_spec name nm b c Hb Hname)
    as (r & c1 & l & Heq & Hh & _ & _ & Hacc).
  rewrite (Hacc Ha Hnn) in Heq.
  destruct Hh as (_ & _ & Hi & Hv & _ & _). simpl in Hi, Hv.
  assert (E : (0 <=? containerLevel c) = true) by (apply Z.leb_le; lia).
  assert (Hstore : forall o,
             isObject_store (containerLevel c1 + 1) o
                            (set_containerLevel (containerLevel c1 + 1) c1) = None).
  { intros o. unfold isObject_store. cbn [isObject set_containerLevel].
    rewrite Hv, Hi.
    destruct (Z.to_nat (containerLevel c + 1) <? List.length (isObject c))%nat eqn:E';
      [apply Nat.ltb_lt in E'; lia|].
    rewrite andb_false_r. reflexivity. }
  destruct object; unfold bsg_ksjsonbeginObject, bsg_ksjsonbeginArray, and_then;
    rewrite E, Heq; cbv zeta; cbn [containerLevel set_containerLevel];
    rewrite Hstore; reflexivity.
Qed.

(** X12: a raw JSON element that is empty, or made of white space only,
    is refused with the invalid-data status, and nothing is handed to the
    handler: the context is left as it was. *)
Theorem addJSONElement_blank_payload (name element : ptr) (length : nat)
    (payload : list byte) c :
  readable element length payload ->
  first_non_whitespace payload = None ->
  bsg_ksjsonaddJSONElement name element length c
  = Some (BSG_KSJSON_ERROR_INVALID_DATA, c).
Proof.
  intros Hread Hblank.
  rewrite (addJSONElement_cases name element length payload c Hread), Hblank.
  reflexivity.
Qed.

(** X13: the count of the elements written is kept by the typed adders
    and by the opening of a container: after a typed adder that returns
    OK the innermost container has one element more and the first-entry
    flag is false; after the opening of a container that returns OK the
    parent has one element more and the new container, now innermost, has
    none, with the first-entry flag true. *)
Theorem elements_written_are_counted (name : ptr) (nm : list byte) (b : bool)
    (n : nat) (entries : list nat) c c' :
  entries_invariant c (n :: entries) ->
  isObject_at c (containerLevel c) = Some b ->
  name_for b name nm ->
  (forall m value,
      typed_adder name m value ->
      m c = Some (BSG_KSJSON_OK, c') ->
      entries_invariant c' (S n :: entries)) /\
  (forall object : bool,
      (Z.to_nat (containerLevel c + 1) < List.length (isObject c))%nat ->
      (if object then bsg_ksjsonbeginObject name else bsg_ksjsonbeginArray name) c
      = Some (BSG_KSJSON_OK, c') ->
      entries_invariant c' (O :: S n :: entries)).
Proof.
  intros Hinv Hb Hname. split.
  - intros m value Hm Hrun.
    exact (typed_adder_entries name nm b m value n entries c c' Hinv Hb Hname Hm Hrun).
  - intros object Hroom Hrun.
    exact (beginContainer_entries object name nm b n entries c c' Hinv Hb Hname Hroom Hrun).
Qed.

End Elements.

(* ====================================================================== *)
(** * Sessions *)
(* ====================================================================== *)

Section Sessions.

Context `{Header} `{Libm} {U : Type}.
Implicit Types context c : BSG_KSJSONEncodeContext U.







End Sessions.


(** With no container open, [bsg_ksjsonendContainer] and
    [bsg_ksjsonendEncode] return OK and leave the context as it is. *)
Lemma nothing_open {U : Type} (c : BSG_KSJSONEncodeContext U) :
  containerLevel c <= 0 ->
  bsg_ksjsonendContainer c = Some (BSG_KSJSON_OK, c) /\
  bsg_ksjsonendEncode c = Some (BSG_KSJSON_OK, c).
Proof.
  intros Hlevel. split.
  - unfold bsg_ksjsonendContainer.
    destruct (containerLevel c <=? 0) eqn:E; [reflexivity | apply Z.leb_gt in E; lia].
  - unfold bsg_ksjsonendEncode.
    rewrite (endEncode_loop_close_containers O c); [reflexivity | lia].
Qed.

(* ====================================================================== *)
(** * Documents *)
(* ====================================================================== *)

Section Documents.

Context `{Header} `{Libm} {U : Type}.
Implicit Types context c : BSG_KSJSONEncodeContext U.

Lemma scalar_typed_adder (name : ptr) (s : scalar) :
  scalar_ok s -> typed_adder (U := U) name (add_scalar name s) (scalar_text s).
Proof.
  destruct s as [|value|value|value|value|value]; cbn [scalar_ok add_scalar scalar_text];
    intros Hok.
  - apply adds_null.
  - apply adds_boolean.
  - destruct (int64_to_string_roundtrip value) as (text & Heq & _).
    { apply in_int64_range. lia. }
    rewrite Heq. apply adds_integer. exact Heq.
  - destruct (uint64_to_string_spec value Hok) as (d & text & Heq & _).
    rewrite Heq. apply adds_unsigned_integer. exact Heq.
  - apply adds_string; [exact Hok|]. rewrite Nat2N.id. apply readable_all.
  - apply adds_data. apply readable_all.
Qed.

Lemma wrote_isObject_at c c' (text : list byte) :
  wrote c c' text ->
  0 <= containerLevel c ->
  isObject_at c' (containerLevel c') = isObject_at c (containerLevel c).
Proof.
  intros (_ & _ & _ & Hv & _ & Hi) Hlevel. unfold isObject_at. rewrite Hv.
  destruct (containerLevel c <? 0); [reflexivity|]. apply Hi. lia.
Qed.

Lemma wrote_accepting c c' (text : list byte) :
  wrote c c' text -> accepting c -> accepting c'.
Proof. intros (_ & Hf & _) Ha. unfold accepting. rewrite Hf. exact Ha. Qed.

(** A document and the members of a container, written with a handler
    that accepts everything. *)
Lemma add_document_and_members :
  (forall d (name : ptr) (nm : list byte) (b : bool) c,
      document_ok d ->
      accepting c ->
      0 <= containerLevel c ->
      isObject_at c (containerLevel c) = Some b ->
      name_for b name nm ->
      (b = true -> name <> None) ->
      (Z.to_nat (containerLevel c) + depth d < List.length (isObject c))%nat ->
      exists c',
        add_document name d c = Some (BSG_KSJSON_OK, c') /\
        wrote c c' (element_prefix c b nm ++
                    render (prettyPrint c) (containerLevel c) d) /\
        containerFirstEntry c' = false) /\
  (forall ms (object : bool) c,
      members_ok object ms ->
      accepting c ->
      0 < containerLevel c ->
      isObject_at c (containerLevel c) = Some object ->
      (Z.to_nat (containerLevel c) + members_depth ms < List.length (isObject c))%nat ->
      exists c',
        add_members object ms c = Some (BSG_KSJSON_OK, c') /\
        wrote c c' (render_members (prettyPrint c) (containerLevel c) object
                                   (containerFirstEntry c) ms) /\
        containerFirstEntry c' = containerFirstEntry c && negb (has_members ms)).
Proof.
  apply document_and_members_ind.
  - (* a scalar *)
    intros s name nm b c Hok Ha Hlevel Hb Hname Hnn Hroom.
    destruct (typed_adder_writes name _ _ nm b c (scalar_typed_adder name s Hok) Hb Hname)
      as (r & c' & l & Heq & Hh & _ & Hout & Hacc).
    rewrite (Hacc Ha Hnn) in *.
    exists c'. split; [exact Heq|].
    pose proof (output_handed _ _ _ Hh) as Ho.
    destruct Hh as (Hf & Hp & Hi & Hv & Hfl & _).
    split; [|exact Hfl].
    split; [rewrite Ho, (Hout eq_refl); reflexivity|].
    split; [exact Hf|]. split; [exact Hp|]. split; [exact Hv|].
    split; [rewrite Hi; reflexivity|]. intros i _. rewrite Hi. reflexivity.
  - (* a container *)
    intros object ms IH name nm b c Hok Ha Hlevel Hb Hname Hnn Hroom.
    cbn [document_ok depth] in Hok, Hroom.
    destruct (beginContainer_spec object name nm b c Hlevel Hb Hname)
      as (r1 & c1 & l1 & Heq1 & Hs1 & Hf1 & Hp1 & _ & Hok1 & Hacc1); [lia|].
    rewrite (Hacc1 Ha Hnn) in *.
    destruct (Hok1 eq_refl) as (Hv1 & Hi1 & Hfl1 & Hc1).
    assert (Ha1 : accepting c1) by (unfold accepting; rewrite Hf1; exact Ha).
    assert (Hb1 : isObject_at c1 (containerLevel c1) = Some object).
    { rewrite Hv1. unfold isObject_at.
      destruct (containerLevel c + 1 <? 0) eqn:E; [apply Z.ltb_lt in E; lia|].
      rewrite Hi1. apply list_lookup_insert_eq. lia. }
    destruct (IH object c1 Hok Ha1) as (c2 & Heq2 & Hw2 & Hfl2); [lia | exact Hb1 | |].
    { rewrite Hi1, length_insert, Hv1. lia. }
    pose proof (wrote_isObject_at _ _ _ Hw2 ltac:(lia)) as Hb2. rewrite Hb1 in Hb2.
    pose proof (wrote_accepting _ _ _ Hw2 Ha1) as Ha2.
    destruct Hw2 as (Ho2 & Hf2 & Hp2 & Hv2 & Hn2 & Hi2).
    destruct (endContainer_spec object c2 ltac:(lia) Hb2)
      as (r3 & c3 & l3 & Heq3 & Hh3 & Hok3 & _ & Hacc3).
    rewrite (Hacc3 Ha2) in *. destruct (Hok3 eq_refl) as [_ Hc3].
    pose proof (output_handed _ _ _ Hh3) as Ho3.
    destruct Hh3 as (Hf3 & Hp3 & Hi3 & Hv3 & Hfl3 & _).
    cbn [addJSONDataFunc prettyPrint isObject containerLevel containerFirstEntry
         set_containerFirstEntry set_containerLevel] in Hf3, Hp3, Hi3, Hv3, Hfl3.
    exists c3. split; [|split; [|exact Hfl3]].
    + cbn [add_document]. unfold and_then at 1. rewrite Heq1.
      unfold and_then. rewrite Heq2. exact Heq3.
    + split; [|split; [congruence|split; [congruence|split; [lia|split]]]].
      * change (output (set_containerFirstEntry false
                          (set_containerLevel (containerLevel c2 - 1) c2)))
          with (output c2) in Ho3.
        rewrite Ho3, Hc3, Ho2. unfold output at 1. rewrite Hs1, concat_app, Hc1.
        rewrite Hp2, Hp1, Hfl2, Hfl1, Hv2, Hv1. cbn [render andb].
        rewrite negb_involutive.
        replace (containerLevel c + 1 - 1) with (containerLevel c) by lia.
        fold (output c). unfold closing_bracket.
        rewrite <- !app_assoc. reflexivity.
      * rewrite Hi3, Hn2, Hi1, length_insert. reflexivity.
      * intros i Hi. rewrite Hi3, Hi2 by lia. rewrite Hi1.
        apply list_lookup_insert_ne. lia.
  - (* no member *)
    intros object c _ _ _ _ _. exists c. split; [reflexivity|].
    split; [|cbn [has_members negb]; rewrite andb_true_r; reflexivity].
    cbn [render_members]. split; [rewrite app_nil_r; reflexivity|].
    repeat split; reflexivity.
  - (* a member and the following ones *)
    intros nm d IHd ms IHms object c Hok Ha Hlevel Hb Hroom.
    cbn [members_ok members_depth] in Hok, Hroom. destruct Hok as (Hnm & Hd & Hms).
    assert (Hname : name_for object (member_name object nm) nm).
    { intros ->. right. exists []. split; [reflexivity | apply Hnm; reflexivity]. }
    assert (Hnn : object = true -> member_name object nm <> None)
      by (intros -> E; discriminate E).
    destruct (IHd (member_name object nm) nm object c Hd Ha ltac:(lia) Hb Hname Hnn)
      as (c1 & Heq1 & Hw1 & Hfl1); [lia|].
    pose proof (wrote_isObject_at _ _ _ Hw1 ltac:(lia)) as Hb1. rewrite Hb in Hb1.
    pose proof (wrote_accepting _ _ _ Hw1 Ha) as Ha1.
    destruct Hw1 as (Ho1 & Hf1 & Hp1 & Hv1 & Hn1 & Hi1).
    destruct (IHms object c1 Hms Ha1) as (c2 & Heq2 & Hw2 & Hfl2);
      [lia | exact Hb1 | lia |].
    destruct Hw2 as (Ho2 & Hf2 & Hp2 & Hv2 & Hn2 & Hi2).
    exists c2. split; [|split].
    + cbn [add_members]. unfold and_then. rewrite Heq1. exact Heq2.
    + split; [|split; [congruence|split; [congruence|split; [congruence|split]]]].
      * rewrite Ho2, Ho1, Hp1, Hv1, Hfl1. cbn [render_members].
        unfold element_prefix.
        destruct (0 <? containerLevel c) eqn:E; [|apply Z.ltb_ge in E; lia].
        rewrite andb_true_r. rewrite <- !app_assoc. reflexivity.
      * congruence.
      * intros i Hi. rewrite Hi2, Hi1 by lia. reflexivity.
    + cbn [has_members negb]. rewrite andb_false_r. rewrite Hfl2, Hfl1. reflexivity.
Qed.

(** X15: a caller that writes a document with the calls of the encoder
    (a scalar with its adder, a container with its opening, its members
    in order and [bsg_ksjsonendContainer]), with a handler that accepts
    everything and room in the [isObject] array for the containers open
    at once, gets OK from every call, and the handler is given the prefix
    of the element and then the JSON text of the document, compact or
    pretty as the context says; the level is the one before, the
    first-entry flag is false. *)
Theorem document_is_written (d : document) (name : ptr) (nm : list byte)
    (b : bool) c :
  document_ok d ->
  accepting c ->
  0 <= containerLevel c ->
  isObject_at c (containerLevel c) = Some b ->
  name_for b name nm ->
  (b = true -> name <> None) ->
  (Z.to_nat (containerLevel c) + depth d < List.length (isObject c))%nat ->
  exists c',
    add_document name d c = Some (BSG_KSJSON_OK, c') /\
    output c' = output c ++ element_prefix c b nm ++
                render (prettyPrint c) (containerLevel c) d /\
    containerLevel c' = containerLevel c /\
    containerFirstEntry c' = false.
Proof.
  intros Hok Ha Hlevel Hb Hname Hnn Hroom.
  destruct (proj1 add_document_and_members d name nm b c Hok Ha Hlevel Hb Hname Hnn Hroom)
    as (c' & Heq & (Ho & _ & _ & Hv & _) & Hfl).
  exists c'. auto.
Qed.

(** X18: a whole encoding.  After [bsg_ksjsonbeginEncode] with a handler
    that accepts everything, writing a document whose containers fit the
    [isObject] array and calling [bsg_ksjsonendEncode] gives OK twice,
    and all the handler was given is the JSON text of the document, in
    the mode chosen: nothing before it, nothing after it. *)
Theorem encode_document (pretty : bool) (handler : list byte -> U -> status * U)
    (user : U) (d : document) :
  (forall data u, (handler data u).1 = BSG_KSJSON_OK) ->
  document_ok d ->
  (depth d < isObject_size)%nat ->
  exists c',
    calls [add_document None d; bsg_ksjsonendEncode]
          (bsg_ksjsonbeginEncode pretty handler user)
    = Some ([BSG_KSJSON_OK; BSG_KSJSON_OK], c') /\
    output c' = render pretty 0 d /\
    containerLevel c' = 0.
Proof.
  intros Ha Hok Hroom.
  set (c := bsg_ksjsonbeginEncode pretty handler user).
  assert (Hb : isObject_at c (containerLevel c) = Some false).
  { unfold isObject_at. cbn. apply lookup_replicate_2. lia. }
  assert (Hname : name_for false None []) by (intros E; discriminate E).
  assert (Hnn : false = true -> @None (list byte) <> None) by (intros E; discriminate E).
  destruct (proj1 add_document_and_members d None [] false c Hok Ha ltac:(cbn; lia)
              Hb Hname Hnn)
    as (c1 & Heq1 & (Ho1 & _ & _ & Hv1 & _) & _).
  { cbn. rewrite length_replicate. lia. }
  destruct (nothing_open c1 ltac:(rewrite Hv1; cbn; lia)) as [_ Heq2].
  exists c1. split; [|split; [|exact Hv1]].
  - cbn [calls mbind option_bind]. rewrite Heq1. cbn [mbind option_bind].
    rewrite Heq2. reflexivity.
  - rewrite Ho1. unfold element_prefix, output. subst c.
    cbn [bsg_ksjsonbeginEncode sent containerFirstEntry prettyPrint containerLevel
         concat app].
    change (0 <? 0) with false. rewrite andb_false_r. reflexivity.
Qed.

End Documents.

(** X16: when [bsg_ksjsonendEncode], called at a level inside the
    [isObject] array, returns OK, no container is left open, whatever
    the handler is; a call of [bsg_ksjsonendContainer] or a second call
    of [bsg_ksjsonendEncode] then returns OK and does nothing: a closing
    without an opening is not an error. *)
Theorem endEncode_leaves_nothing_open {U : Type} (c c' : BSG_KSJSONEncodeContext U) :
  in_bounds c ->
  bsg_ksjsonendEncode c = Some (BSG_KSJSON_OK, c') ->
  containerLevel c' = 0 /\
  bsg_ksjsonendContainer c' = Some (BSG_KSJSON_OK, c') /\
  bsg_ksjsonendEncode c' = Some (BSG_KSJSON_OK, c').
Proof.
  intros [Hlevel Hroom] Heq.
  unfold bsg_ksjsonendEncode in Heq.
  rewrite (endEncode_loop_close_containers _ c eq_refl) in Heq.
  destruct (close_containers_spec (Z.to_nat (containerLevel c)) c)
    as (r & c0 & l & Heq0 & _ & _ & Hok & _); [lia | exact Hroom |].
  rewrite Heq in Heq0. injection Heq0 as <- <-.
  destruct (Hok eq_refl) as [Hz _].
  split; [exact Hz|]. apply nothing_open. lia.
Qed.

(** A document of arrays, compact. *)
Example compact_document :
  let d := Container false
             (member [] (Scalar (SInteger 1))
                (member [] (Container false
                              (member [] (Scalar (SBoolean true))
                                 (member [] (Scalar SNull) no_members)))
                   (member [] (Container true no_members) no_members))) in
  render false 0 d = bytes "[1,[true,null],{}]" /\
  (fun rc => (rc.1, output rc.2))
    <$> add_document (H := header200) None d (bsg_ksjsonbeginEncode (H := header200) false accept_all tt)
  = Some (BSG_KSJSON_OK, bytes "[1,[true,null],{}]").
Proof. split; vm_compute; reflexivity. Qed.

(** The same document, pretty. *)
Example pretty_document :
  let d := Container false
             (member [] (Scalar (SInteger 1))
                (member [] (Container false
                              (member [] (Scalar (SBoolean true))
                                 (member [] (Scalar SNull) no_members)))
                   (member [] (Container true no_members) no_members))) in
  (fun rc => (rc.1, output rc.2))
    <$> add_document (H := header200) None d (bsg_ksjsonbeginEncode (H := header200) true accept_all tt)
  = Some (BSG_KSJSON_OK,
          bytes "[" ++ x0a ::
          bytes "    1," ++ x0a ::
          bytes "    [" ++ x0a ::
          bytes "        true," ++ x0a ::
          bytes "        null" ++ x0a ::
          bytes "    ]," ++ x0a ::
          bytes "    {}" ++ x0a ::
          bytes "]").
Proof. vm_compute. reflexivity. Qed.

(* ====================================================================== *)
(** * Where a status comes from *)
(* ====================================================================== *)

Section Statuses.

Context `{Header} `{Libm} {U : Type}.
Implicit Types context c : BSG_KSJSONEncodeContext U.
Implicit Types m k : M U status.


Lemma propagates_invalid_data :
  propagates (U := U) (fun context => Some (BSG_KSJSON_ERROR_INVALID_DATA, context)).
Proof. intros c r c' [= <- <-]. auto. Qed.



Lemma propagates_ext m m' : (forall c, m c = m' c) -> propagates m' -> propagates m.
Proof. intros Hext Hm c r c' E. rewrite Hext in E. exact (Hm _ _ _ E). Qed.

















End Statuses.

(* ====================================================================== *)
(** * The further theorems at concrete inputs *)
(* ====================================================================== *)

Lemma escaped_text_reads_back_witness :
  let c := bsg_ksjsonbeginEncode (H := header200) false accept_all tt in
  let input := ["a"%byte; QUOTE; x0a; x5c; x01] in
  readable (Some input) 5 input /\
  accepting c /\
  exists c' text,
    bsg_ksjsoncodec_i_addEscapedString (Some input) 5 c = Some (BSG_KSJSON_OK, c') /\
    output c' = output c ++ text /\
    Forall (fun b => 32 <= Z_of_byte b) text /\
    json_unescape text = Some input.
Proof.
  intros c input.
  assert (Hread : readable (Some input) 5 input).
  { exists input. split; [reflexivity|]. split; [simpl; lia | reflexivity]. }
  assert (Ha : accepting c) by (intros data u; reflexivity).
  split; [exact Hread|]. split; [exact Ha|].
  exact (escaped_text_reads_back (Some input) 5 input c Hread Ha).
Defined.

Lemma streamed_string_is_added_string_witness :
  let c := mkContext accept_all tt false [false; true] 1 true [bytes "{"] in
  let name := cstr "k" in
  let first := bytes "ab" in
  let second := QUOTE :: bytes "cd" in
  isObject_at c (containerLevel c) = Some true /\
  name_for true name (bytes "k") /\
  (true = true -> name <> None) /\
  N.of_nat (List.length (first ++ second))
  <> BSG_KSJSON_SIZE_AUTOMATIC (Header := header200) /\
  accepting c /\
  exists c1 c2,
    calls [bsg_ksjsonbeginStringElement name;
           bsg_ksjsonappendStringElement (Some first) (List.length first);
           bsg_ksjsonappendStringElement (Some second) (List.length second);
           bsg_ksjsonendStringElement] c
    = Some ([BSG_KSJSON_OK; BSG_KSJSON_OK; BSG_KSJSON_OK; BSG_KSJSON_OK], c1) /\
    bsg_ksjsonaddStringElement (H := header200) name (Some (first ++ second))
                               (N.of_nat (List.length (first ++ second))) c
    = Some (BSG_KSJSON_OK, c2) /\
    output c1 = output c2 /\
    containerLevel c1 = containerLevel c2 /\
    containerFirstEntry c1 = containerFirstEntry c2.
Proof.
  intros c name first second.
  assert (Hname : name_for true name (bytes "k")).
  { intros _. right. exists []. split; [reflexivity|].
    apply Forall_cons; [intros E; discriminate E | apply Forall_nil]. }
  assert (Hnn : true = true -> name <> None) by (intros _ E; discriminate E).
  assert (Hauto : N.of_nat (List.length (first ++ second))
                  <> BSG_KSJSON_SIZE_AUTOMATIC (Header := header200))
    by (intros E; vm_compute in E; discriminate E).
  assert (Ha : accepting c) by (intros data u; reflexivity).
  split; [reflexivity|]. split; [exact Hname|]. split; [exact Hnn|].
  split; [exact Hauto|]. split; [exact Ha|].
  exact (streamed_string_is_added_string (H := header200)
           name (bytes "k") true first second c eq_refl Hname Hnn Hauto Ha).
Defined.


Lemma beginElement_writes_prefix_witness :
  let c := mkContext accept_some 1%nat true [false; true] 1 false [bytes "{"] in
  let name := cstr "k" in
  isObject_at c (containerLevel c) = Some true /\
  name_for true name (bytes "k") /\
  exists r c',
    bsg_ksjsonbeginElement name c = Some (r, c') /\
    containerLevel c' = containerLevel c /\
    isObject c' = isObject c /\
    containerFirstEntry c' = false /\
    (r = BSG_KSJSON_OK -> output c' = output c ++ element_prefix c true (bytes "k")) /\
    (accepting c -> (true = true -> name <> None) -> r = BSG_KSJSON_OK).
Proof.
  intros c name.
  assert (Hname : name_for true name (bytes "k")).
  { intros _. right. exists []. split; [reflexivity|].
    apply Forall_cons; [intros E; discriminate E | apply Forall_nil]. }
  split; [reflexivity|]. split; [exact Hname|].
  exact (beginElement_writes_prefix name (bytes "k") true c eq_refl Hname).
Defined.

Lemma missing_name_in_object_witness :
  let c := mkContext accept_all tt true [false; true] 1 false [bytes "{"] in
  isObject_at c (containerLevel c) = Some true /\
  0 <= containerLevel c /\
  accepting c /\
  exists c',
    bsg_ksjsonaddIntegerElement None 5 c
    = Some (BSG_KSJSON_ERROR_INVALID_DATA, c') /\
    output c' = output c ++ element_prefix c false [] /\
    containerLevel c' = containerLevel c /\
    containerFirstEntry c' = false.
Proof.
  intros c.
  assert (Hlevel : 0 <= containerLevel c) by (simpl; lia).
  assert (Ha : accepting c) by (intros data u; reflexivity).
  split; [reflexivity|]. split; [exact Hlevel|]. split; [exact Ha|].
  apply (missing_name_in_object (H := header200) (H0 := libm_unused) c eq_refl Hlevel Ha).
  right. left. exists (bytes "5"). apply adds_integer. reflexivity.
Defined.

Lemma typed_adder_writes_value_witness :
  let c := mkContext accept_some 2%nat false [false; false] 1 false [bytes "["] in
  typed_adder (H := header200) (H0 := libm_unused) (U := nat) None
              (bsg_ksjsonaddIntegerElement None (-12)) (bytes "-12") /\
  isObject_at c (containerLevel c) = Some false /\
  name_for false None [] /\
  exists r c',
    bsg_ksjsonaddIntegerElement None (-12) c = Some (r, c') /\
    containerLevel c' = containerLevel c /\
    isObject c' = isObject c /\
    containerFirstEntry c' = false /\
    (r = BSG_KSJSON_OK -> output c' = output c ++ element_prefix c false [] ++ bytes "-12") /\
    (accepting c -> (false = true -> @None (list byte) <> None) -> r = BSG_KSJSON_OK).
Proof.
  intros c.
  assert (Hm : typed_adder (H := header200) (H0 := libm_unused) (U := nat) None
                 (bsg_ksjsonaddIntegerElement None (-12)) (bytes "-12"))
    by (apply adds_integer; reflexivity).
  assert (Hname : name_for false None []) by (intros E; discriminate E).
  split; [exact Hm|]. split; [reflexivity|]. split; [exact Hname|].
  exact (typed_adder_writes_value (H := header200) (H0 := libm_unused)
           None [] false _ (bytes "-12") c Hm eq_refl Hname).
Defined.

Lemma beginContainer_opens_witness :
  let c := mkContext accept_all tt false [false; true; false] 1 false [bytes "{"] in
  let name := cstr "k" in
  0 <= containerLevel c /\
  isObject_at c (containerLevel c) = Some true /\
  name_for true name (bytes "k") /\
  (Z.to_nat (containerLevel c + 1) < List.length (isObject c))%nat /\
  exists r c',
    bsg_ksjsonbeginArray name c = Some (r, c') /\
    (r = BSG_KSJSON_OK ->
     containerLevel c' = containerLevel c + 1 /\
     isObject_at c' (containerLevel c') = Some false /\
     (forall i, 0 <= i <= containerLevel c -> isObject_at c' i = isObject_at c i) /\
     containerFirstEntry c' = true /\
     output c' = output c ++ element_prefix c true (bytes "k") ++ bytes "[") /\
    (accepting c -> (true = true -> name <> None) -> r = BSG_KSJSON_OK).
Proof.
  intros c name.
  assert (Hlevel : 0 <= containerLevel c) by (simpl; lia).
  assert (Hname : name_for true name (bytes "k")).
  { intros _. right. exists []. split; [reflexivity|].
    apply Forall_cons; [intros E; discriminate E | apply Forall_nil]. }
  assert (Hroom : (Z.to_nat (containerLevel c + 1) < List.length (isObject c))%nat)
    by (simpl; lia).
  split; [exact Hlevel|]. split; [reflexivity|]. split; [exact Hname|].
  split; [exact Hroom|].
  exact (beginContainer_opens
           false name (bytes "k") true c Hlevel eq_refl Hname Hroom).
Defined.

Lemma beginContainer_past_capacity_witness :
  let c := mkContext accept_all tt false [false; false] 1 true [bytes "["] in
  0 <= containerLevel c /\
  isObject_at c (containerLevel c) = Some false /\
  name_for false None [] /\
  (false = true -> @None (list byte) <> None) /\
  accepting c /\
  (List.length (isObject c) <= Z.to_nat (containerLevel c + 1))%nat /\
  bsg_ksjsonbeginObject None c = None.
Proof.
  intros c.
  assert (Hlevel : 0 <= containerLevel c) by (simpl; lia).
  assert (Hname : name_for false None []) by (intros E; discriminate E).
  assert (Hnn : false = true -> @None (list byte) <> None) by (intros E; discriminate E).
  assert (Ha : accepting c) by (intros data u; reflexivity).
  assert (Hfull : (List.length (isObject c) <= Z.to_nat (containerLevel c + 1))%nat)
    by (simpl; lia).
  split; [exact Hlevel|]. split; [reflexivity|]. split; [exact Hname|].
  split; [exact Hnn|]. split; [exact Ha|]. split; [exact Hfull|].
  exact (beginContainer_past_capacity
           true None [] false c Hlevel eq_refl Hname Hnn Ha Hfull).
Defined.

Lemma addJSONElement_blank_payload_witness :
  let c := bsg_ksjsonbeginEncode (H := header200) false accept_all tt in
  let payload := [" "%byte; x0a; x09; x0d] in
  readable (Some payload) 4 payload /\
  first_non_whitespace payload = None /\
  bsg_ksjsonaddJSONElement None (Some payload) 4 c
  = Some (BSG_KSJSON_ERROR_INVALID_DATA, c).
Proof.
  intros c payload.
  assert (Hread : readable (Some payload) 4 payload).
  { exists payload. split; [reflexivity|]. split; [simpl; lia | reflexivity]. }
  split; [exact Hread|]. split; [reflexivity|].
  exact (addJSONElement_blank_payload
           None (Some payload) 4 payload c Hread eq_refl).
Defined.

Lemma elements_written_are_counted_witness :
  let c := mkContext accept_all tt false [false; true; false] 1 true [bytes "{"] in
  let name := cstr "k" in
  let c' := match bsg_ksjsonaddNullElement name c with
            | Some (_, c') => c'
            | None => c
            end in
  entries_invariant c [O; 1%nat] /\
  isObject_at c (containerLevel c) = Some true /\
  name_for true name (bytes "k") /\
  entries_invariant c' [1%nat; 1%nat].
Proof.
  intros c name c'.
  assert (Hinv : entries_invariant c [O; 1%nat]).
  { split; [reflexivity|]. split; [split; reflexivity|].
    apply Forall_cons; [simpl; lia | apply Forall_nil]. }
  assert (Hname : name_for true name (bytes "k")).
  { intros _. right. exists []. split; [reflexivity|].
    apply Forall_cons; [intros E; discriminate E | apply Forall_nil]. }
  split; [exact Hinv|]. split; [reflexivity|]. split; [exact Hname|].
  exact (proj1 (elements_written_are_counted (H := header200) (H0 := libm_unused)
                  name (bytes "k") true O [1%nat] c c' Hinv eq_refl Hname)
           (bsg_ksjsonaddNullElement name) (bytes "null") (adds_null name) eq_refl).
Defined.

Lemma document_is_written_witness :
  let c := mkContext accept_all tt true [false; true; false; false] 1 false [bytes "{"] in
  let d := Container true
             (member (bytes "a") (Container false
                                    (member [] (Scalar (SInteger (-7)))
                                       (member [] (Scalar (SString (bytes "x"))) no_members)))
                (member (bytes "b") (Scalar (SData [xff])) no_members)) in
  let name := cstr "k" in
  document_ok (H := header200) d /\
  accepting c /\
  0 <= containerLevel c /\
  isObject_at c (containerLevel c) = Some true /\
  name_for true name (bytes "k") /\
  (true = true -> name <> None) /\
  (Z.to_nat (containerLevel c) + depth d < List.length (isObject c))%nat /\
  exists c',
    add_document (H := header200) name d c = Some (BSG_KSJSON_OK, c') /\
    output c' = output c ++ element_prefix c true (bytes "k") ++
                render (prettyPrint c) (containerLevel c) d /\
    containerLevel c' = containerLevel c /\
    containerFirstEntry c' = false.
Proof.
  intros c d name.
  assert (Hok : document_ok (H := header200) d).
  { repeat split; try (intros E; discriminate E);
      intros _; (apply Forall_cons; [intros E; discriminate E | apply Forall_nil]). }
  assert (Ha : accepting c) by (intros data u; reflexivity).
  assert (Hlevel : 0 <= containerLevel c) by (simpl; lia).
  assert (Hname : name_for true name (bytes "k")).
  { intros _. right. exists []. split; [reflexivity|].
    apply Forall_cons; [intros E; discriminate E | apply Forall_nil]. }
  assert (Hnn : true = true -> name <> None) by (intros _ E; discriminate E).
  assert (Hroom : (Z.to_nat (containerLevel c) + depth d < List.length (isObject c))%nat)
    by (vm_compute; lia).
  split; [exact Hok|]. split; [exact Ha|]. split; [exact Hlevel|].
  split; [reflexivity|]. split; [exact Hname|]. split; [exact Hnn|].
  split; [exact Hroom|].
  exact (document_is_written (H := header200) (H0 := libm_unused)
           d name (bytes "k") true c Hok Ha Hlevel eq_refl Hname Hnn Hroom).
Defined.

Lemma endEncode_leaves_nothing_open_witness :
  let c := mkContext accept_all tt true [false; true; false] 2 false
                     [bytes "{"; bytes "["] in
  let c' := match bsg_ksjsonendEncode c with
            | Some (_, c') => c'
            | None => c
            end in
  in_bounds c /\
  bsg_ksjsonendEncode c = Some (BSG_KSJSON_OK, c') /\
  containerLevel c' = 0 /\
  bsg_ksjsonendContainer c' = Some (BSG_KSJSON_OK, c') /\
  bsg_ksjsonendEncode c' = Some (BSG_KSJSON_OK, c').
Proof.
  intros c c'.
  assert (Hin : in_bounds c) by (split; [simpl; lia | vm_compute; lia]).
  assert (Heq : bsg_ksjsonendEncode c = Some (BSG_KSJSON_OK, c'))
    by (vm_compute; reflexivity).
  split; [exact Hin|]. split; [exact Heq|].
  exact (endEncode_leaves_nothing_open c c' Hin Heq).
Defined.


Lemma encode_document_witness :
  let d := Container true
             (member (bytes "a") (Container false
                                    (member [] (Scalar (SUInteger 18446744073709551615))
                                       (member [] (Scalar SNull) no_members)))
                (member (bytes "b") (Scalar (SBoolean false)) no_members)) in
  (forall data u, (accept_all data u).1 = BSG_KSJSON_OK) /\
  document_ok (H := header200) d /\
  (depth d < isObject_size (Header := header200))%nat /\
  exists c',
    calls [add_document (H := header200) None d; bsg_ksjsonendEncode]
          (bsg_ksjsonbeginEncode (H := header200) true accept_all tt)
    = Some ([BSG_KSJSON_OK; BSG_KSJSON_OK], c') /\
    output c' = render true 0 d /\
    containerLevel c' = 0.
Proof.
  intros d.
  assert (Ha : forall data u, (accept_all data u).1 = BSG_KSJSON_OK) by reflexivity.
  assert (Hok : document_ok (H := header200) d).
  { repeat split; try (intros E; discriminate E);
      intros _; (apply Forall_cons; [intros E; discriminate E | apply Forall_nil]). }
  assert (Hroom : (depth d < isObject_size (Header := header200))%nat)
    by (vm_compute; lia).
  split; [exact Ha|]. split; [exact Hok|]. split; [exact Hroom|].
  exact (encode_document (H := header200) (H0 := libm_unused)
           true accept_all tt d Ha Hok Hroom).
Defined.
